(** * Weather monitor and email notifier: a shallow embedding of [index.js]

    The script fetches weather and air-quality readings, formats them and
    mails a daily forecast and threshold alerts.  This development embeds
    the functions of [index.js] and states their properties.

    Conventions of the embedding.
    - A JavaScript value of the data handled by the script (parsed JSON,
      option objects) is a [JsVal].  An object is the list of its own
      properties in iteration order ([Object.keys] order).
    - A Number is either [NaN] or a decimal fraction [Dec m k], standing
      for [m / 10^k]; the literals and readings of the script (fewer than
      16 significant digits, magnitude between 1e-6 and 1e21) print and
      compare as their decimal numerals.
    - A call that can raise returns a [completion]; the jobs run in the
      monad [Job], which threads the console log and the outbox.
    - The time zone, [Date.parse] and the conversion of strings to
      numbers belong to the host: they are the fields of [Host].  The
      clock, the service and the mail transport are the surroundings of
      a run: [Env] for a job, [World] for the process.
    - [main] leaves timers in an event loop; the loop is run in virtual
      time by [step].  A run of a job is recorded at the instant it
      starts; the time it takes to settle delays what the script does
      after its [await], and the end of the process when the job raises
      inside a timer callback. *)

From Stdlib Require Import ZArith List String Ascii Bool Lia Arith Permutation.
From Stdlib Require Import DecimalString DecimalNat DecimalZ.
Import ListNotations.

Local Open Scope string_scope.
Local Open Scope Z_scope.

(* ------------------------------------------------------------------ *)
(** ** Strings *)

Definition string_of_nat (n : nat) : string :=
  NilZero.string_of_uint (Nat.to_uint n).

Definition string_of_Z (z : Z) : string :=
  NilZero.string_of_int (Z.to_int z).

(** [s[s.length - 1]]: the last character, if any. *)
Fixpoint last_char (s : string) : option ascii :=
  match s with
  | EmptyString => None
  | String c EmptyString => Some c
  | String _ r => last_char r
  end.

Fixpoint repeat_string (c : ascii) (n : nat) : string :=
  match n with
  | O => EmptyString
  | S n' => String c (repeat_string c n')
  end.

(** [l.join(sep)] on strings. *)
Fixpoint join (sep : string) (l : list string) : string :=
  match l with
  | [] => ""
  | [x] => x
  | x :: r => x ++ sep ++ join sep r
  end.

(* ------------------------------------------------------------------ *)
(** ** Numbers *)

Inductive number : Type :=
| NaN
| Dec (m : Z) (k : nat).

Definition num_of_Z (z : Z) : number := Dec z 0.
Definition num_of_nat (n : nat) : number := Dec (Z.of_nat n) 0.

(** Drop the trailing zeros of the fraction. *)
Fixpoint strip_zeros (m : Z) (k : nat) : Z * nat :=
  match k with
  | O => (m, O)
  | S k' => if (m mod 10 =? 0) then strip_zeros (m / 10) k' else (m, k)
  end.

(** [Number::toString] in radix 10. *)
Definition Number_toString (n : number) : string :=
  match n with
  | NaN => "NaN"
  | Dec m k =>
      let '(m', k') := strip_zeros m k in
      match k' with
      | O => string_of_Z m'
      | S _ =>
          let p := 10 ^ Z.of_nat k' in
          let ip := Z.abs m' / p in
          let fp := string_of_Z (Z.abs m' mod p) in
          (if m' <? 0 then "-" else "") ++ string_of_Z ip ++ "." ++
          repeat_string "0"%char (k' - String.length fp)%nat ++ fp
      end
  end.

(** Numeric [>] ; a comparison with [NaN] is false. *)
Definition num_gtb (a b : number) : bool :=
  match a, b with
  | Dec m1 k1, Dec m2 k2 =>
      m2 * 10 ^ Z.of_nat k1 <? m1 * 10 ^ Z.of_nat k2
  | _, _ => false
  end.

(** Numeric [==] ; [NaN] equals nothing. *)
Definition num_eqb (a b : number) : bool :=
  match a, b with
  | Dec m1 k1, Dec m2 k2 =>
      m2 * 10 ^ Z.of_nat k1 =? m1 * 10 ^ Z.of_nat k2
  | _, _ => false
  end.

(** The truncation of a number to an integer ([None] for [NaN]). *)
Definition num_trunc (n : number) : option Z :=
  match n with
  | NaN => None
  | Dec m k => Some (Z.quot m (10 ^ Z.of_nat k))
  end.

(* ------------------------------------------------------------------ *)
(** ** Values *)

#[warnings="-register-all"]
Inductive JsVal : Type :=
| JUndefined
| JNull
| JBool (b : bool)
| JNum (n : number)
| JStr (s : string)
| JArr (l : list JsVal)
| JObj (o : list (string * JsVal)).

(** An object: its own properties, in iteration order. *)
Definition object : Type := list (string * JsVal).

Definition keys (o : object) : list string := map fst o.

(** [o[key]] on an object: the own property, [undefined] when absent. *)
Fixpoint get_own (o : object) (key : string) : JsVal :=
  match o with
  | [] => JUndefined
  | (k, v) :: r => if String.eqb k key then v else get_own r key
  end.

Definition is_nullish (v : JsVal) : bool :=
  match v with
  | JUndefined | JNull => true
  | _ => false
  end.

Definition is_object (v : JsVal) : bool :=
  match v with
  | JArr _ | JObj _ => true
  | _ => false
  end.

(** [ToString] on the values of the data.  An array prints its elements
    joined by commas, a nullish element as the empty string; a plain
    object prints as [[object Object]].  (An object with a property of
    its own named [toString] is not plain: the language raises a
    [TypeError] on it, which this conversion does not; the script
    converts readings and codes, which are strings and numbers.) *)
Fixpoint ToString (v : JsVal) : string :=
  match v with
  | JUndefined => "undefined"
  | JNull => "null"
  | JBool true => "true"
  | JBool false => "false"
  | JNum n => Number_toString n
  | JStr s => s
  | JArr l =>
      join "," (map (fun e => if is_nullish e then "" else ToString e) l)
  | JObj _ => "[object Object]"
  end.

(** The value of [base.name] where it does not raise: a property of the
    names the script reads ([value], [units], the field and indicator
    names) is an own property of an object and [undefined] on anything
    else. *)
Definition prop (base : JsVal) (name : string) : JsVal :=
  match base with
  | JObj o => get_own o name
  | _ => JUndefined
  end.

(* ------------------------------------------------------------------ *)
(** ** Completions *)

Inductive JsError : Type :=
| TypeError (msg : string)
| FetchError (msg : string)
| MailError (msg : string).

Inductive completion (A : Type) : Type :=
| Normal (a : A)
| Throw (e : JsError).

Arguments Normal {A} a.
Arguments Throw {A} e.

Definition cbind {A B} (c : completion A) (k : A -> completion B)
  : completion B :=
  match c with
  | Normal a => k a
  | Throw e => Throw e
  end.

Notation "'let?' x ':=' c 'in' k" := (cbind c (fun x => k))
  (at level 10, x name, c at level 100, k at level 200).

(** [base.name]: reading a property of [undefined] or [null] raises. *)
Definition js_get (base : JsVal) (name : string) : completion JsVal :=
  if is_nullish base
  then Throw (TypeError ("Cannot read property '" ++ name ++ "'"))
  else Normal (prop base name).

(** [l.forEach((e, i) => ...)] where the callback updates a state [St]
    (the variables it closes over) and may raise. *)
Fixpoint forEach_from {A St : Type} (f : A -> nat -> St -> completion St)
  (l : list A) (i : nat) (s : St) : completion St :=
  match l with
  | [] => Normal s
  | e :: r => let? s' := f e i s in forEach_from f r (S i) s'
  end.

Definition forEach {A St : Type} (f : A -> nat -> St -> completion St)
  (l : list A) (s : St) : completion St :=
  forEach_from f l 0%nat s.

(* ------------------------------------------------------------------ *)
(** ** The query builder *)

(** The shared tail of both branches:
    [if (request[request.length - 1] !== "?") request += "&";
     request += `${key}=${text}`]. *)
Definition append_param (request key text : string) : string :=
  let request :=
    match last_char request with
    | Some "?"%char => request
    | _ => request ++ "&"
    end in
  request ++ key ++ "=" ++ text.

Definition is_scalar (v : JsVal) : bool :=
  match v with
  | JNum _ | JStr _ => true
  | _ => false
  end.

Definition queryBuilder (request : string) (options : object) : string :=
  let request := request ++ "?" in
  fold_left
    (fun request key =>
       match get_own options key with
       | (JNum _ | JStr _) as v => append_param request key (ToString v)
       | JArr l =>
           fold_left
             (fun request e =>
                if is_scalar e
                then append_param request key (ToString e)
                else request)
             l request
       | _ => request
       end)
    (keys options) request.

(* ------------------------------------------------------------------ *)
(** ** The host *)

(** What the script takes from its runtime: the offset of local time from
    UTC in milliseconds, [Date.parse] ([None] is [NaN]), and the
    conversion of a string to a number.  [LocalTZA t true] is the offset
    in force at the instant [t]; [LocalTZA t false] is the offset by
    which the local clock reading [t] is taken back to UTC.  The two
    change with [t] in a zone with daylight saving time. *)
Class Host : Type := {
  LocalTZA : Z -> bool -> Z;
  Date_parse : string -> option Z;
  StringToNumber : string -> number
}.

(* ------------------------------------------------------------------ *)
(** ** Dates: the time functions of the language *)

Definition msPerSecond : Z := 1000.
Definition msPerMinute : Z := 60000.
Definition msPerHour : Z := 3600000.
Definition msPerDay : Z := 86400000.

Definition Day (t : Z) : Z := t / msPerDay.
Definition TimeWithinDay (t : Z) : Z := t mod msPerDay.

Definition DayFromYear (y : Z) : Z :=
  365 * (y - 1970) + (y - 1969) / 4 - (y - 1901) / 100 + (y - 1601) / 400.

Definition DaysInYear (y : Z) : Z := DayFromYear (y + 1) - DayFromYear y.

(** The year of a day number: the largest [y] with [DayFromYear y <= d].
    The mean year estimates it within one. *)
Definition YearFromDay (d : Z) : Z :=
  let y := 1970 + (d * 400) / 146097 in
  if d <? DayFromYear y then y - 1
  else if DayFromYear (y + 1) <=? d then y + 1
  else y.

Definition YearFromTime (t : Z) : Z := YearFromDay (Day t).

Definition InLeapYear (t : Z) : Z := DaysInYear (YearFromTime t) - 365.

Definition DayWithinYear (t : Z) : Z := Day t - DayFromYear (YearFromTime t).

(** The days of the year before month [m] (0 to 11), [leap] being 0 or 1. *)
Definition DaysBeforeMonth (m leap : Z) : Z :=
  match m with
  | 0 => 0
  | 1 => 31
  | 2 => 59 + leap
  | 3 => 90 + leap
  | 4 => 120 + leap
  | 5 => 151 + leap
  | 6 => 181 + leap
  | 7 => 212 + leap
  | 8 => 243 + leap
  | 9 => 273 + leap
  | 10 => 304 + leap
  | _ => 334 + leap
  end.

Definition MonthFromDay (d leap : Z) : Z :=
  if d <? 31 then 0
  else if d <? 59 + leap then 1
  else if d <? 90 + leap then 2
  else if d <? 120 + leap then 3
  else if d <? 151 + leap then 4
  else if d <? 181 + leap then 5
  else if d <? 212 + leap then 6
  else if d <? 243 + leap then 7
  else if d <? 273 + leap then 8
  else if d <? 304 + leap then 9
  else if d <? 334 + leap then 10
  else 11.

Definition MonthFromTime (t : Z) : Z :=
  MonthFromDay (DayWithinYear t) (InLeapYear t).

Definition DateFromTime (t : Z) : Z :=
  DayWithinYear t - DaysBeforeMonth (MonthFromTime t) (InLeapYear t) + 1.

Definition WeekDay (t : Z) : Z := (Day t + 4) mod 7.

Definition HourFromTime (t : Z) : Z := (t / msPerHour) mod 24.
Definition MinFromTime (t : Z) : Z := (t / msPerMinute) mod 60.
Definition SecFromTime (t : Z) : Z := (t / msPerSecond) mod 60.
Definition msFromTime (t : Z) : Z := t mod msPerSecond.

Definition MakeTime (hour min sec ms : Z) : Z :=
  hour * msPerHour + min * msPerMinute + sec * msPerSecond + ms.

Definition MakeDay (year month date : Z) : Z :=
  let ym := year + month / 12 in
  let mn := month mod 12 in
  DayFromYear ym + DaysBeforeMonth mn (DaysInYear ym - 365) + date - 1.

Definition MakeDate (day time : Z) : Z := day * msPerDay + time.

(** A time value out of the range of dates is [NaN]. *)
Definition TimeClip (t : Z) : option Z :=
  if Z.abs t <=? 8640000000000000 then Some t else None.

Section Dates.
Context {H : Host}.

Definition LocalTime (t : Z) : Z := t + LocalTZA t true.
Definition UTC (t : Z) : Z := t - LocalTZA t false.

(** [d.getHours()], [d.getDay()], [d.getDate()] on a valid date. *)
Definition getHours (t : Z) : Z := HourFromTime (LocalTime t).
Definition getDay (t : Z) : Z := WeekDay (LocalTime t).
Definition getDate (t : Z) : Z := DateFromTime (LocalTime t).

(** [d.setHours(hour, min, sec)]: the milliseconds are kept. *)
Definition setHours (t hour min sec : Z) : option Z :=
  let t := LocalTime t in
  let date := MakeDate (Day t) (MakeTime hour min sec (msFromTime t)) in
  TimeClip (UTC date).

(** [d.setDate(date)]. *)
Definition setDate (t date : Z) : option Z :=
  let t := LocalTime t in
  let newDate :=
    MakeDate (MakeDay (YearFromTime t) (MonthFromTime t) date)
             (TimeWithinDay t) in
  TimeClip (UTC newDate).

(** [d.toLocaleDateString("en-US")]: month/day/year. *)
Definition toLocaleDateString (t : Z) : string :=
  let t := LocalTime t in
  string_of_Z (MonthFromTime t + 1) ++ "/" ++
  string_of_Z (DateFromTime t) ++ "/" ++
  string_of_Z (YearFromTime t).

(** [ToNumber] of a primitive that is not a string. *)
Definition ToNumber_prim (v : JsVal) : number :=
  match v with
  | JNull => num_of_Z 0
  | JBool true => num_of_Z 1
  | JBool false => num_of_Z 0
  | JNum n => n
  | _ => NaN
  end.

(** [ToNumber]: an array or an object goes through its string. *)
Definition ToNumber (v : JsVal) : number :=
  match v with
  | JStr s => StringToNumber s
  | JArr _ | JObj _ => StringToNumber (ToString v)
  | _ => ToNumber_prim v
  end.

(** The time value of [new Date(v)]: a string is parsed, as is the
    string of an array or an object; any other value is a number of
    milliseconds. *)
Definition Date_of (v : JsVal) : option Z :=
  match v with
  | JStr s => Date_parse s
  | JArr _ | JObj _ => Date_parse (ToString v)
  | _ =>
      match num_trunc (ToNumber_prim v) with
      | Some t => TimeClip t
      | None => None
      end
  end.

(** A getter on a date that may be invalid: [NaN] on an invalid one. *)
Definition date_field (f : Z -> Z) (d : option Z) : number :=
  match d with
  | Some t => num_of_Z (f t)
  | None => NaN
  end.
End Dates.

(* ------------------------------------------------------------------ *)
(** ** Globals of the script *)

(** [config.json]. *)
Record Config : Type := {
  host : string;
  user : string;
  pass : string;
  cc_key : string;
  recipient : string
}.

Definition LAT : number := Dec 377749 4.
Definition LONG : number := Dec (-1224194) 4.

Definition AIR_QUALITY_INDICATOR : list string :=
  ["pm10"; "pm25"; "o3"; "no2"; "co"; "so2"].
Definition WEATHER_FIELDS : list string :=
  ["weather_code"; "temp"; "wind_speed"; "humidity"].

(* ------------------------------------------------------------------ *)
(** ** Formatted records, attachments and mails *)

Module Weather.
Record entry : Type := {
  hour : number;
  weather_image : string;
  cid : string;
  temp : JsVal;
  temp_unit : JsVal;
  humidity : JsVal;
  humidity_unit : JsVal;
  wind_speed : JsVal;
  wind_speed_unit : JsVal
}.
End Weather.

Module Air.
Record entry : Type := {
  indicator : string;
  current_value : JsVal;
  air_image : string;
  cid : string
}.
End Air.

Module Attachment.
Record t : Type := {
  path : string;
  cid : string
}.
End Attachment.

(** The page of a mail: the template and the replacements it is applied
    to. *)
Inductive Html : Type :=
| WeatherForecastTemplate (weatherForecast : list Weather.entry)
    (airQuality : list Air.entry) (day : string)
| AirQualityAlertTemplate (airQuality : list Air.entry).

Record Mail : Type := {
  mail_from : string;
  mail_to : string;
  subject : string;
  html : Html;
  attachments : list Attachment.t
}.

(* ------------------------------------------------------------------ *)
(** ** The formatters *)

Section Formatters.
Context {H : Host}.

(** The callback of [data.forEach] in [formatWeatherData]. *)
Definition formatWeatherData_each (e : JsVal) (i : nat)
  (outputArr : list Weather.entry) : completion (list Weather.entry) :=
  let? observation_time := js_get e "observation_time" in
  let? observation_value := js_get observation_time "value" in
  let? weather_code := js_get e "weather_code" in
  let? weather_value := js_get weather_code "value" in
  let? temp := js_get e "temp" in
  let? temp_value := js_get temp "value" in
  let? temp_units := js_get temp "units" in
  let? humidity := js_get e "humidity" in
  let? humidity_value := js_get humidity "value" in
  let? humidity_units := js_get humidity "units" in
  let? wind_speed := js_get e "wind_speed" in
  let? wind_value := js_get wind_speed "value" in
  let? wind_units := js_get wind_speed "units" in
  let output :=
    {| Weather.hour := date_field getHours (Date_of observation_value);
       Weather.weather_image :=
         "./summary-icons/" ++ ToString weather_value ++ ".png";
       Weather.cid := "wid" ++ string_of_nat i;
       Weather.temp := temp_value;
       Weather.temp_unit := temp_units;
       Weather.humidity := humidity_value;
       Weather.humidity_unit := humidity_units;
       Weather.wind_speed := wind_value;
       Weather.wind_speed_unit := wind_units |} in
  Normal (outputArr ++ [output])%list.

Definition formatWeatherData (data : list JsVal)
  : completion (list Weather.entry) :=
  forEach formatWeatherData_each data [].

(** The callback of [AIR_QUALITY_INDICATOR.forEach] in
    [formatAirQualityData]. *)
Definition formatAirQualityData_each (airQualityData : JsVal)
  (indicator : string) (i : nat) (outputArr : list Air.entry)
  : completion (list Air.entry) :=
  let? reading := js_get airQualityData indicator in
  let? value := js_get reading "value" in
  let output :=
    {| Air.indicator := indicator;
       Air.current_value := value;
       Air.air_image := "./legends/" ++ indicator ++ "-legend.png";
       Air.cid := "aid" ++ string_of_nat i |} in
  Normal (outputArr ++ [output])%list.

Definition formatAirQualityData (airQualityData : JsVal)
  : completion (list Air.entry) :=
  forEach (formatAirQualityData_each airQualityData)
    AIR_QUALITY_INDICATOR [].
End Formatters.

(* ------------------------------------------------------------------ *)
(** ** The jobs *)

(** What a run of a job meets outside the script: the configuration, the
    answer of the service to a request ([fetch] then [json]), the
    transport taking a mail, and the clock. *)
Record Env : Type := {
  config : Config;
  fetch_json : string -> completion JsVal;
  transport : Mail -> completion unit;
  clock : Z
}.

(** What a job leaves behind: the lines of the console and the mails
    handed to the transport, oldest first.  A line that prints a date or
    a duration is kept with its arguments, not formatted. *)
Inductive Line : Type :=
| Say (text : string)
| SayError (e : JsError)
| SayForecastStart (startDate timeLeft : option Z)
| SayNextForecast (next : Z).

Record Trace : Type := {
  console : list Line;
  outbox : list Mail
}.

Definition no_trace : Trace := {| console := []; outbox := [] |}.

Definition Job (A : Type) : Type := Trace -> completion A * Trace.

Definition ret {A} (a : A) : Job A := fun s => (Normal a, s).

Definition bind {A B} (m : Job A) (k : A -> Job B) : Job B :=
  fun s =>
    match m s with
    | (Normal a, s') => k a s'
    | (Throw e, s') => (Throw e, s')
    end.

Notation "x <- m ;; k" := (bind m (fun x => k))
  (at level 61, m at next level, right associativity).
Notation "m ;;; k" := (bind m (fun _ => k))
  (at level 61, right associativity).

Definition lift {A} (c : completion A) : Job A := fun s => (c, s).

Definition console_line (line : Line) : Job unit :=
  fun s => (Normal tt,
            {| console := (console s ++ [line])%list; outbox := outbox s |}).

Definition console_log (text : string) : Job unit :=
  console_line (Say text).

(** [l.filter(p)] with a predicate that may raise. *)
Fixpoint filter_c {A} (p : A -> completion bool) (l : list A)
  : completion (list A) :=
  match l with
  | [] => Normal []
  | x :: r =>
      let? b := p x in
      let? r' := filter_c p r in
      Normal (if b then x :: r' else r')
  end.

(** [SameValueZero] on numbers, the equality of [includes]. *)
Definition SameValueZero (a b : number) : bool :=
  match a, b with
  | NaN, NaN => true
  | _, _ => num_eqb a b
  end.

Definition includes (l : list number) (x : number) : bool :=
  existsb (SameValueZero x) l.

Definition desiredHours : list number :=
  map num_of_Z [8; 10; 12; 14; 16; 18; 20; 22].

Definition thresholds : object :=
  [("co", JNum (num_of_Z 7000));
   ("no2", JNum (num_of_Z 230));
   ("o3", JNum (num_of_Z 145));
   ("pm10", JNum (num_of_Z 204));
   ("pm25", JNum (num_of_Z 45));
   ("so2", JNum (num_of_Z 131))].

(** [a.map(e => ({ path: e.weather_image, cid: e.cid }))], written in the
    script as a [forEach] that pushes. *)
Definition weather_attachments (l : list Weather.entry)
  (attachments : list Attachment.t) : list Attachment.t :=
  fold_left
    (fun attachments e =>
       (attachments ++
        [{| Attachment.path := Weather.weather_image e;
            Attachment.cid := Weather.cid e |}])%list)
    l attachments.

Definition air_attachments (l : list Air.entry)
  (attachments : list Attachment.t) : list Attachment.t :=
  fold_left
    (fun attachments e =>
       (attachments ++
        [{| Attachment.path := Air.air_image e;
            Attachment.cid := Air.cid e |}])%list)
    l attachments.

Section Jobs.
Context {H : Host}.
Variable env : Env.

Definition getAirQualityData : Job JsVal :=
  let url :=
    queryBuilder "https://api.climacell.co/v3/weather/realtime"
      [("lat", JNum LAT);
       ("lon", JNum LONG);
       ("fields", JArr (map JStr AIR_QUALITY_INDICATOR));
       ("apikey", JStr (cc_key (config env)))] in
  lift (fetch_json env url).

Definition getWeatherData : Job JsVal :=
  let url :=
    queryBuilder "https://api.climacell.co/v3/weather/forecast/hourly"
      [("lat", JNum LAT);
       ("lon", JNum LONG);
       ("unit_system", JStr "si");
       ("fields", JArr (map JStr WEATHER_FIELDS));
       ("apikey", JStr (cc_key (config env)))] in
  lift (fetch_json env url).

Definition sendMail (m : Mail) : Job unit :=
  fun s =>
    (transport env m,
     {| console := console s; outbox := (outbox s ++ [m])%list |}).

Definition sendWeatherForecastEmail (weatherData : list Weather.entry)
  (airQualityData : list Air.entry) (attachments : list Attachment.t)
  : Job unit :=
  let htmlToSend :=
    WeatherForecastTemplate weatherData airQualityData
      (toLocaleDateString (clock env)) in
  sendMail
    {| mail_from := "Weather Forecast " ++ user (config env);
       mail_to := recipient (config env);
       subject := "Weather forecast for today and current air quality";
       html := htmlToSend;
       attachments := attachments |}.

Definition sendAirQualityEmailAlert (airQualityData : list Air.entry)
  (attachments : list Attachment.t) : Job unit :=
  let htmlToSend := AirQualityAlertTemplate airQualityData in
  sendMail
    {| mail_from := "Air Quality Alert " ++ user (config env);
       mail_to := recipient (config env);
       subject := "An air quality limit has been exceeded";
       html := htmlToSend;
       attachments := attachments |}.

(** The predicate of the filter of the forecast job:
    [desiredHours.includes(new Date(e.observation_time.value).getHours())
     && new Date(e.observation_time.value).getDay() == new Date().getDay()]. *)
Definition desired (e : JsVal) : completion bool :=
  let? observation_time := js_get e "observation_time" in
  let? value := js_get observation_time "value" in
  if includes desiredHours (date_field getHours (Date_of value))
  then
    let? observation_time := js_get e "observation_time" in
    let? value := js_get observation_time "value" in
    Normal (num_eqb (date_field getDay (Date_of value))
                    (date_field getDay (Some (clock env))))
  else Normal false.

(** [weatherData.filter(...)]: only an array has [filter]. *)
Definition desiredWeatherData (weatherData : JsVal)
  : completion (list JsVal) :=
  match weatherData with
  | JArr l => filter_c desired l
  | _ => Throw (TypeError "weatherData.filter is not a function")
  end.

Definition weatherForecastJob : Job unit :=
  console_log "Acquiring the weather forecast" ;;;
  airQualityData <- getAirQualityData ;;
  weatherData <- getWeatherData ;;
  desiredWeatherData <- lift (desiredWeatherData weatherData) ;;
  formattedWeatherData <- lift (formatWeatherData desiredWeatherData) ;;
  formattedAirQualityData <- lift (formatAirQualityData airQualityData) ;;
  let attachments := [] in
  let attachments := weather_attachments formattedWeatherData attachments in
  let attachments := air_attachments formattedAirQualityData attachments in
  sendWeatherForecastEmail formattedWeatherData formattedAirQualityData
    attachments ;;;
  console_log "Weather forecast was sent via email".

(** [ToPrimitive] with hint number on the values at hand. *)
Definition ToPrimitive (v : JsVal) : JsVal :=
  match v with
  | JArr _ | JObj _ => JStr (ToString v)
  | _ => v
  end.

(** [x > y]: two strings compare as strings, anything else as numbers,
    and a comparison with [NaN] is false. *)
Definition js_gt (x y : JsVal) : bool :=
  match ToPrimitive x, ToPrimitive y with
  | JStr sx, JStr sy => String.ltb sy sx
  | px, py => num_gtb (ToNumber px) (ToNumber py)
  end.

(** The selection of the alert job against a table of limits:
    [formatted.filter(e => e.current_value > table[e.indicator])]. *)
Definition exceeds (table : object) (e : Air.entry) : bool :=
  js_gt (Air.current_value e) (get_own table (Air.indicator e)).

Definition alertsFor (table : object) (formatted : list Air.entry)
  : list Air.entry :=
  filter (exceeds table) formatted.

(** The alert job, for a table of limits. *)
Definition airQualityAlertJobWith (table : object) : Job unit :=
  console_log "Checking the air quality" ;;;
  airQualityData <- getAirQualityData ;;
  formattedAirQualityData <- lift (formatAirQualityData airQualityData) ;;
  let alertsForTheseIndicators := alertsFor table formattedAirQualityData in
  if (0 <? List.length alertsForTheseIndicators)%nat
  then
    console_log "An air quality limit has been exceeded" ;;;
    let attachments := air_attachments alertsForTheseIndicators [] in
    sendAirQualityEmailAlert alertsForTheseIndicators attachments ;;;
    console_log "Alert was sent"
  else
    console_log "No air quality limit has been exceeded".

Definition airQualityAlertJob : Job unit :=
  airQualityAlertJobWith thresholds.
End Jobs.

(* ------------------------------------------------------------------ *)
(** ** The scheduler *)

(** What the runtime does with a rejection that no one handles, as that
    of an [async] callback of a timer whose job raises: it prints a
    warning and goes on (Node before version 15), or it ends the process
    (Node 15 and later). *)
Inductive Rejections : Type :=
| Warns
| Exits.

(** The surroundings of the process over time: what the service answers
    and what the transport does at each instant, how many milliseconds a
    forecast job and an alert job started at an instant take to settle
    (to complete or to raise), the outcome of [transporter.verify()] at
    startup, and the way of the runtime with unhandled rejections. *)
Record World : Type := {
  world_config : Config;
  answer : Z -> string -> completion JsVal;
  smtp : Z -> Mail -> completion unit;
  forecast_time : Z -> N;
  alert_time : Z -> N;
  smtp_ready : completion unit;
  on_rejection : Rejections
}.

Definition env_at (w : World) (t : Z) : Env :=
  {| config := world_config w;
     fetch_json := answer w t;
     transport := smtp w t;
     clock := t |}.

Definition oneDayInMs : Z := 86400000.

(** The callbacks that [main] hands to timers: the one of [setTimeout],
    which runs the forecast and arms its interval, the one of that
    interval, and the one of the alert interval. *)
Inductive Callback : Type :=
| ForecastFirst
| ForecastAgain
| AlertAgain.

Definition is_forecast (c : Callback) : bool :=
  match c with
  | AlertAgain => false
  | _ => true
  end.

Record Timer : Type := {
  timer_id : nat;
  due : Z;
  repeat : option Z;
  callback : Callback
}.

(** The delay a timer is armed with: one millisecond when the argument
    is [NaN], below 1 or above 2^31 - 1. *)
Definition timer_delay (after : option Z) : Z :=
  match after with
  | Some d => if (1 <=? d) && (d <=? 2147483647) then d else 1
  | None => 1
  end.

(** The event loop, in virtual time: a callback runs at the instant its
    timer is due, and what its job leaves on the trace is recorded at
    that instant.  The waits that matter to the timers are kept: [main]
    and the callback of the first forecast await a job before they set
    an interval, so the interval counts from the instant the job has
    settled; and a job that raises inside a callback is a rejection at
    the instant it has settled.  [ends] is the instant at which the
    process ends, once a rejection has gone unhandled in a runtime that
    exits on it. *)
Record Loop : Type := {
  now : Z;
  next_id : nat;
  timers : list Timer;
  fired : list (Z * Callback);
  trace : Trace;
  ends : option Z
}.

Definition setTimeout (c : Callback) (after : option Z) (s : Loop) : Loop :=
  {| now := now s;
     next_id := S (next_id s);
     timers := timers s ++
               [{| timer_id := next_id s;
                   due := now s + timer_delay after;
                   repeat := None;
                   callback := c |}];
     fired := fired s;
     trace := trace s;
     ends := ends s |}.

(** [setInterval(c, after)], called at the instant [t]. *)
Definition setInterval (c : Callback) (after : Z) (t : Z) (s : Loop) : Loop :=
  {| now := now s;
     next_id := S (next_id s);
     timers := timers s ++
               [{| timer_id := next_id s;
                   due := t + timer_delay (Some after);
                   repeat := Some (timer_delay (Some after));
                   callback := c |}];
     fired := fired s;
     trace := trace s;
     ends := ends s |}.

Definition with_trace (s : Loop) (tr : Trace) : Loop :=
  {| now := now s; next_id := next_id s; timers := timers s;
     fired := fired s; trace := tr; ends := ends s |}.

(** A rejection that no one handles, at the instant [t]: where the
    runtime exits on it the process ends at [t], unless it ends
    before. *)
Definition reject (mode : Rejections) (t : Z) (s : Loop) : Loop :=
  match mode with
  | Warns => s
  | Exits =>
      {| now := now s; next_id := next_id s; timers := timers s;
         fired := fired s; trace := trace s;
         ends := Some (match ends s with
                       | Some x => Z.min x t
                       | None => t
                       end) |}
  end.

(** The process has ended before the instant [t]. *)
Definition ended (s : Loop) (t : Z) : bool :=
  match ends s with
  | Some x => x <? t
  | None => false
  end.

Definition say (line : Line) (s : Loop) : Loop :=
  with_trace s (snd (console_line line (trace s))).

(** The timer that fires next: the earliest due, the oldest among
    equals. *)
Fixpoint earliest (l : list Timer) : option Timer :=
  match l with
  | [] => None
  | x :: r =>
      match earliest r with
      | Some y => if due y <? due x then Some y else Some x
      | None => Some x
      end
  end.

(** An interval is armed again one period after it fired; a timeout is
    dropped. *)
Definition rearm (tm : Timer) (t : Z) (l : list Timer) : list Timer :=
  match repeat tm with
  | Some p =>
      map (fun x =>
             if Nat.eqb (timer_id x) (timer_id tm)
             then {| timer_id := timer_id x; due := t + p;
                     repeat := repeat x; callback := callback x |}
             else x) l
  | None => filter (fun x => negb (Nat.eqb (timer_id x) (timer_id tm))) l
  end.

Section Scheduler.
Context {H : Host}.
Variable w : World.

(** [Date.now() > startDate]; false on [NaN]. *)
Definition passed (t : Z) (startDate : option Z) : bool :=
  match startDate with
  | Some d => d <? t
  | None => false
  end.

(** The instant [main] aims the first forecast at, the startup
    computations reading the clock at [t]. *)
Definition startDate (t : Z) : option Z :=
  let startDate := setHours t 8 0 0 in
  if passed t startDate
  then
    let tommorowDate := getDate t + 1 in
    match setDate t tommorowDate with
    | Some d => setHours d 8 0 0
    | None => None
    end
  else startDate.

Definition timeLeft (t : Z) : option Z :=
  match startDate t with
  | Some d => Some (d - t)
  | None => None
  end.

(** A job run from the loop: on the trace of the loop, in the
    surroundings of the instant. *)
Definition run_job (job : Env -> Job unit) (s : Loop)
  : completion unit * Loop :=
  let '(r, tr) := job (env_at w (now s)) (trace s) in
  (r, with_trace s tr).

(** The body of a callback, an [async] function that awaits its job.
    The job raising, the callback ends there and its promise is
    rejected, which no one handles.  The callback of the first forecast
    goes on when the job has completed: it is then that it prints the
    next date and sets the interval. *)
Definition run_callback (c : Callback) (s : Loop) : Loop :=
  match c with
  | ForecastFirst =>
      match run_job weatherForecastJob s with
      | (Normal _, s) =>
          let settled := now s + Z.of_N (forecast_time w (now s)) in
          let s := say (SayNextForecast (settled + oneDayInMs)) s in
          setInterval ForecastAgain oneDayInMs settled s
      | (Throw _, s) =>
          let settled := now s + Z.of_N (forecast_time w (now s)) in
          reject (on_rejection w) settled s
      end
  | ForecastAgain =>
      match run_job weatherForecastJob s with
      | (Normal _, s) =>
          let settled := now s + Z.of_N (forecast_time w (now s)) in
          say (SayNextForecast (settled + oneDayInMs)) s
      | (Throw _, s) =>
          let settled := now s + Z.of_N (forecast_time w (now s)) in
          reject (on_rejection w) settled s
      end
  | AlertAgain =>
      match run_job airQualityAlertJob s with
      | (Normal _, s) => s
      | (Throw _, s) =>
          let settled := now s + Z.of_N (alert_time w (now s)) in
          reject (on_rejection w) settled s
      end
  end.

(** One turn of the loop: the next timer fires, unless the process has
    ended before the instant it would fire at. *)
Definition step (s : Loop) : Loop :=
  match earliest (timers s) with
  | None => s
  | Some tm =>
      let t := Z.max (now s) (due tm) in
      if ended s t then s
      else
        run_callback (callback tm)
          {| now := t;
             next_id := next_id s;
             timers := rearm tm t (timers s);
             fired := fired s ++ [(t, callback tm)];
             trace := trace s;
             ends := ends s |}
  end.

Fixpoint steps (n : nat) (s : Loop) : Loop :=
  match n with
  | O => s
  | S n' => steps n' (step s)
  end.

(** [main], the transport verified and the clock read at [t]: the state
    in which it leaves the loop.  It awaits the alert job inside its
    [try]: the job completing, it sets the interval of the alert at the
    instant the job has settled; the job raising, its [catch] prints the
    error. *)
Definition main (t : Z) : Loop :=
  let s := {| now := t; next_id := 0%nat; timers := []; fired := [];
              trace := no_trace; ends := None |} in
  match smtp_ready w with
  | Throw err => say (SayError err) s
  | Normal _ =>
      let s := say (Say "Server is ready to take our messages") s in
      let s := say (SayForecastStart (startDate t) (timeLeft t)) s in
      let s := setTimeout ForecastFirst (timeLeft t) s in
      match run_job airQualityAlertJob s with
      | (Normal _, s) =>
          let settled := now s + Z.of_N (alert_time w (now s)) in
          setInterval AlertAgain (2 * 60 * 1000) settled s
      | (Throw err, s) => say (SayError err) s
      end
  end.

(** The instants at which the forecast job was started. *)
Definition forecast_fires (s : Loop) : list Z :=
  map fst (filter (fun f => is_forecast (snd f)) (fired s)).
End Scheduler.

(* ------------------------------------------------------------------ *)
(** ** A host and surroundings for the examples *)

Definition digits_of (s : string) : option Z :=
  match NilEmpty.uint_of_string s with
  | Some u => Some (Z.of_nat (Nat.of_uint u))
  | None => None
  end.

Definition char_at (s : string) (i : nat) : option ascii := String.get i s.

(** The full date-time format in UTC, [YYYY-MM-DDTHH:mm:ss.sssZ]. *)
Definition parse_iso_utc (s : string) : option Z :=
  match
    digits_of (substring 0 4 s), digits_of (substring 5 2 s),
    digits_of (substring 8 2 s), digits_of (substring 11 2 s),
    digits_of (substring 14 2 s), digits_of (substring 17 2 s),
    digits_of (substring 20 3 s)
  with
  | Some y, Some mo, Some d, Some h, Some mi, Some sec, Some ms =>
      let leap := DaysInYear y - 365 in
      let shape :=
        match char_at s 4, char_at s 7, char_at s 10, char_at s 13,
              char_at s 16, char_at s 19, char_at s 23 with
        | Some "-"%char, Some "-"%char, Some "T"%char, Some ":"%char,
          Some ":"%char, Some "."%char, Some "Z"%char => true
        | _, _, _, _, _, _, _ => false
        end in
      if shape && Nat.eqb (String.length s) 24
         && (1 <=? mo) && (mo <=? 12) && (1 <=? d)
         && (d <=? (if mo =? 12 then 31
                    else DaysBeforeMonth mo leap
                         - DaysBeforeMonth (mo - 1) leap))
         && (h <=? 23) && (mi <=? 59) && (sec <=? 59)
      then TimeClip (MakeDate (MakeDay y (mo - 1) d) (MakeTime h mi sec ms))
      else None
  | _, _, _, _, _, _, _ => None
  end.

(** A host in UTC that reads dates in the full format and decimal
    integer numerals. *)
Definition isoHost : Host :=
  {| LocalTZA := fun _ _ => 0;
     Date_parse := parse_iso_utc;
     StringToNumber := fun s =>
       match NilZero.int_of_string s with
       | Some i => num_of_Z (Z.of_int i)
       | None => if String.eqb s "" then num_of_Z 0 else NaN
       end |}.

Definition reading (value : JsVal) (units : string) : JsVal :=
  JObj [("value", value); ("units", JStr units)].

Definition hourly (time code : string) (temp humidity wind : Z) : JsVal :=
  JObj [("observation_time", JObj [("value", JStr time)]);
        ("weather_code", JObj [("value", JStr code)]);
        ("temp", reading (JNum (num_of_Z temp)) "C");
        ("wind_speed", reading (JNum (num_of_Z wind)) "m/s");
        ("humidity", reading (JNum (num_of_Z humidity)) "%")].

Definition air_readings (pm10 pm25 o3 no2 co so2 : Z) : JsVal :=
  JObj [("co", reading (JNum (num_of_Z co)) "ppb");
        ("no2", reading (JNum (num_of_Z no2)) "ppb");
        ("o3", reading (JNum (num_of_Z o3)) "ppb");
        ("pm10", reading (JNum (num_of_Z pm10)) "ug/m3");
        ("pm25", reading (JNum (num_of_Z pm25)) "ug/m3");
        ("so2", reading (JNum (num_of_Z so2)) "ppb")].

Definition sample_config : Config :=
  {| host := "smtp.example.org"; user := "me@example.org"; pass := "secret";
     cc_key := "KEY"; recipient := "you@example.org" |}.

(** Monday 1 June 2020: 07:00:00.000, 08:00:00.500 and 09:30:00.250. *)
Definition june1_0700 : Z := 1590994800000.
Definition june1_0800_500 : Z := 1590998400500.
Definition june1_0930_250 : Z := 1591003800250.

Definition sample_weather : list JsVal :=
  [hourly "2020-06-01T07:00:00.000Z" "clear" 14 70 2;
   hourly "2020-06-01T08:00:00.000Z" "clear" 15 68 2;
   hourly "2020-06-01T09:00:00.000Z" "cloudy" 16 65 3;
   hourly "2020-06-01T10:00:00.000Z" "cloudy" 18 60 3;
   hourly "2020-06-02T08:00:00.000Z" "rain" 13 90 5].

(** A service that answers the two requests of the script, whatever the
    instant, with the given air-quality readings; in [sample_world] a
    forecast job takes three seconds and an alert job two, and the
    runtime exits on an unhandled rejection. *)
Definition sample_answer (air : JsVal) (url : string) : completion JsVal :=
  if String.prefix "https://api.climacell.co/v3/weather/realtime?" url
  then Normal air
  else Normal (JArr sample_weather).

Definition sample_env (air : JsVal) (t : Z) : Env :=
  {| config := sample_config;
     fetch_json := sample_answer air;
     transport := fun _ => Normal tt;
     clock := t |}.

Definition sample_world (air : JsVal) : World :=
  {| world_config := sample_config;
     answer := fun _ => sample_answer air;
     smtp := fun _ _ => Normal tt;
     forecast_time := fun _ => 3000%N;
     alert_time := fun _ => 2000%N;
     smtp_ready := Normal tt;
     on_rejection := Exits |}.

(** The same surroundings, the service being down at the instant
    [down]: a job run at that instant raises. *)
Definition sample_world_down_at (down : Z) (air : JsVal) : World :=
  {| world_config := sample_config;
     answer := fun t url =>
       if t =? down then Throw (FetchError "service unavailable")
       else sample_answer air url;
     smtp := fun _ _ => Normal tt;
     forecast_time := fun _ => 3000%N;
     alert_time := fun _ => 2000%N;
     smtp_ready := Normal tt;
     on_rejection := Exits |}.

(** The same surroundings, the hourly forecast of the service being
    down at the instant [down]: a forecast job run at that instant
    raises, an alert job does not. *)
Definition sample_world_no_forecast_at (down : Z) (air : JsVal) : World :=
  {| world_config := sample_config;
     answer := fun t url =>
       if String.prefix "https://api.climacell.co/v3/weather/realtime?" url
       then Normal air
       else if t =? down then Throw (FetchError "service unavailable")
       else Normal (JArr sample_weather);
     smtp := fun _ _ => Normal tt;
     forecast_time := fun _ => 3000%N;
     alert_time := fun _ => 2000%N;
     smtp_ready := Normal tt;
     on_rejection := Exits |}.

(** The same surroundings on a runtime with another way with unhandled
    rejections. *)
Definition with_rejection (mode : Rejections) (w : World) : World :=
  {| world_config := world_config w;
     answer := answer w;
     smtp := smtp w;
     forecast_time := forecast_time w;
     alert_time := alert_time w;
     smtp_ready := smtp_ready w;
     on_rejection := mode |}.

(** A zone whose clocks go back half an hour at 02:00 of 2 June 2020,
    from UTC to half an hour behind it.  A reading of the local clock
    that comes twice is taken as the first of the two. *)
Definition clock_change : Z := 1591063200000.

Definition backHost : Host :=
  {| LocalTZA := fun t _ => if t <? clock_change then 0 else -1800000;
     Date_parse := parse_iso_utc;
     StringToNumber := StringToNumber (Host := isoHost) |}.

(** Monday 1 June 2020, 08:00:01.000. *)
Definition june1_0800_01 : Z := 1590998401000.

Definition sample_air : JsVal := air_readings 10 5 20 100 8000 3.

(** The records of [sample_weather] for the desired hours of 1 June. *)
Definition sample_desired : list JsVal :=
  [hourly "2020-06-01T08:00:00.000Z" "clear" 15 68 2;
   hourly "2020-06-01T10:00:00.000Z" "cloudy" 18 60 3].

(* ------------------------------------------------------------------ *)
(** ** Vocabulary of the statements *)

(** [base] has the property [name], with a value that can be read
    further. *)
Definition has_field (base : JsVal) (name : string) : Prop :=
  is_nullish (prop base name) = false.

(** An hourly record with the five fields the formatter reads. *)
Definition hourly_record (e : JsVal) : Prop :=
  has_field e "observation_time" /\ has_field e "weather_code" /\
  has_field e "temp" /\ has_field e "humidity" /\ has_field e "wind_speed".

(** [base.name.value]. *)
Definition value_of (base : JsVal) (name : string) : JsVal :=
  prop (prop base name) "value".

(** [base.name.units]. *)
Definition units_of (base : JsVal) (name : string) : JsVal :=
  prop (prop base name) "units".

(** [l.map((e, i) => f(e, i))], the indices counted from [i]. *)
Fixpoint mapi_from {A B : Type} (f : A -> nat -> B) (l : list A) (i : nat)
  : list B :=
  match l with
  | [] => []
  | e :: r => f e i :: mapi_from f r (S i)
  end.

Definition is_Normal {A} (c : completion A) : bool :=
  match c with
  | Normal _ => true
  | Throw _ => false
  end.

Section Entries.
Context {H : Host}.

(** The entry [formatWeatherData] makes of the record [e] at index
    [i]. *)
Definition weather_entry (e : JsVal) (i : nat) : Weather.entry :=
  {| Weather.hour :=
       date_field getHours (Date_of (value_of e "observation_time"));
     Weather.weather_image :=
       "./summary-icons/" ++ ToString (value_of e "weather_code") ++ ".png";
     Weather.cid := "wid" ++ string_of_nat i;
     Weather.temp := value_of e "temp";
     Weather.temp_unit := units_of e "temp";
     Weather.humidity := value_of e "humidity";
     Weather.humidity_unit := units_of e "humidity";
     Weather.wind_speed := value_of e "wind_speed";
     Weather.wind_speed_unit := units_of e "wind_speed" |}.

(** The predicate of the filter of the forecast job, where it does not
    raise. *)
Definition keeps (env : Env) (e : JsVal) : bool :=
  let d := Date_of (value_of e "observation_time") in
  includes desiredHours (date_field getHours d)
  && num_eqb (date_field getDay d) (num_of_Z (getDay (clock env))).
End Entries.

(** The entry [formatAirQualityData] makes of the indicator at index
    [i]. *)
Definition air_entry (airQualityData : JsVal) (indicator : string) (i : nat)
  : Air.entry :=
  {| Air.indicator := indicator;
     Air.current_value := value_of airQualityData indicator;
     Air.air_image := "./legends/" ++ indicator ++ "-legend.png";
     Air.cid := "aid" ++ string_of_nat i |}.

Definition weather_attachment (e : Weather.entry) : Attachment.t :=
  {| Attachment.path := Weather.weather_image e;
     Attachment.cid := Weather.cid e |}.

Definition air_attachment (e : Air.entry) : Attachment.t :=
  {| Attachment.path := Air.air_image e;
     Attachment.cid := Air.cid e |}.

(** The parameters a query is made of: [key=value] for a scalar, one
    [key=element] per scalar element for an array, nothing for any other
    value. *)
Definition param (key : string) (v : JsVal) : string :=
  key ++ "=" ++ ToString v.

Definition params_of (key : string) (v : JsVal) : list string :=
  match v with
  | JNum _ | JStr _ => [param key v]
  | JArr l => map (param key) (filter is_scalar l)
  | _ => []
  end.

Definition params (options : object) : list string :=
  flat_map (fun key => params_of key (get_own options key)) (keys options).

(** The values an option puts in the query: itself when it is a number
    or a string, its number and string elements when it is an array. *)
Definition emitted_values (v : JsVal) : list JsVal :=
  match v with
  | JNum _ | JStr _ => [v]
  | JArr l => filter is_scalar l
  | _ => []
  end.

(** The instants [first], [first + 24h], ... : [n] of them. *)
Definition every_day (first : Z) (n : nat) : list Z :=
  map (fun j => first + Z.of_nat j * oneDayInMs) (seq 0 n).

(** A state of the loop in which the interval of the forecast is armed:
    after the forecasts [before], [k] forecasts fired one day apart from
    [first] on, and the interval is due one day after the last, alone or
    behind the interval of the alert. *)
Definition armed (before : list Z) (first : Z) (k : nat) (s : Loop) : Prop :=
  forecast_fires s = (before ++ every_day first k)%list /\
  ends s = None /\
  exists Ft,
    callback Ft = ForecastAgain /\
    repeat Ft = Some oneDayInMs /\
    due Ft = first + Z.of_nat k * oneDayInMs /\
    now s <= due Ft /\
    (timers s = [Ft] \/
     exists A p,
       timers s = [A; Ft] /\ callback A = AlertAgain /\
       repeat A = Some p /\ 0 < p /\
       timer_id A <> timer_id Ft /\ now s <= due A).

Section FirstForecast.
Context {H : Host}.

(** The offset of local time is [tz] over the instants from [a] to [b],
    read in UTC or on the local clock: no clock change falls in that
    stretch. *)
Definition offset_between (tz a b : Z) : Prop :=
  (forall x, a <= x <= b -> LocalTZA x true = tz) /\
  (forall x, a + tz <= x <= b + tz -> LocalTZA x false = tz).

(** A zone with one offset for all time. *)
Definition fixed_offset : Prop :=
  exists tz, forall x isUTC, LocalTZA x isUTC = tz.

(** 08:00:00 of the local day [day], with the milliseconds the clock
    shows at [t]. *)
Definition eight_on (t day : Z) : Z :=
  UTC (MakeDate day (MakeTime 8 0 0 (msFromTime (LocalTime t)))).

(** The trace when [main] has set the timeout of the first forecast. *)
Definition startup_trace (t : Z) : Trace :=
  {| console := [Say "Server is ready to take our messages";
                 SayForecastStart (startDate t) (timeLeft t)];
     outbox := [] |}.

(** No alert job, no forecast job that raises inside a timer callback
    ends the process: the runtime only warns of an unhandled rejection,
    or the job does not raise. *)
Definition alerts_settle (w : World) : Prop :=
  on_rejection w = Exits ->
  forall s tr, fst (airQualityAlertJob (env_at w s) tr) = Normal tt.

Definition forecasts_settle (w : World) : Prop :=
  on_rejection w = Exits ->
  forall s tr, fst (weatherForecastJob (env_at w s) tr) = Normal tt.

(** [main], started at [t], aims the first forecast at [first].  As
    long as no alert job ends the process, the first forecast starts at
    [first], whatever comes of its run.  When that run completes
    normally, and no later one ends the process, the next forecast
    starts one day after the first run has settled and the later ones
    one day after one another, without end. *)
Definition forecasts_from (w : World) (t first : Z) : Prop :=
  startDate t = Some first /\
  (alerts_settle w ->
   (exists k, forecast_fires (steps w k (main w t)) = [first]) /\
   ((forall tr, fst (weatherForecastJob (env_at w first) tr) = Normal tt) ->
    forecasts_settle w ->
    forall n, exists k,
      forecast_fires (steps w k (main w t))
      = first :: every_day (first + Z.of_N (forecast_time w first)
                            + oneDayInMs) n)).
End FirstForecast.

(** What [append_param] does with a whole parameter. *)
Definition emit (request p : string) : string :=
  match last_char request with
  | Some "?"%char => request ++ p
  | _ => request ++ "&" ++ p
  end.

(** A parameter after which the next one takes its [&]. *)
Definition plain (p : string) : Prop :=
  p <> "" /\ last_char p <> Some "?"%char.

(** The trace [s] with one more line on the console. *)
Definition said (line : Line) (s : Trace) : Trace :=
  {| console := (console s ++ [line])%list; outbox := outbox s |}.

(** The requests of the two fetchers, for an API key. *)
Definition realtime_url (key : string) : string :=
  "https://api.climacell.co/v3/weather/realtime?lat=37.7749&lon=-122.4194&fields=pm10&fields=pm25&fields=o3&fields=no2&fields=co&fields=so2&apikey="
  ++ key.

Definition hourly_url (key : string) : string :=
  "https://api.climacell.co/v3/weather/forecast/hourly?lat=37.7749&lon=-122.4194&unit_system=si&fields=weather_code&fields=temp&fields=wind_speed&fields=humidity&apikey="
  ++ key.

(** The instants of the alerts of the interval armed at [t]: every two
    minutes after [t], [n] of them. *)
Definition every_two_minutes (t : Z) (n : nat) : list Z :=
  map (fun j => t + (Z.of_nat j + 1) * 120000) (seq 0 n).

(** The instants at which the interval of the alert fired. *)
Definition alert_fires (s : Loop) : list Z :=
  map fst (filter (fun f => negb (is_forecast (snd f))) (fired s)).

(** A state of the loop in which the interval of the alert is armed:
    the process goes on, [j] alerts fired, two minutes apart from the
    instant [t] at which the interval was set, and the interval is due
    two minutes after the last; beside it the loop holds the timeout of
    the first forecast, or the interval of the forecast, or nothing. *)
Definition alert_armed (t : Z) (j : nat) (s : Loop) : Prop :=
  alert_fires s = every_two_minutes t j /\
  ends s = None /\
  exists A,
    callback A = AlertAgain /\ repeat A = Some 120000 /\
    due A = t + (Z.of_nat j + 1) * 120000 /\
    now s <= due A /\
    (timer_id A < next_id s)%nat /\
    ((exists T, timers s = [T; A] /\ callback T = ForecastFirst /\
                repeat T = None /\ timer_id T <> timer_id A) \/
     (exists F p, timers s = [A; F] /\ callback F = ForecastAgain /\
                  repeat F = Some p /\ 0 < p /\
                  timer_id A <> timer_id F) \/
     timers s = [A]).

(** A state of the loop of a process whose first forecast raises: the
    timeout of the first forecast is pending, due at [first], and no
    forecast has started; or one forecast has started, at [first], and
    no timer of the forecast is left. *)
Definition forecast_once (first : Z) (s : Loop) : Prop :=
  (forecast_fires s = [] /\ now s <= first /\
   exists T,
     callback T = ForecastFirst /\ repeat T = None /\ due T = first /\
     (timers s = [T] \/
      exists A p, timers s = [T; A] /\ callback A = AlertAgain /\
                  repeat A = Some p /\ timer_id T <> timer_id A)) \/
  (forecast_fires s = [first] /\
   (timers s = [] \/
    exists A p, timers s = [A] /\ callback A = AlertAgain /\
                repeat A = Some p)).

(** A state of the loop of a process bound to end by the instant
    [limit] once its forecast has started: no alert has started after
    [limit], and the forecast having started at [first], the process
    ends at [limit] or before. *)
Definition ends_by (first limit : Z) (s : Loop) : Prop :=
  (forall y, In y (alert_fires s) -> y <= limit) /\
  (forecast_fires s = [first] -> exists x, ends s = Some x /\ x <= limit).

(** A state of the loop that holds no timer of the alert and in which no
    alert has fired. *)
Definition alert_never (s : Loop) : Prop :=
  alert_fires s = [] /\
  (timers s = [] \/
   (exists T, timers s = [T] /\ callback T = ForecastFirst /\
              repeat T = None) \/
   (exists F p, timers s = [F] /\ callback F = ForecastAgain /\
                repeat F = Some p)).

(** The mails of the two jobs. *)
Definition alert_mail (c : Config) (selected : list Air.entry) : Mail :=
  {| mail_from := "Air Quality Alert " ++ user c;
     mail_to := recipient c;
     subject := "An air quality limit has been exceeded";
     html := AirQualityAlertTemplate selected;
     attachments := map air_attachment selected |}.

Definition forecast_mail (c : Config) (weather : list Weather.entry)
  (air : list Air.entry) (day : string) : Mail :=
  {| mail_from := "Weather Forecast " ++ user c;
     mail_to := recipient c;
     subject := "Weather forecast for today and current air quality";
     html := WeatherForecastTemplate weather air day;
     attachments :=
       (map weather_attachment weather ++ map air_attachment air)%list |}.


(* ------------------------------------------------------------------ *)
(** * Properties *)

(** ** Examples *)

Example queryBuilder_spec_example :
  queryBuilder "u" [("a", JNum (num_of_Z 1)); ("b", JArr [JStr "x"; JStr "y"])]
  = "u?a=1&b=x&b=y".
Proof. reflexivity. Qed.

Example queryBuilder_empty : queryBuilder "u" [] = "u?".
Proof. reflexivity. Qed.

Example queryBuilder_skips :
  queryBuilder "u"
    [("a", JNull); ("b", JObj [("x", JNum (num_of_Z 1))]); ("c", JBool true);
     ("d", JArr [JNum (num_of_Z 1); JArr [JNum (num_of_Z 2)]; JNull;
                 JStr "z"])]
  = "u?d=1&d=z".
Proof. reflexivity. Qed.

Example Number_toString_examples :
  Number_toString (Dec 377749 4) = "37.7749" /\
  Number_toString (Dec (-1224194) 4) = "-122.4194" /\
  Number_toString (Dec 1500 3) = "1.5" /\
  Number_toString (Dec (-5) 2) = "-0.05" /\
  Number_toString (Dec 7000 0) = "7000".
Proof. repeat split; vm_compute; reflexivity. Qed.

Example date_examples :
  (* 2020-06-01T08:30:15.250Z, a Monday *)
  let t := 1591000215250 in
  YearFromTime t = 2020 /\ MonthFromTime t = 5 /\ DateFromTime t = 1 /\
  WeekDay t = 1 /\ HourFromTime t = 8 /\ MinFromTime t = 30 /\
  SecFromTime t = 15 /\ msFromTime t = 250 /\
  MakeDate (MakeDay 2020 5 1) (MakeTime 8 30 15 250) = t /\
  (* 2000-02-29 and 1969-12-31 *)
  DateFromTime 951782400000 = 29 /\ MonthFromTime 951782400000 = 1 /\
  YearFromTime (-1) = 1969 /\ MonthFromTime (-1) = 11 /\
  DateFromTime (-1) = 31 /\ WeekDay (-1) = 3.
Proof. vm_compute. repeat split; reflexivity. Qed.

Example parse_iso_utc_examples :
  parse_iso_utc "2020-06-01T07:00:00.000Z" = Some june1_0700 /\
  parse_iso_utc "2020-06-01T08:00:00.500Z" = Some june1_0800_500 /\
  parse_iso_utc "1970-01-01T00:00:00.000Z" = Some 0 /\
  parse_iso_utc "2020-02-30T00:00:00.000Z" = None /\
  parse_iso_utc "soon" = None.
Proof. vm_compute. repeat split; reflexivity. Qed.

Example getAirQualityData_url :
  exists url,
    getAirQualityData
      {| config := sample_config;
         fetch_json := fun url => Normal (JStr url);
         transport := fun _ => Normal tt;
         clock := 0 |} no_trace
    = (Normal (JStr url), no_trace) /\
    url = "https://api.climacell.co/v3/weather/realtime?lat=37.7749&lon=-122.4194&fields=pm10&fields=pm25&fields=o3&fields=no2&fields=co&fields=so2&apikey=KEY".
Proof. eexists. split; vm_compute; reflexivity. Qed.

(** ** Lists built by pushing *)

Lemma length_mapi_from {A B} (f : A -> nat -> B) l i :
  List.length (mapi_from f l i) = List.length l.
Proof.
  revert i. induction l as [|e r IH]; intros i; simpl; [reflexivity|].
  now rewrite IH.
Qed.

Lemma nth_error_mapi_from {A B} (f : A -> nat -> B) l i n :
  nth_error (mapi_from f l i) n =
  option_map (fun e => f e (i + n)%nat) (nth_error l n).
Proof.
  revert i n. induction l as [|e r IH]; intros i [|n]; simpl; try reflexivity.
  - now rewrite Nat.add_0_r.
  - rewrite IH. now replace (S i + n)%nat with (i + S n)%nat by lia.
Qed.

Lemma mapi_from_ext {A B} (f g : A -> nat -> B) l i :
  (forall e n, In e l -> f e n = g e n) ->
  mapi_from f l i = mapi_from g l i.
Proof.
  revert i. induction l as [|e r IH]; intros i Hfg; simpl; [reflexivity|].
  rewrite Hfg by (left; reflexivity).
  f_equal. apply IH. intros; apply Hfg; now right.
Qed.

(** A [forEach] whose callback pushes one entry per element builds the
    indexed map of the list behind what was there. *)
Lemma forEach_from_push {A B} (f : A -> nat -> list B -> completion (list B))
  (g : A -> nat -> B) l :
  (forall e i acc, In e l -> f e i acc = Normal (acc ++ [g e i])%list) ->
  forall i acc,
    forEach_from f l i acc = Normal (acc ++ mapi_from g l i)%list.
Proof.
  induction l as [|e r IH]; intros Hf i acc; simpl.
  - now rewrite app_nil_r.
  - rewrite Hf by (left; reflexivity). simpl.
    rewrite IH by (intros; apply Hf; now right).
    now rewrite <- app_assoc.
Qed.

(** A [forEach] stops at the first element on which the callback
    raises. *)
Lemma forEach_from_throw {A St} (f : A -> nat -> St -> completion St)
  l1 e l2 (g : A -> nat -> St -> St) err :
  (forall x i s, In x l1 -> f x i s = Normal (g x i s)) ->
  (forall i s, f e i s = Throw err) ->
  forall i s, forEach_from f (l1 ++ e :: l2) i s = Throw err.
Proof.
  induction l1 as [|x r IH]; intros Hok Hbad i s; simpl.
  - now rewrite Hbad.
  - rewrite Hok by (left; reflexivity). simpl.
    apply IH; [intros; apply Hok; now right | exact Hbad].
Qed.

Lemma fold_left_push {A B} (g : A -> B) l acc :
  fold_left (fun acc e => (acc ++ [g e])%list) l acc = (acc ++ map g l)%list.
Proof.
  revert acc. induction l as [|e r IH]; intros acc; simpl.
  - now rewrite app_nil_r.
  - rewrite IH. now rewrite <- app_assoc.
Qed.

(** ** Reading properties *)

Lemma has_field_object base name :
  has_field base name -> is_nullish base = false.
Proof. unfold has_field. destruct base; simpl; congruence. Qed.

Lemma js_get_field base name :
  has_field base name -> js_get base name = Normal (prop base name).
Proof.
  intros Hf. unfold js_get. now rewrite (has_field_object _ _ Hf).
Qed.

Lemma js_get_of_field base name name' :
  has_field base name ->
  js_get (prop base name) name' = Normal (prop (prop base name) name').
Proof. intros Hf. unfold js_get. now rewrite Hf. Qed.

Lemma js_get_nullish base name :
  is_nullish base = true -> is_Normal (js_get base name) = false.
Proof. intros Hn. unfold js_get. now rewrite Hn. Qed.

Lemma get_own_Permutation (o o' : object) key :
  NoDup (keys o) -> Permutation o o' ->
  get_own o key = get_own o' key.
Proof.
  intros Hnd Hp. induction Hp as [| [k v] l l' Hp IH | [k1 v1] [k2 v2] l
                                 | l l' l'' Hp1 IH1 Hp2 IH2].
  - reflexivity.
  - simpl. inversion Hnd; subst. now rewrite IH.
  - simpl. inversion Hnd as [|? ? Hnotin _]; subst.
    destruct (String.eqb k2 key) eqn:E2, (String.eqb k1 key) eqn:E1;
      try reflexivity.
    apply String.eqb_eq in E1, E2. subst. exfalso. apply Hnotin. now left.
  - rewrite IH1 by assumption. apply IH2.
    unfold keys in *.
    eapply Permutation_NoDup;
      [apply Permutation_map; exact Hp1 | exact Hnd].
Qed.

(** ** The formatters *)

Section FormatterProperties.
Context {H : Host}.

Lemma formatWeatherData_each_ok e i acc :
  hourly_record e ->
  formatWeatherData_each e i acc = Normal (acc ++ [weather_entry e i])%list.
Proof.
  intros (Ho & Hc & Ht & Hh & Hw). unfold formatWeatherData_each.
  rewrite (js_get_field _ _ Ho), (js_get_field _ _ Hc),
    (js_get_field _ _ Ht), (js_get_field _ _ Hh), (js_get_field _ _ Hw).
  simpl.
  rewrite !(js_get_of_field _ _ _ Ho), !(js_get_of_field _ _ _ Hc). simpl.
  rewrite !(js_get_of_field _ _ _ Ht), !(js_get_of_field _ _ _ Hh). simpl.
  rewrite !(js_get_of_field _ _ _ Hw). simpl.
  reflexivity.
Qed.

Lemma formatWeatherData_mapi data :
  Forall hourly_record data ->
  formatWeatherData data = Normal (mapi_from weather_entry data 0).
Proof.
  intros Hall. unfold formatWeatherData, forEach.
  rewrite (forEach_from_push _ weather_entry); [reflexivity|].
  intros e i acc Hin. apply formatWeatherData_each_ok.
  rewrite Forall_forall in Hall. now apply Hall.
Qed.
End FormatterProperties.

Lemma formatAirQualityData_each_ok data k i acc :
  has_field data k ->
  formatAirQualityData_each data k i acc
  = Normal (acc ++ [air_entry data k i])%list.
Proof.
  intros Hk. unfold formatAirQualityData_each.
  rewrite (js_get_field _ _ Hk). simpl.
  rewrite (js_get_of_field _ _ _ Hk). reflexivity.
Qed.

Lemma formatAirQualityData_mapi data :
  (forall k, In k AIR_QUALITY_INDICATOR -> has_field data k) ->
  formatAirQualityData data
  = Normal (mapi_from (air_entry data) AIR_QUALITY_INDICATOR 0).
Proof.
  intros Hall. unfold formatAirQualityData, forEach.
  rewrite (forEach_from_push _ (air_entry data)); [reflexivity|].
  intros k i acc Hin. apply formatAirQualityData_each_ok. now apply Hall.
Qed.

(** The formatter succeeds exactly when no indicator reads as
    [undefined] or [null] in the input. *)
Lemma formatAirQualityData_Normal_iff data :
  is_Normal (formatAirQualityData data) = true <->
  (forall k, In k AIR_QUALITY_INDICATOR -> has_field data k).
Proof.
  split.
  - intros Hn k Hin. unfold has_field.
    unfold formatAirQualityData, forEach, AIR_QUALITY_INDICATOR in Hn.
    unfold AIR_QUALITY_INDICATOR in Hin.
    cbn [forEach_from] in Hn.
    unfold formatAirQualityData_each, js_get in Hn.
    destruct (is_nullish data) eqn:Ed; [discriminate Hn|].
    cbn [cbind] in Hn.
    repeat match type of Hn with
    | context [is_nullish (prop data ?key)] =>
        destruct (is_nullish (prop data key)) eqn:?;
        [discriminate Hn | cbn [cbind] in Hn]
    end.
    simpl in Hin.
    repeat (destruct Hin as [<- | Hin]; [assumption|]).
    contradiction.
  - intros Hall. now rewrite formatAirQualityData_mapi.
Qed.

(** A reading that is [undefined] or [null] makes the formatter raise a
    [TypeError]. *)
Lemma formatAirQualityData_throws data k :
  In k AIR_QUALITY_INDICATOR -> is_nullish (prop data k) = true ->
  exists msg, formatAirQualityData data = Throw (TypeError msg).
Proof.
  intros Hin Hk.
  unfold formatAirQualityData, forEach, AIR_QUALITY_INDICATOR.
  cbn [forEach_from].
  unfold formatAirQualityData_each, js_get.
  destruct (is_nullish data) eqn:Ed; [eexists; reflexivity|].
  cbn [cbind].
  repeat match goal with
  | |- context [is_nullish (prop data ?key)] =>
      destruct (is_nullish (prop data key)) eqn:?;
      [eexists; reflexivity | cbn [cbind]]
  end.
  exfalso. unfold AIR_QUALITY_INDICATOR in Hin. simpl in Hin.
  repeat (destruct Hin as [<- | Hin]; [congruence|]).
  contradiction.
Qed.

(** C7.  On a list of hourly records, each with the fields
    [observation_time], [weather_code], [temp], [humidity] and
    [wind_speed], [formatWeatherData] returns a list of the same length
    and in the same order: its entry at index [i] has the correlation
    id [wid<i>], the hour of day of the observation time of the record
    at [i], the icon path built from its weather code, and its
    temperature, humidity and wind speed copied with their units. *)
Theorem formatWeatherData_correct {H : Host} (data : list JsVal) :
  Forall hourly_record data ->
  exists out,
    formatWeatherData data = Normal out /\
    List.length out = List.length data /\
    forall i e,
      nth_error data i = Some e ->
      exists o,
        nth_error out i = Some o /\
        Weather.cid o = "wid" ++ string_of_nat i /\
        Weather.hour o
        = date_field getHours (Date_of (value_of e "observation_time")) /\
        Weather.weather_image o
        = "./summary-icons/" ++ ToString (value_of e "weather_code")
          ++ ".png" /\
        Weather.temp o = value_of e "temp" /\
        Weather.temp_unit o = units_of e "temp" /\
        Weather.humidity o = value_of e "humidity" /\
        Weather.humidity_unit o = units_of e "humidity" /\
        Weather.wind_speed o = value_of e "wind_speed" /\
        Weather.wind_speed_unit o = units_of e "wind_speed".
Proof.
  intros Hall. exists (mapi_from weather_entry data 0).
  split; [now apply formatWeatherData_mapi|].
  split; [apply length_mapi_from|].
  intros i e Hi. exists (weather_entry e i).
  rewrite nth_error_mapi_from, Hi. simpl.
  repeat split; reflexivity.
Qed.

Lemma sample_weather_records : Forall hourly_record sample_weather.
Proof.
  repeat constructor; unfold has_field; reflexivity.
Qed.

Lemma formatWeatherData_correct_witness :
  Forall hourly_record sample_weather /\
  exists out,
    formatWeatherData (H := isoHost) sample_weather = Normal out /\
    List.length out = 5%nat.
Proof.
  split; [exact sample_weather_records|].
  destruct (formatWeatherData_correct (H := isoHost) sample_weather
              sample_weather_records) as (out & E & L & _).
  exists out. split; [exact E | exact L].
Defined.

Example formatWeatherData_sample :
  formatWeatherData (H := isoHost)
    [hourly "2020-06-01T08:00:00.000Z" "clear" 15 68 2;
     hourly "2020-06-01T10:00:00.000Z" "cloudy" 18 60 3]
  = Normal
      [{| Weather.hour := num_of_Z 8;
          Weather.weather_image := "./summary-icons/clear.png";
          Weather.cid := "wid0";
          Weather.temp := JNum (num_of_Z 15);
          Weather.temp_unit := JStr "C";
          Weather.humidity := JNum (num_of_Z 68);
          Weather.humidity_unit := JStr "%";
          Weather.wind_speed := JNum (num_of_Z 2);
          Weather.wind_speed_unit := JStr "m/s" |};
       {| Weather.hour := num_of_Z 10;
          Weather.weather_image := "./summary-icons/cloudy.png";
          Weather.cid := "wid1";
          Weather.temp := JNum (num_of_Z 18);
          Weather.temp_unit := JStr "C";
          Weather.humidity := JNum (num_of_Z 60);
          Weather.humidity_unit := JStr "%";
          Weather.wind_speed := JNum (num_of_Z 3);
          Weather.wind_speed_unit := JStr "m/s" |}].
Proof. vm_compute. reflexivity. Qed.

(** C4.  On an input object that has a reading for each of the six
    indicators, [formatAirQualityData] returns a list as long as the
    indicator set (6), in the order of the indicator set (pm10, pm25, o3,
    no2, co, so2) whatever the order of the keys of the input: its entry
    at index [i] has the [i]-th indicator, the value read from the input
    at that indicator, the path [./legends/<indicator>-legend.png] and
    the correlation id [aid<i>]. *)
Theorem formatAirQualityData_correct (data : JsVal) :
  (forall k, In k AIR_QUALITY_INDICATOR -> has_field data k) ->
  exists out,
    formatAirQualityData data = Normal out /\
    List.length out = List.length AIR_QUALITY_INDICATOR /\
    List.length out = 6%nat /\
    map Air.indicator out = ["pm10"; "pm25"; "o3"; "no2"; "co"; "so2"] /\
    (forall i k,
        nth_error AIR_QUALITY_INDICATOR i = Some k ->
        nth_error out i
        = Some {| Air.indicator := k;
                  Air.current_value := value_of data k;
                  Air.air_image := "./legends/" ++ k ++ "-legend.png";
                  Air.cid := "aid" ++ string_of_nat i |}) /\
    (forall o o',
        data = JObj o -> NoDup (keys o) -> Permutation o o' ->
        formatAirQualityData (JObj o') = Normal out).
Proof.
  intros Hall. exists (mapi_from (air_entry data) AIR_QUALITY_INDICATOR 0).
  split; [now apply formatAirQualityData_mapi|].
  split; [apply length_mapi_from|].
  split; [reflexivity|].
  split; [reflexivity|].
  split.
  - intros i k Hi. rewrite nth_error_mapi_from, Hi. reflexivity.
  - intros o o' -> Hnd Hp.
    assert (Hget : forall k, get_own o' k = get_own o k)
      by (intros k; symmetry; now apply get_own_Permutation).
    rewrite formatAirQualityData_mapi.
    + f_equal. apply mapi_from_ext. intros k n _.
      unfold air_entry, value_of. simpl. now rewrite Hget.
    + intros k Hk. specialize (Hall k Hk). unfold has_field in *.
      simpl in *. now rewrite Hget.
Qed.

Lemma sample_air_fields :
  forall k, In k AIR_QUALITY_INDICATOR ->
            has_field (air_readings 10 5 20 100 8000 3) k.
Proof.
  intros k Hk. unfold AIR_QUALITY_INDICATOR in Hk. simpl in Hk.
  repeat (destruct Hk as [<- | Hk]; [reflexivity|]). contradiction.
Qed.

Lemma formatAirQualityData_correct_witness :
  (forall k, In k AIR_QUALITY_INDICATOR ->
             has_field (air_readings 10 5 20 100 8000 3) k) /\
  exists out,
    formatAirQualityData (air_readings 10 5 20 100 8000 3) = Normal out /\
    map Air.indicator out = ["pm10"; "pm25"; "o3"; "no2"; "co"; "so2"].
Proof.
  split; [exact sample_air_fields|].
  destruct (formatAirQualityData_correct _ sample_air_fields)
    as (out & E & _ & _ & O & _).
  exists out. split; [exact E | exact O].
Defined.

(** C9, as the code has it.  [formatAirQualityData] is partial: it
    returns exactly when every indicator of the fixed set (pm10, pm25,
    o3, no2, co, so2) reads in the input as a value other than
    [undefined] and [null]; when one of the six is absent or [null] it
    raises a [TypeError] on reading that indicator's value: it neither
    skips the indicator nor emits a placeholder. *)
Theorem formatAirQualityData_partial (data : JsVal) :
  ((exists out, formatAirQualityData data = Normal out) <->
   (forall k, In k AIR_QUALITY_INDICATOR ->
              is_nullish (prop data k) = false)) /\
  (forall k, In k AIR_QUALITY_INDICATOR ->
             is_nullish (prop data k) = true ->
             exists msg, formatAirQualityData data = Throw (TypeError msg)).
Proof.
  split; [|intros k; apply formatAirQualityData_throws].
  rewrite <- (formatAirQualityData_Normal_iff data). split.
  - intros (out & ->). reflexivity.
  - destruct (formatAirQualityData data) as [out|]; [|discriminate].
    intros _. now exists out.
Qed.

(** C9 as stated fails on an input whose indicators map to values that
    are not objects: on plain numbers the formatter returns, each
    [current_value] being [undefined]. *)
Lemma formatAirQualityData_plain_numbers :
  let five := JNum (num_of_Z 5) in
  let data :=
    JObj [("pm10", five); ("pm25", five); ("o3", five);
          ("no2", five); ("co", five); ("so2", five)] in
  formatAirQualityData data
  = Normal (mapi_from
              (fun k i =>
                 {| Air.indicator := k;
                    Air.current_value := JUndefined;
                    Air.air_image := "./legends/" ++ k ++ "-legend.png";
                    Air.cid := "aid" ++ string_of_nat i |})
              AIR_QUALITY_INDICATOR 0) /\
  is_object (prop data "pm10") = false /\
  ~ ((exists out, formatAirQualityData data = Normal out) <->
     (forall k, In k AIR_QUALITY_INDICATOR ->
                is_object (prop data k) = true)).
Proof.
  intros five data.
  split; [reflexivity|]. split; [reflexivity|].
  intros [Hsucc _].
  assert (Hobj : is_object (prop data "pm10") = true).
  { apply Hsucc; [eexists; reflexivity | now left]. }
  discriminate Hobj.
Qed.

(** ** Correlation ids *)






Lemma filter_none {A} (p : A -> bool) l :
  (forall e, In e l -> p e = false) -> filter p l = [].
Proof.
  induction l as [|e r IH]; intros Hp; simpl; [reflexivity|].
  rewrite Hp by (left; reflexivity). apply IH. intros; apply Hp; now right.
Qed.

Lemma map_mapi_from {A B C} (c : B -> C) (f : A -> nat -> B) l i :
  map c (mapi_from f l i) = mapi_from (fun e n => c (f e n)) l i.
Proof.
  revert i. induction l as [|e r IH]; intros i; simpl; [reflexivity|].
  now rewrite IH.
Qed.

Lemma mapi_from_index {A B} (g : nat -> B) (l : list A) i :
  mapi_from (fun _ n => g n) l i = map g (seq i (List.length l)).
Proof.
  revert i. induction l as [|e r IH]; intros i; simpl; [reflexivity|].
  now rewrite IH.
Qed.


Section CidProperties.
Context {H : Host}.


End CidProperties.

Lemma formatAirQualityData_Normal data fa :
  formatAirQualityData data = Normal fa ->
  fa = mapi_from (air_entry data) AIR_QUALITY_INDICATOR 0.
Proof.
  intros E.
  assert (Hn : is_Normal (formatAirQualityData data) = true)
    by now rewrite E.
  pose proof (proj1 (formatAirQualityData_Normal_iff data) Hn) as Hall.
  rewrite (formatAirQualityData_mapi _ Hall) in E. now injection E as <-.
Qed.


(** ** The comparison of the alert job *)

Lemma num_gtb_NaN_r a : num_gtb a NaN = false.
Proof. now destruct a. Qed.

Lemma num_gtb_of_Z a b : num_gtb (num_of_Z a) (num_of_Z b) = (b <? a).
Proof. unfold num_gtb, num_of_Z. simpl. now rewrite !Z.mul_1_r. Qed.

Section ComparisonProperties.
Context {H : Host}.

(** Nothing is greater than [undefined]. *)
Lemma js_gt_undefined x : js_gt x JUndefined = false.
Proof.
  unfold js_gt. simpl.
  destruct (ToPrimitive x); simpl; try apply num_gtb_NaN_r; reflexivity.
Qed.

(** On two numbers [>] is the order of the numbers. *)
Lemma js_gt_numbers a b : js_gt (JNum a) (JNum b) = num_gtb a b.
Proof. reflexivity. Qed.

Lemma get_own_absent (o : object) key :
  ~ In key (keys o) -> get_own o key = JUndefined.
Proof.
  induction o as [|[k v] r IH]; simpl; intros Hn; [reflexivity|].
  destruct (String.eqb k key) eqn:E.
  - apply String.eqb_eq in E. exfalso. apply Hn. now left.
  - apply IH. intros Hin. apply Hn. now right.
Qed.
End ComparisonProperties.

(** ** The runs of the jobs *)

Section JobProperties.
Context {H : Host}.
Variable env : Env.

Lemma getAirQualityData_run s :
  getAirQualityData env s = (fst (getAirQualityData env no_trace), s).
Proof. reflexivity. Qed.

Lemma getWeatherData_run s :
  getWeatherData env s = (fst (getWeatherData env no_trace), s).
Proof. reflexivity. Qed.

Lemma weather_attachments_map fw acc :
  weather_attachments fw acc = (acc ++ map weather_attachment fw)%list.
Proof. apply (fold_left_push weather_attachment). Qed.

Lemma air_attachments_map fa acc :
  air_attachments fa acc = (acc ++ map air_attachment fa)%list.
Proof. apply (fold_left_push air_attachment). Qed.

(** A run of the forecast job that gets its data and formats it hands
    one mail to the transport and ends as the transport does. *)
Lemma weatherForecastJob_run s aq wd d fw fa :
  fst (getAirQualityData env no_trace) = Normal aq ->
  fst (getWeatherData env no_trace) = Normal wd ->
  desiredWeatherData env wd = Normal d ->
  formatWeatherData d = Normal fw ->
  formatAirQualityData aq = Normal fa ->
  let mail :=
    forecast_mail (config env) fw fa (toLocaleDateString (clock env)) in
  fst (weatherForecastJob env s) = transport env mail /\
  outbox (snd (weatherForecastJob env s)) = (outbox s ++ [mail])%list.
Proof.
  intros Haq Hwd Hd Hfw Hfa mail.
  unfold weatherForecastJob, bind.
  cbn [console_log console_line].
  rewrite getAirQualityData_run, Haq, getWeatherData_run, Hwd.
  unfold lift. rewrite Hd, Hfw, Hfa.
  unfold sendWeatherForecastEmail, sendMail.
  rewrite weather_attachments_map, air_attachments_map.
  match goal with
  | |- context [transport env ?m] => change m with mail
  end.
  destruct (transport env mail) as [[]|err]; simpl; split; reflexivity.
Qed.

(** A run of the alert job that gets its data and formats it: with
    nothing selected it only writes to the console; otherwise it hands
    one mail, of the selection, to the transport. *)
Lemma airQualityAlertJobWith_run table s aq fa :
  fst (getAirQualityData env no_trace) = Normal aq ->
  formatAirQualityData aq = Normal fa ->
  let selected := alertsFor table fa in
  let mail := alert_mail (config env) selected in
  (selected = [] ->
   airQualityAlertJobWith env table s
   = (Normal tt,
      {| console :=
           (console s ++
            [Say "Checking the air quality";
             Say "No air quality limit has been exceeded"])%list;
         outbox := outbox s |})) /\
  (selected <> [] ->
   fst (airQualityAlertJobWith env table s) = transport env mail /\
   outbox (snd (airQualityAlertJobWith env table s))
   = (outbox s ++ [mail])%list).
Proof.
  intros Haq Hfa selected mail.
  unfold airQualityAlertJobWith, bind.
  cbn [console_log console_line].
  rewrite getAirQualityData_run, Haq.
  unfold lift. rewrite Hfa. fold selected.
  split; intros Hsel.
  - rewrite Hsel. simpl. unfold console_log, console_line. simpl.
    now rewrite <- app_assoc.
  - destruct selected as [|e r] eqn:Es; [contradiction|].
    cbn [List.length Nat.ltb Nat.leb].
    unfold sendAirQualityEmailAlert, sendMail.
    rewrite air_attachments_map.
    match goal with
    | |- context [transport env ?m] => change m with mail
    end.
    destruct (transport env mail) as [[]|err]; simpl; split; reflexivity.
Qed.
End JobProperties.

(** ** The forecast job *)

(** C6.  The attachment list of the forecast job is the list of the
    weather attachments [{path: weather_image, cid}], in the order of the
    formatted weather list, followed by the list of the air-quality
    attachments [{path: air_image, cid}], in the order of the formatted
    air-quality list; it is the attachment list of the mail the job
    sends. *)
Theorem weatherForecastJob_attachments {H : Host}
  (fw : list Weather.entry) (fa : list Air.entry) :
  let expected :=
    (map (fun e => {| Attachment.path := Weather.weather_image e;
                      Attachment.cid := Weather.cid e |}) fw ++
     map (fun e => {| Attachment.path := Air.air_image e;
                      Attachment.cid := Air.cid e |}) fa)%list in
  air_attachments fa (weather_attachments fw []) = expected /\
  forall (env : Env) (s : Trace) (aq wd : JsVal) (d : list JsVal),
    fst (getAirQualityData env no_trace) = Normal aq ->
    fst (getWeatherData env no_trace) = Normal wd ->
    desiredWeatherData env wd = Normal d ->
    formatWeatherData d = Normal fw ->
    formatAirQualityData aq = Normal fa ->
    exists mail,
      outbox (snd (weatherForecastJob env s)) = (outbox s ++ [mail])%list /\
      html mail
      = WeatherForecastTemplate fw fa (toLocaleDateString (clock env)) /\
      attachments mail = expected.
Proof.
  intros expected. split.
  - now rewrite air_attachments_map, weather_attachments_map.
  - intros env s aq wd d Haq Hwd Hd Hfw Hfa.
    destruct (weatherForecastJob_run env s _ _ _ _ _ Haq Hwd Hd Hfw Hfa)
      as [_ Hout].
    eexists. split; [exact Hout|]. split; reflexivity.
Qed.

Lemma weatherForecastJob_attachments_witness :
  exists mail,
    outbox (snd (weatherForecastJob (H := isoHost)
                   (sample_env (air_readings 10 5 20 100 8000 3) june1_0700)
                   no_trace))
    = [mail] /\
    map Attachment.cid (attachments mail)
    = ["wid0"; "wid1"; "aid0"; "aid1"; "aid2"; "aid3"; "aid4"; "aid5"].
Proof.
  destruct (proj2 (weatherForecastJob_attachments (H := isoHost)
                     (mapi_from (weather_entry (H := isoHost))
                        sample_desired 0)
                     (mapi_from (air_entry sample_air)
                        AIR_QUALITY_INDICATOR 0))
              (sample_env (air_readings 10 5 20 100 8000 3) june1_0700)
              no_trace sample_air (JArr sample_weather) sample_desired)
    as (mail & Hout & _ & Hatt);
    [vm_compute; reflexivity | vm_compute; reflexivity
     | vm_compute; reflexivity | vm_compute; reflexivity
     | vm_compute; reflexivity |].
  exists mail. split; [exact Hout|].
  rewrite Hatt. vm_compute. reflexivity.
Defined.

(** ** The alert job *)

(** C2.  In the alert job the selected entries are the formatted
    entries whose [current_value] is strictly greater than the entry of
    the threshold table for their indicator, in the order of the
    formatted list, and a mail is sent if and only if the selection is
    not empty: with an empty selection the job completes normally and
    sends nothing.  For the values co 8000 and no2 100 against the
    thresholds co 7000 and no2 230, only co is selected. *)
Theorem airQualityAlertJob_selection {H : Host} (env : Env) (s : Trace)
  (aq : JsVal) (fa : list Air.entry) :
  fst (getAirQualityData env no_trace) = Normal aq ->
  formatAirQualityData aq = Normal fa ->
  let over e :=
    js_gt (Air.current_value e) (get_own thresholds (Air.indicator e)) in
  let selected := filter over fa in
  (forall e, In e selected <-> In e fa /\ over e = true) /\
  (forall e x y,
      Air.current_value e = JNum x ->
      get_own thresholds (Air.indicator e) = JNum y ->
      over e = num_gtb x y) /\
  (forall e a b,
      Air.current_value e = JNum (num_of_Z a) ->
      get_own thresholds (Air.indicator e) = JNum (num_of_Z b) ->
      (over e = true <-> b < a)) /\
  (selected <> [] ->
   fst (airQualityAlertJob env s)
   = transport env (alert_mail (config env) selected) /\
   outbox (snd (airQualityAlertJob env s))
   = (outbox s ++ [alert_mail (config env) selected])%list) /\
  (selected = [] ->
   fst (airQualityAlertJob env s) = Normal tt /\
   outbox (snd (airQualityAlertJob env s)) = outbox s) /\
  ((forall e, In e fa -> over e = false) -> selected = []) /\
  (let co := {| Air.indicator := "co";
                Air.current_value := JNum (num_of_Z 8000);
                Air.air_image := "./legends/co-legend.png";
                Air.cid := "aid4" |} in
   let no2 := {| Air.indicator := "no2";
                 Air.current_value := JNum (num_of_Z 100);
                 Air.air_image := "./legends/no2-legend.png";
                 Air.cid := "aid3" |} in
   alertsFor [("co", JNum (num_of_Z 7000)); ("no2", JNum (num_of_Z 230))]
     [no2; co]
   = [co]).
Proof.
  intros Haq Hfa over selected.
  destruct (airQualityAlertJobWith_run env thresholds s aq fa Haq Hfa)
    as [Hnone Hsome].
  split; [intros e; apply filter_In|].
  split.
  { intros e x y Hv Ht. unfold over. now rewrite Hv, Ht. }
  split.
  { intros e a b Hv Ht. unfold over. rewrite Hv, Ht, js_gt_numbers.
    rewrite num_gtb_of_Z. apply Z.ltb_lt. }
  split; [exact Hsome|].
  split.
  { intros Hsel. unfold airQualityAlertJob. rewrite (Hnone Hsel).
    split; reflexivity. }
  split; [|reflexivity].
  intros Hall. subst selected. now apply filter_none.
Qed.

Lemma airQualityAlertJob_selection_witness :
  let env := sample_env (air_readings 10 5 20 100 8000 3) june1_0700 in
  let co := {| Air.indicator := "co";
               Air.current_value := JNum (num_of_Z 8000);
               Air.air_image := "./legends/co-legend.png";
               Air.cid := "aid4" |} in
  outbox (snd (airQualityAlertJob (H := isoHost) env no_trace))
  = [alert_mail sample_config [co]].
Proof.
  intros env co.
  destruct (airQualityAlertJob_selection (H := isoHost) env no_trace
              sample_air
              (mapi_from (air_entry sample_air) AIR_QUALITY_INDICATOR 0))
    as (_ & _ & _ & Hsome & _);
    [vm_compute; reflexivity | vm_compute; reflexivity |].
  apply Hsome. vm_compute. discriminate.
Defined.

Example airQualityAlertJob_at_thresholds :
  airQualityAlertJob (H := isoHost)
    (sample_env (air_readings 204 45 145 230 7000 131) june1_0700) no_trace
  = (Normal tt,
     {| console := [Say "Checking the air quality";
                    Say "No air quality limit has been exceeded"];
        outbox := [] |}).
Proof. vm_compute. reflexivity. Qed.

(** C8.  In the selection of the alert job, made against any table of
    thresholds, a formatted entry whose indicator has no entry in the
    table is compared with [undefined]: the comparison
    [current_value > threshold] is false, so the entry is never selected
    and is in no alert mail, and the job does not fail for it: it ends
    as the transport does. *)
Theorem threshold_gap_no_alert {H : Host} (env : Env) (table : object)
  (s : Trace) (aq : JsVal) (fa : list Air.entry) (e : Air.entry) :
  fst (getAirQualityData env no_trace) = Normal aq ->
  formatAirQualityData aq = Normal fa ->
  In e fa ->
  ~ In (Air.indicator e) (keys table) ->
  get_own table (Air.indicator e) = JUndefined /\
  js_gt (Air.current_value e) (get_own table (Air.indicator e)) = false /\
  ~ In e (filter
            (fun e => js_gt (Air.current_value e)
                        (get_own table (Air.indicator e))) fa) /\
  (exists sent,
      outbox (snd (airQualityAlertJobWith env table s))
      = (outbox s ++ sent)%list /\
      forall m l, In m sent -> html m = AirQualityAlertTemplate l ->
                  ~ In e l) /\
  ((forall m, transport env m = Normal tt) ->
   fst (airQualityAlertJobWith env table s) = Normal tt).
Proof.
  intros Haq Hfa Hin Hgap.
  assert (Hu : get_own table (Air.indicator e) = JUndefined)
    by now apply get_own_absent.
  assert (Hf : js_gt (Air.current_value e)
                 (get_own table (Air.indicator e)) = false)
    by (rewrite Hu; apply js_gt_undefined).
  assert (Hsel : ~ In e (alertsFor table fa)).
  { unfold alertsFor, exceeds. rewrite filter_In. intros [_ Ht]. congruence. }
  destruct (airQualityAlertJobWith_run env table s aq fa Haq Hfa)
    as [Hnone Hsome].
  split; [exact Hu|]. split; [exact Hf|]. split; [exact Hsel|].
  destruct (alertsFor table fa) as [|x r] eqn:Es.
  - rewrite (Hnone eq_refl). simpl. split.
    + exists []. split; [now rewrite app_nil_r | intros m l []].
    + reflexivity.
  - destruct Hsome as [Hres Hout]; [discriminate|]. split.
    + eexists. split; [exact Hout|].
      intros m l [<- | []] Hl. simpl in Hl. injection Hl as <-. exact Hsel.
    + intros Hok. now rewrite Hres, Hok.
Qed.

Lemma threshold_gap_no_alert_witness :
  let env := sample_env (air_readings 10 5 20 100 8000 3) june1_0700 in
  let table := [("no2", JNum (num_of_Z 230)); ("o3", JNum (num_of_Z 145))] in
  airQualityAlertJobWith (H := isoHost) env table no_trace
  = (Normal tt,
     {| console := [Say "Checking the air quality";
                    Say "No air quality limit has been exceeded"];
        outbox := [] |}).
Proof.
  intros env table.
  edestruct (threshold_gap_no_alert (H := isoHost) env table no_trace
               (air_readings 10 5 20 100 8000 3)
               (mapi_from (air_entry (air_readings 10 5 20 100 8000 3))
                  AIR_QUALITY_INDICATOR 0)
               {| Air.indicator := "co";
                  Air.current_value := JNum (num_of_Z 8000);
                  Air.air_image := "./legends/co-legend.png";
                  Air.cid := "aid4" |})
    as (_ & _ & _ & _ & _);
    [reflexivity | reflexivity
     | simpl; tauto
     | simpl; intros [E | [E | []]]; discriminate E |].
  reflexivity.
Defined.

(** ** Correlation ids of a mail *)



(** ** The query builder *)

Lemma append_assoc (a b c : string) : (a ++ b) ++ c = a ++ b ++ c.
Proof. induction a as [|x a IH]; simpl; [reflexivity | now rewrite IH]. Qed.

Lemma append_nil_r (a : string) : a ++ "" = a.
Proof. induction a as [|x a IH]; simpl; [reflexivity | now rewrite IH]. Qed.

Lemma last_char_append (a b : string) :
  b <> "" -> last_char (a ++ b) = last_char b.
Proof.
  intros Hb. induction a as [|x a IH]; simpl; [reflexivity|].
  rewrite <- IH. destruct (a ++ b) eqn:E; [|reflexivity].
  destruct a; simpl in E; [contradiction | discriminate].
Qed.

Lemma param_not_empty key v : param key v <> "".
Proof. unfold param. destruct key; simpl; discriminate. Qed.

Lemma append_param_emit request key v :
  append_param request key (ToString v) = emit request (param key v).
Proof.
  unfold append_param, emit, param.
  destruct (last_char request) as [c|]; [|now rewrite append_assoc].
  destruct (Ascii.eqb c "?") eqn:E.
  - apply Ascii.eqb_eq in E. now subst.
  - assert (Hc : c <> "?"%char) by now apply Ascii.eqb_neq.
    assert (Hgoal : (request ++ "&") ++ key ++ "=" ++ ToString v
                    = request ++ "&" ++ key ++ "=" ++ ToString v)
      by apply append_assoc.
    destruct c as [[] [] [] [] [] [] [] []]; try exact Hgoal.
    now contradiction Hc.
Qed.

Lemma queryBuilder_emit request options :
  queryBuilder request options
  = fold_left emit (params options) (request ++ "?").
Proof.
  unfold queryBuilder, params.
  generalize (request ++ "?") as r.
  induction (keys options) as [|key ks IH]; intros r; simpl; [reflexivity|].
  rewrite fold_left_app, IH. f_equal.
  destruct (get_own options key) as [| |b|n|t|l|o]; try reflexivity.
  - exact (append_param_emit r key (JNum n)).
  - exact (append_param_emit r key (JStr t)).
  - cbn [params_of]. revert r.
    induction l as [|e l IHl]; intros r; simpl; [reflexivity|].
    destruct (is_scalar e); simpl; [|apply IHl].
    now rewrite append_param_emit, IHl.
Qed.

Lemma emit_plain r p :
  last_char r <> Some "?"%char -> emit r p = r ++ "&" ++ p.
Proof.
  unfold emit. intros Hr.
  destruct (last_char r) as [c|]; [|reflexivity].
  destruct c as [[] [] [] [] [] [] [] []]; try reflexivity.
  now contradiction Hr.
Qed.

Lemma fold_emit_plain ps : forall r,
  Forall plain ps -> last_char r <> Some "?"%char ->
  fold_left emit ps r = r ++ String.concat "" (map (append "&") ps).
Proof.
  induction ps as [|p ps IH]; intros r Hps Hr; simpl.
  - now rewrite append_nil_r.
  - inversion Hps as [|? ? [Hne Hq] Hps']; subst.
    rewrite emit_plain by exact Hr.
    rewrite IH; [| exact Hps' |].
    + rewrite append_assoc.
      destruct ps; simpl; now rewrite ?append_nil_r, ?append_assoc.
    + rewrite last_char_append, last_char_append; trivial.
      destruct p; [contradiction | discriminate].
Qed.

Lemma join_cons_concat p ps :
  join "&" (p :: ps) = p ++ String.concat "" (map (append "&") ps).
Proof.
  revert p. induction ps as [|q ps IH]; intros p.
  - simpl. now rewrite append_nil_r.
  - change (join "&" (p :: q :: ps)) with (p ++ "&" ++ join "&" (q :: ps)).
    rewrite IH. simpl. destruct ps; simpl; now rewrite ?append_nil_r.
Qed.

(** The claimed shape holds when no emitted parameter ends with a
    question mark: the query is the base, [?], and the parameters joined
    by [&]. *)
Lemma queryBuilder_joined request options :
  (forall p, In p (params options) -> last_char p <> Some "?"%char) ->
  queryBuilder request options = request ++ "?" ++ join "&" (params options).
Proof.
  intros Hq. rewrite queryBuilder_emit.
  assert (Hplain : Forall plain (params options)).
  { apply Forall_forall. intros p Hp. split; [|now apply Hq].
    unfold params in Hp. apply in_flat_map in Hp as (key & _ & Hp).
    destruct (get_own options key); simpl in Hp; try contradiction.
    - destruct Hp as [<- | []]. apply param_not_empty.
    - destruct Hp as [<- | []]. apply param_not_empty.
    - apply in_map_iff in Hp as (e & <- & _). apply param_not_empty. }
  destruct (params options) as [|p ps]; simpl fold_left.
  - simpl. reflexivity.
  - inversion Hplain as [|? ? [Hne Hp] Hps]; subst.
    assert (He : emit (request ++ "?") p = (request ++ "?") ++ p).
    { unfold emit. rewrite last_char_append by discriminate. reflexivity. }
    rewrite He, fold_emit_plain; [| exact Hps |].
    + rewrite join_cons_concat. now rewrite !append_assoc.
    + now rewrite last_char_append.
Qed.

(** C3 fails on the code for a value that ends with a question mark.
    [queryBuilder] tells the first parameter by the last character of
    the request being [?]: after the value [?] of [a] the request ends
    with [?] again, and the parameter [b=y] is appended without [&].  The
    claim gives [u?a=?&b=y]. *)
Theorem queryBuilder_value_ending_with_question_mark :
  queryBuilder "u" [("a", JStr "?"); ("b", JStr "y")] = "u?a=?b=y" /\
  params [("a", JStr "?"); ("b", JStr "y")] = ["a=?"; "b=y"] /\
  queryBuilder "u" [("a", JStr "?"); ("b", JStr "y")]
  <> "u" ++ "?" ++ join "&" (params [("a", JStr "?"); ("b", JStr "y")]).
Proof.
  split; [reflexivity|]. split; [reflexivity|]. discriminate.
Qed.

(** ** The filter of the forecast job *)

Lemma filter_c_pure {A} (p : A -> completion bool) (q : A -> bool) l :
  (forall e, In e l -> p e = Normal (q e)) ->
  filter_c p l = Normal (filter q l).
Proof.
  induction l as [|e r IH]; intros Hp; simpl; [reflexivity|].
  rewrite Hp by (left; reflexivity). simpl.
  rewrite IH by (intros; apply Hp; now right). reflexivity.
Qed.

Lemma num_eqb_of_Z a b : num_eqb (num_of_Z a) (num_of_Z b) = (b =? a).
Proof. unfold num_eqb, num_of_Z. simpl. now rewrite !Z.mul_1_r. Qed.

Lemma includes_desiredHours z :
  includes desiredHours (num_of_Z z) = true <->
  In z [8; 10; 12; 14; 16; 18; 20; 22].
Proof.
  unfold includes, desiredHours. cbn [map existsb].
  change (SameValueZero (num_of_Z z)) with (num_eqb (num_of_Z z)).
  rewrite !num_eqb_of_Z. simpl In.
  rewrite !orb_true_iff, !Z.eqb_eq. intuition congruence.
Qed.

Lemma includes_desiredHours_NaN : includes desiredHours NaN = false.
Proof. reflexivity. Qed.

Section FilterProperties.
Context {H : Host}.
Variable env : Env.

Lemma desired_keeps e :
  has_field e "observation_time" -> desired env e = Normal (keeps env e).
Proof.
  intros Ho. unfold desired, keeps.
  rewrite (js_get_field _ _ Ho). cbn [cbind].
  rewrite (js_get_of_field _ _ _ Ho). cbn [cbind].
  fold (value_of e "observation_time").
  destruct (includes desiredHours
              (date_field getHours
                 (Date_of (value_of e "observation_time")))); reflexivity.
Qed.

Lemma keeps_iff e :
  keeps env e = true <->
  exists t,
    Date_of (value_of e "observation_time") = Some t /\
    In (getHours t) [8; 10; 12; 14; 16; 18; 20; 22] /\
    getDay t = getDay (clock env).
Proof.
  unfold keeps.
  destruct (Date_of (value_of e "observation_time")) as [t|];
    cbn [date_field].
  - rewrite andb_true_iff, includes_desiredHours, num_eqb_of_Z, Z.eqb_eq.
    split.
    + intros [Hh Hd]. exists t. repeat split; [exact Hh | now symmetry].
    + intros (t' & [= <-] & Hh & Hd). split; [exact Hh | now symmetry].
  - split; [discriminate|]. intros (t & Ht & _). discriminate Ht.
Qed.
End FilterProperties.

(** C1, as the code has it.  The filter of the forecast job keeps a
    record of the hourly list if and only if the hour of day of its
    observation time is one of 8, 10, 12, 14, 16, 18, 20, 22 and the day
    of the week of its observation time ([getDay], 0 to 6) is the
    current day of the week; the records kept stay in the order of the
    list. *)
Theorem desiredWeatherData_same_weekday {H : Host} (env : Env)
  (l : list JsVal) :
  Forall (fun e => has_field e "observation_time") l ->
  exists out,
    desiredWeatherData env (JArr l) = Normal out /\
    out = filter (keeps env) l /\
    forall e,
      In e out <->
      In e l /\
      exists t,
        Date_of (value_of e "observation_time") = Some t /\
        In (getHours t) [8; 10; 12; 14; 16; 18; 20; 22] /\
        getDay t = getDay (clock env).
Proof.
  intros Hall. exists (filter (keeps env) l).
  split; [|split; [reflexivity|]].
  - simpl. apply filter_c_pure. intros e He. apply desired_keeps.
    rewrite Forall_forall in Hall. now apply Hall.
  - intros e. rewrite filter_In, keeps_iff. reflexivity.
Qed.

Lemma sample_weather_observed :
  Forall (fun e => has_field e "observation_time") sample_weather.
Proof. repeat constructor. Qed.

Lemma desiredWeatherData_same_weekday_witness :
  Forall (fun e => has_field e "observation_time") sample_weather /\
  desiredWeatherData (H := isoHost)
    (sample_env (air_readings 10 5 20 100 8000 3) june1_0700)
    (JArr sample_weather)
  = Normal [hourly "2020-06-01T08:00:00.000Z" "clear" 15 68 2;
            hourly "2020-06-01T10:00:00.000Z" "cloudy" 18 60 3].
Proof.
  split; [exact sample_weather_observed|].
  destruct (desiredWeatherData_same_weekday (H := isoHost)
              (sample_env (air_readings 10 5 20 100 8000 3) june1_0700)
              sample_weather sample_weather_observed)
    as (out & E & -> & _).
  exact E.
Defined.

(** C1 as stated fails: the filter compares days of the week, not days
    of the month.  On Monday 1 June 2020 it keeps the record of Monday
    8 June at 08:00, whose day of the month is 8 and not 1, and drops the
    record of Friday 1 May at 08:00, whose day of the month is 1. *)
Lemma desiredWeatherData_not_day_of_month :
  let env := sample_env (air_readings 10 5 20 100 8000 3) june1_0700 in
  let june8 := hourly "2020-06-08T08:00:00.000Z" "clear" 15 68 2 in
  let may1 := hourly "2020-05-01T08:00:00.000Z" "clear" 15 68 2 in
  desiredWeatherData (H := isoHost) env (JArr [may1; june8])
  = Normal [june8] /\
  Date_of (H := isoHost) (value_of june8 "observation_time")
  = Some 1591603200000 /\
  Date_of (H := isoHost) (value_of may1 "observation_time")
  = Some 1588320000000 /\
  getHours (H := isoHost) 1591603200000 = 8 /\
  getHours (H := isoHost) 1588320000000 = 8 /\
  getDate (H := isoHost) (clock env) = 1 /\
  getDate (H := isoHost) 1591603200000 = 8 /\
  getDate (H := isoHost) 1588320000000 = 1 /\
  getDay (H := isoHost) (clock env) = 1 /\
  getDay (H := isoHost) 1591603200000 = 1 /\
  getDay (H := isoHost) 1588320000000 = 5 /\
  ~ (forall e,
        In e [june8] <->
        In e [may1; june8] /\
        exists t,
          Date_of (H := isoHost) (value_of e "observation_time") = Some t /\
          In (getHours (H := isoHost) t) [8; 10; 12; 14; 16; 18; 20; 22] /\
          getDate (H := isoHost) t = getDate (H := isoHost) (clock env)).
Proof.
  intros env june8 may1.
  repeat (split; [vm_compute; reflexivity|]).
  intros Hclaim.
  destruct (proj1 (Hclaim june8)) as (_ & t & Ht & _ & Hd); [now left|].
  vm_compute in Ht. injection Ht as <-. vm_compute in Hd. discriminate Hd.
Qed.

(** ** Dates *)

Lemma DayFromYear_bounds y :
  146097 * (y - 1970) - 506 <= 400 * DayFromYear y
  <= 146097 * (y - 1970) + 589.
Proof. unfold DayFromYear. Z.div_mod_to_equations. lia. Qed.

(** [YearFromDay] is the year of the day: the largest year that starts
    on or before it. *)
Lemma YearFromDay_spec d :
  DayFromYear (YearFromDay d) <= d < DayFromYear (YearFromDay d + 1).
Proof.
  unfold YearFromDay.
  set (y := 1970 + d * 400 / 146097).
  assert (Hy : 146097 * (y - 1970) <= 400 * d
               < 146097 * (y - 1970) + 146097)
    by (subst y; Z.div_mod_to_equations; lia).
  pose proof (DayFromYear_bounds (y - 1)) as Hm.
  pose proof (DayFromYear_bounds (y + 1 + 1)) as Hp.
  destruct (d <? DayFromYear y) eqn:E1.
  - apply Z.ltb_lt in E1. replace (y - 1 + 1) with y by lia. lia.
  - apply Z.ltb_ge in E1.
    destruct (DayFromYear (y + 1) <=? d) eqn:E2.
    + apply Z.leb_le in E2. lia.
    + apply Z.leb_gt in E2. lia.
Qed.

Lemma MonthFromDay_range d leap : 0 <= MonthFromDay d leap <= 11.
Proof.
  unfold MonthFromDay.
  repeat match goal with
  | |- context [if ?b then _ else _] => destruct b
  end; lia.
Qed.

(** A day of the month past the end of the month runs into the next
    months: [MakeDay] counts days from the first of the month. *)
Lemma MakeDay_DateFromTime t k :
  MakeDay (YearFromTime t) (MonthFromTime t) (DateFromTime t + k)
  = Day t + k.
Proof.
  unfold MakeDay, DateFromTime.
  pose proof (MonthFromDay_range (DayWithinYear t) (InLeapYear t)) as Hm.
  fold (MonthFromTime t) in Hm.
  rewrite (Z.div_small (MonthFromTime t) 12) by lia.
  rewrite (Z.mod_small (MonthFromTime t) 12) by lia.
  rewrite Z.add_0_r. fold (InLeapYear t).
  unfold DayWithinYear. lia.
Qed.

Lemma TimeClip_in_range t :
  Z.abs t <= 8640000000000000 -> TimeClip t = Some t.
Proof.
  intros Ht. unfold TimeClip.
  destruct (Z.abs t <=? 8640000000000000) eqn:E; [reflexivity|].
  apply Z.leb_gt in E. lia.
Qed.

Lemma msFromTime_TimeWithinDay t : msFromTime (TimeWithinDay t) = msFromTime t.
Proof.
  unfold msFromTime, TimeWithinDay, msPerSecond, msPerDay.
  Z.div_mod_to_equations. lia.
Qed.

Lemma Day_MakeDate d x :
  0 <= x < msPerDay ->
  Day (MakeDate d x) = d /\ TimeWithinDay (MakeDate d x) = x.
Proof.
  unfold Day, TimeWithinDay, MakeDate, msPerDay. intros Hx.
  Z.div_mod_to_equations. lia.
Qed.

Lemma clock_fields h m s ms :
  0 <= h < 24 -> 0 <= m < 60 -> 0 <= s < 60 -> 0 <= ms < 1000 ->
  let x := MakeTime h m s ms in
  0 <= x < msPerDay /\
  HourFromTime x = h /\ MinFromTime x = m /\ SecFromTime x = s /\
  msFromTime x = ms.
Proof.
  intros Hh Hm Hs Hms x. subst x.
  unfold MakeTime, HourFromTime, MinFromTime, SecFromTime, msFromTime,
    msPerDay, msPerHour, msPerMinute, msPerSecond.
  repeat split; Z.div_mod_to_equations; lia.
Qed.

Lemma clock_fields_of_day t :
  HourFromTime t = HourFromTime (TimeWithinDay t) /\
  MinFromTime t = MinFromTime (TimeWithinDay t) /\
  SecFromTime t = SecFromTime (TimeWithinDay t).
Proof.
  unfold HourFromTime, MinFromTime, SecFromTime, TimeWithinDay,
    msPerDay, msPerHour, msPerMinute, msPerSecond.
  repeat split; Z.div_mod_to_equations; lia.
Qed.

(** ** The first forecast *)

Section StartDateProperties.
Context {H : Host}.

Lemma fixed_offset_between :
  fixed_offset -> exists tz, forall a b, offset_between tz a b.
Proof.
  intros (tz & Hz). exists tz. intros a b. split; intros x _; apply Hz.
Qed.

(** Over a stretch without a clock change local time is UTC moved by
    the offset. *)
Lemma LocalTime_steady tz a b x :
  offset_between tz a b -> a <= x <= b -> LocalTime x = x + tz.
Proof. intros [Hu _] Hx. unfold LocalTime. now rewrite (Hu x Hx). Qed.

Lemma UTC_steady tz a b x :
  offset_between tz a b -> a + tz <= x <= b + tz -> UTC x = x - tz.
Proof. intros [_ Hl] Hx. unfold UTC. now rewrite (Hl x Hx). Qed.

(** The instant of the clock reading [x] on the local day of [t], or on
    the day [k] days from it. *)
Lemma UTC_MakeDate_steady tz a b t k x :
  offset_between tz a b ->
  a <= t <= b -> a <= t + (k - 1) * msPerDay -> t + (k + 1) * msPerDay <= b ->
  0 <= x < msPerDay ->
  UTC (MakeDate (Day (LocalTime t) + k) x)
  = t + k * msPerDay - TimeWithinDay (LocalTime t) + x.
Proof.
  intros Hz Ht Ha Hb Hx.
  rewrite (LocalTime_steady tz a b t Hz Ht).
  rewrite (UTC_steady tz a b _ Hz).
  - unfold MakeDate, Day, TimeWithinDay, msPerDay.
    Z.div_mod_to_equations. lia.
  - revert Ht Ha Hb Hx. unfold MakeDate, Day, msPerDay.
    Z.div_mod_to_equations. lia.
Qed.

Lemma MakeTime_8_bounds ms :
  0 <= ms < 1000 -> 0 <= MakeTime 8 0 0 ms < msPerDay.
Proof.
  unfold MakeTime, msPerDay, msPerHour, msPerMinute, msPerSecond. lia.
Qed.

Lemma msFromTime_bounds t : 0 <= msFromTime t < 1000.
Proof. unfold msFromTime, msPerSecond. apply Z.mod_pos_bound. lia. Qed.

Lemma TimeWithinDay_bounds t : 0 <= TimeWithinDay t < msPerDay.
Proof. unfold TimeWithinDay, msPerDay. apply Z.mod_pos_bound. lia. Qed.

Lemma UTC_MakeDate_today tz t :
  offset_between tz (t - msPerDay) (t + 2 * msPerDay) ->
  UTC (MakeDate (Day (LocalTime t)) (MakeTime 8 0 0 (msFromTime (LocalTime t))))
  = t - TimeWithinDay (LocalTime t)
    + MakeTime 8 0 0 (msFromTime (LocalTime t)).
Proof.
  intros Hz.
  pose proof (UTC_MakeDate_steady tz _ _ t 0
                (MakeTime 8 0 0 (msFromTime (LocalTime t))) Hz) as E.
  rewrite Z.add_0_r in E. rewrite E.
  - lia.
  - unfold msPerDay. lia.
  - unfold msPerDay. lia.
  - unfold msPerDay. lia.
  - apply MakeTime_8_bounds, msFromTime_bounds.
Qed.

Lemma UTC_MakeDate_tomorrow tz t :
  offset_between tz (t - msPerDay) (t + 2 * msPerDay) ->
  UTC (MakeDate (Day (LocalTime t) + 1)
         (MakeTime 8 0 0 (msFromTime (LocalTime t))))
  = t + msPerDay - TimeWithinDay (LocalTime t)
    + MakeTime 8 0 0 (msFromTime (LocalTime t)).
Proof.
  intros Hz.
  rewrite (UTC_MakeDate_steady tz _ _ t 1 _ Hz).
  - lia.
  - unfold msPerDay. lia.
  - unfold msPerDay. lia.
  - unfold msPerDay. lia.
  - apply MakeTime_8_bounds, msFromTime_bounds.
Qed.

Lemma setHours_8 tz a b t :
  offset_between tz a b ->
  a + msPerDay <= t <= b - msPerDay ->
  Z.abs t <= 8640000000000000 - msPerDay ->
  setHours t 8 0 0
  = Some (t - TimeWithinDay (LocalTime t)
          + MakeTime 8 0 0 (msFromTime (LocalTime t))).
Proof.
  intros Hz Hw Ht. unfold setHours.
  pose proof (UTC_MakeDate_steady tz a b t 0
                (MakeTime 8 0 0 (msFromTime (LocalTime t))) Hz) as E.
  rewrite Z.add_0_r in E. rewrite E.
  - replace (t + 0 * msPerDay) with t by lia.
    apply TimeClip_in_range.
    pose proof (TimeWithinDay_bounds (LocalTime t)) as Hd.
    pose proof (MakeTime_8_bounds _ (msFromTime_bounds (LocalTime t))) as Hm.
    revert Ht Hd Hm. unfold msPerDay. lia.
  - revert Hw. unfold msPerDay. lia.
  - revert Hw. unfold msPerDay. lia.
  - revert Hw. unfold msPerDay. lia.
  - apply MakeTime_8_bounds, msFromTime_bounds.
Qed.

Lemma setDate_tomorrow tz a b t :
  offset_between tz a b ->
  a <= t -> t + msPerDay <= b ->
  Z.abs t <= 8640000000000000 - msPerDay ->
  setDate t (getDate t + 1) = Some (t + msPerDay).
Proof.
  intros Hz Ha Hb Ht. unfold setDate, getDate.
  rewrite MakeDay_DateFromTime.
  assert (Hin : a <= t <= b) by (revert Ha Hb; unfold msPerDay; lia).
  assert (E : UTC (MakeDate (Day (LocalTime t) + 1)
                     (TimeWithinDay (LocalTime t)))
              = t + msPerDay).
  { rewrite (LocalTime_steady tz a b t Hz Hin).
    rewrite (UTC_steady tz a b _ Hz).
    - unfold MakeDate, Day, TimeWithinDay, msPerDay.
      Z.div_mod_to_equations. lia.
    - revert Ha Hb. unfold MakeDate, Day, TimeWithinDay, msPerDay.
      Z.div_mod_to_equations. lia. }
  rewrite E. apply TimeClip_in_range. revert Ht. unfold msPerDay. lia.
Qed.

Lemma LocalTime_next_day tz a b t :
  offset_between tz a b ->
  a <= t -> t + msPerDay <= b ->
  TimeWithinDay (LocalTime (t + msPerDay)) = TimeWithinDay (LocalTime t) /\
  msFromTime (LocalTime (t + msPerDay)) = msFromTime (LocalTime t) /\
  Day (LocalTime (t + msPerDay)) = Day (LocalTime t) + 1.
Proof.
  intros Hz Ha Hb.
  rewrite (LocalTime_steady tz a b t Hz)
    by (revert Ha Hb; unfold msPerDay; lia).
  rewrite (LocalTime_steady tz a b (t + msPerDay) Hz)
    by (revert Ha Hb; unfold msPerDay; lia).
  unfold TimeWithinDay, msFromTime, Day, msPerDay, msPerSecond.
  repeat split; Z.div_mod_to_equations; lia.
Qed.

(** Started before 08:00:00, [main] aims at 08:00:00 of the day, with
    the milliseconds of the clock. *)
Lemma startDate_before tz t :
  offset_between tz (t - msPerDay) (t + 2 * msPerDay) ->
  Z.abs t <= 8640000000000000 - 2 * msPerDay ->
  TimeWithinDay (LocalTime t) < MakeTime 8 0 0 0 ->
  startDate t
  = Some (t - TimeWithinDay (LocalTime t)
          + MakeTime 8 0 0 (msFromTime (LocalTime t))).
Proof.
  intros Hz Ht Hb. unfold startDate.
  rewrite (setHours_8 tz _ _ t Hz) by (revert Ht; unfold msPerDay; lia).
  unfold passed.
  destruct (_ <? t) eqn:E; [|reflexivity].
  apply Z.ltb_lt in E. exfalso. revert Hb E.
  unfold MakeTime, msFromTime, msPerHour, msPerMinute, msPerSecond.
  Z.div_mod_to_equations. lia.
Qed.

(** Started at 08:00:01 or later, [main] aims at 08:00:00 of the next
    day, with the milliseconds of the clock. *)
Lemma startDate_after tz t :
  offset_between tz (t - msPerDay) (t + 2 * msPerDay) ->
  Z.abs t <= 8640000000000000 - 2 * msPerDay ->
  MakeTime 8 0 1 0 <= TimeWithinDay (LocalTime t) ->
  startDate t
  = Some (t + msPerDay - TimeWithinDay (LocalTime t)
          + MakeTime 8 0 0 (msFromTime (LocalTime t))).
Proof.
  intros Hz Ht Ha. unfold startDate.
  rewrite (setHours_8 tz _ _ t Hz) by (revert Ht; unfold msPerDay; lia).
  unfold passed.
  destruct (_ <? t) eqn:E.
  - rewrite (setDate_tomorrow tz _ _ t Hz)
      by (revert Ht; unfold msPerDay; lia).
    rewrite (setHours_8 tz _ _ (t + msPerDay) Hz)
      by (revert Ht; unfold msPerDay; lia).
    destruct (LocalTime_next_day tz _ _ t Hz) as (-> & -> & _);
      [unfold msPerDay; lia | unfold msPerDay; lia |].
    reflexivity.
  - apply Z.ltb_ge in E. exfalso. revert Ha E.
    unfold MakeTime, msFromTime, msPerHour, msPerMinute, msPerSecond.
    Z.div_mod_to_equations. lia.
Qed.

(** The instant aimed at is 08:00:00 of its local day, the day of the
    startup or the next. *)
Lemma at_eight tz t day :
  offset_between tz (t - msPerDay) (t + 2 * msPerDay) ->
  day = Day (LocalTime t) \/ day = Day (LocalTime t) + 1 ->
  let ms := msFromTime (LocalTime t) in
  let sd := UTC (MakeDate day (MakeTime 8 0 0 ms)) in
  Day (LocalTime sd) = day /\
  HourFromTime (LocalTime sd) = 8 /\
  MinFromTime (LocalTime sd) = 0 /\
  SecFromTime (LocalTime sd) = 0 /\
  msFromTime (LocalTime sd) = ms.
Proof.
  intros Hz Hday ms sd.
  pose proof (msFromTime_bounds (LocalTime t)) as Hms. fold ms in Hms.
  destruct (clock_fields 8 0 0 ms) as (Hx & Hh & Hm & Hs & Hmm);
    try lia.
  pose proof (TimeWithinDay_bounds (LocalTime t)) as Hd.
  assert (Hlt : LocalTime t = t + tz)
    by (apply (LocalTime_steady tz _ _ t Hz); unfold msPerDay; lia).
  assert (Hsd : sd = MakeDate day (MakeTime 8 0 0 ms) - tz
                /\ t - msPerDay <= sd <= t + 2 * msPerDay).
  { subst sd. unfold ms in *. destruct Hday as [-> | ->].
    - rewrite (UTC_MakeDate_today tz t Hz).
      split; [|revert Hx Hd; unfold msPerDay; lia].
      revert Hlt. unfold MakeDate, Day, TimeWithinDay, msPerDay.
      intros ->. Z.div_mod_to_equations. lia.
    - rewrite (UTC_MakeDate_tomorrow tz t Hz).
      split; [|revert Hx Hd; unfold msPerDay; lia].
      revert Hlt. unfold MakeDate, Day, TimeWithinDay, msPerDay.
      intros ->. Z.div_mod_to_equations. lia. }
  destruct Hsd as [Hsd Hin].
  assert (E : LocalTime sd = MakeDate day (MakeTime 8 0 0 ms))
    by (rewrite (LocalTime_steady tz _ _ sd Hz Hin); lia).
  rewrite E.
  destruct (Day_MakeDate day _ Hx) as [Hd' Hw].
  destruct (clock_fields_of_day (MakeDate day (MakeTime 8 0 0 ms)))
    as (-> & -> & ->).
  rewrite <- msFromTime_TimeWithinDay, Hw.
  repeat split; assumption.
Qed.
End StartDateProperties.

(** ** Jobs that do not raise *)

(** The forecast job completes when the service answers with readings
    for the six indicators and records with the five fields, and the
    transport takes the mail. *)
Lemma weatherForecastJob_settles {H : Host} (env : Env) s aq l :
  fst (getAirQualityData env no_trace) = Normal aq ->
  fst (getWeatherData env no_trace) = Normal (JArr l) ->
  (forall k, In k AIR_QUALITY_INDICATOR -> has_field aq k) ->
  Forall hourly_record l ->
  (forall m, transport env m = Normal tt) ->
  fst (weatherForecastJob env s) = Normal tt.
Proof.
  intros Haq Hwd Hfields Hrecords Hsmtp.
  assert (Hd : desiredWeatherData env (JArr l)
               = Normal (filter (keeps env) l)).
  { simpl. apply filter_c_pure. intros e He. apply desired_keeps.
    rewrite Forall_forall in Hrecords. now destruct (Hrecords e He). }
  assert (Hfw : Forall hourly_record (filter (keeps env) l)).
  { rewrite Forall_forall in *. intros e He.
    apply filter_In in He as [He _]. now apply Hrecords. }
  destruct (weatherForecastJob_run env s aq (JArr l) _ _ _ Haq Hwd Hd
              (formatWeatherData_mapi _ Hfw)
              (formatAirQualityData_mapi aq Hfields)) as [-> _].
  apply Hsmtp.
Qed.

(** In [sample_world] no job raises, at any instant. *)
Lemma sample_world_settles :
  alerts_settle (H := isoHost) (sample_world sample_air) /\
  forecasts_settle (H := isoHost) (sample_world sample_air).
Proof.
  split; intros _ s tr; [reflexivity|].
  apply (weatherForecastJob_settles (H := isoHost) _ tr sample_air
           sample_weather); try reflexivity.
  - intros k Hk. simpl in Hk.
    repeat (destruct Hk as [<- | Hk]; [reflexivity|]). contradiction.
  - exact sample_weather_records.
Qed.

(** ** The loop *)

Lemma every_day_S first k :
  every_day first (S k)
  = (every_day first k ++ [first + Z.of_nat k * oneDayInMs])%list.
Proof. unfold every_day. rewrite seq_S, map_app. reflexivity. Qed.

Lemma timer_delay_pos after : 1 <= timer_delay after.
Proof.
  unfold timer_delay. destruct after as [d|]; [|lia].
  destruct (1 <=? d) eqn:E1; simpl; [|lia].
  destruct (d <=? 2147483647); [|lia]. now apply Z.leb_le.
Qed.

Lemma timer_delay_in_range d :
  1 <= d <= 2147483647 -> timer_delay (Some d) = d.
Proof.
  intros [H1 H2]. unfold timer_delay.
  apply Z.leb_le in H1, H2. now rewrite H1, H2.
Qed.

Lemma forecast_fires_snoc s s' t c :
  fired s' = (fired s ++ [(t, c)])%list ->
  forecast_fires s'
  = (forecast_fires s ++ if is_forecast c then [t] else [])%list.
Proof.
  unfold forecast_fires. intros ->. rewrite filter_app, map_app. simpl.
  destruct (is_forecast c); reflexivity.
Qed.

Section LoopProperties.
Context {H : Host}.
Variable w : World.

Lemma steps_add n m s : steps w (n + m) s = steps w m (steps w n s).
Proof.
  revert s. induction n as [|n IH]; intros s; simpl; [reflexivity|].
  apply IH.
Qed.

Lemma ended_None s t : ends s = None -> ended s t = false.
Proof. unfold ended. now intros ->. Qed.

(** The process having ended before the next timer is due, a turn of
    the loop changes nothing. *)
Lemma step_ended s tm :
  earliest (timers s) = Some tm ->
  ended s (Z.max (now s) (due tm)) = true -> step w s = s.
Proof. intros He Hx. unfold step. now rewrite He, Hx. Qed.

(** What a turn of the loop does to the timers, whatever the job
    leaves on the trace; the process goes on as before when the job
    does not raise or the runtime only warns. *)
Lemma step_alert s tm :
  earliest (timers s) = Some tm -> callback tm = AlertAgain ->
  let t := Z.max (now s) (due tm) in
  ended s t = false ->
  now (step w s) = t /\ next_id (step w s) = next_id s /\
  timers (step w s) = rearm tm t (timers s) /\
  fired (step w s) = (fired s ++ [(t, AlertAgain)])%list /\
  ((on_rejection w = Exits ->
    fst (airQualityAlertJob (env_at w t) (trace s)) = Normal tt) ->
   ends (step w s) = ends s).
Proof.
  intros He Hc t Hx. unfold step. rewrite He. fold t. rewrite Hx, Hc.
  unfold run_callback, run_job. cbn [now trace].
  destruct (airQualityAlertJob (env_at w t) (trace s)) as [[[]|e] tr]; cbn.
  - repeat split; reflexivity.
  - destruct (on_rejection w); cbn; repeat split; try reflexivity.
    intros Hs. specialize (Hs eq_refl). discriminate Hs.
Qed.

Lemma step_forecast_again s tm :
  earliest (timers s) = Some tm -> callback tm = ForecastAgain ->
  let t := Z.max (now s) (due tm) in
  ended s t = false ->
  now (step w s) = t /\ next_id (step w s) = next_id s /\
  timers (step w s) = rearm tm t (timers s) /\
  fired (step w s) = (fired s ++ [(t, ForecastAgain)])%list /\
  ((on_rejection w = Exits ->
    fst (weatherForecastJob (env_at w t) (trace s)) = Normal tt) ->
   ends (step w s) = ends s).
Proof.
  intros He Hc t Hx. unfold step. rewrite He. fold t. rewrite Hx, Hc.
  unfold run_callback, run_job. cbn [now trace].
  destruct (weatherForecastJob (env_at w t) (trace s)) as [[[]|e] tr]; cbn.
  - repeat split; reflexivity.
  - destruct (on_rejection w); cbn; repeat split; try reflexivity.
    intros Hs. specialize (Hs eq_refl). discriminate Hs.
Qed.

(** The callback of the first forecast, whatever its job does: the job
    raising, no timer is added, and the process ends when the job has
    settled where the runtime exits on the rejection; the job
    completing, the interval of the forecast is set for one day after
    the job has settled. *)
Lemma step_forecast_first_any s tm :
  earliest (timers s) = Some tm -> callback tm = ForecastFirst ->
  let t := Z.max (now s) (due tm) in
  ended s t = false ->
  now (step w s) = t /\
  fired (step w s) = (fired s ++ [(t, ForecastFirst)])%list /\
  (((exists e, fst (weatherForecastJob (env_at w t) (trace s)) = Throw e) /\
    timers (step w s) = rearm tm t (timers s) /\
    next_id (step w s) = next_id s /\
    (on_rejection w = Warns -> ends (step w s) = ends s) /\
    (on_rejection w = Exits ->
     exists x, ends (step w s) = Some x /\
               x <= t + Z.of_N (forecast_time w t))) \/
   (fst (weatherForecastJob (env_at w t) (trace s)) = Normal tt /\
    timers (step w s)
    = (rearm tm t (timers s) ++
       [{| timer_id := next_id s;
           due := t + Z.of_N (forecast_time w t) + oneDayInMs;
           repeat := Some oneDayInMs; callback := ForecastAgain |}])%list /\
    next_id (step w s) = S (next_id s) /\
    ends (step w s) = ends s)).
Proof.
  intros He Hc t Hx. unfold step. rewrite He. fold t. rewrite Hx, Hc.
  unfold run_callback, run_job. cbn [now trace].
  destruct (weatherForecastJob (env_at w t) (trace s)) as [[[]|e] tr]; cbn.
  - split; [reflexivity|]. split; [reflexivity|]. right.
    repeat split; reflexivity.
  - destruct (on_rejection w); cbn;
      (split; [reflexivity|]); (split; [reflexivity|]); left;
      (split; [now exists e|]); (split; [reflexivity|]);
      (split; [reflexivity|]).
    + split; [intros _; reflexivity | discriminate].
    + split; [discriminate|]. intros _.
      destruct (ends s) as [x|]; eexists; (split; [reflexivity|]); lia.
Qed.

Lemma step_forecast_first s tm :
  earliest (timers s) = Some tm -> callback tm = ForecastFirst ->
  let t := Z.max (now s) (due tm) in
  ended s t = false ->
  (forall tr, fst (weatherForecastJob (env_at w t) tr) = Normal tt) ->
  now (step w s) = t /\ next_id (step w s) = S (next_id s) /\
  timers (step w s)
  = (rearm tm t (timers s) ++
     [{| timer_id := next_id s;
         due := t + Z.of_N (forecast_time w t) + oneDayInMs;
         repeat := Some oneDayInMs; callback := ForecastAgain |}])%list /\
  fired (step w s) = (fired s ++ [(t, ForecastFirst)])%list /\
  ends (step w s) = ends s.
Proof.
  intros He Hc t Hx Hjob.
  destruct (step_forecast_first_any s tm He Hc Hx)
    as (Hn & Hf & [((e & Hthrow) & _) | (_ & Htim & Hid & Hends)]).
  - fold t in Hthrow. rewrite Hjob in Hthrow. discriminate Hthrow.
  - repeat split; assumption.
Qed.
End LoopProperties.

Lemma rearm_interval_pair_snd T A p t :
  repeat A = Some p -> timer_id T <> timer_id A ->
  rearm A t [T; A]
  = [T; {| timer_id := timer_id A; due := t + p;
           repeat := repeat A; callback := callback A |}].
Proof.
  intros Hr Hid. unfold rearm. rewrite Hr. simpl.
  rewrite (proj2 (Nat.eqb_neq _ _) Hid), Nat.eqb_refl.
  now rewrite Hr.
Qed.

Lemma rearm_interval_pair_fst A F p t :
  repeat A = Some p -> timer_id A <> timer_id F ->
  rearm A t [A; F]
  = [{| timer_id := timer_id A; due := t + p;
        repeat := repeat A; callback := callback A |}; F].
Proof.
  intros Hr Hid. unfold rearm. rewrite Hr. simpl.
  assert (Hid' : timer_id F <> timer_id A) by congruence.
  rewrite (proj2 (Nat.eqb_neq _ _) Hid'), Nat.eqb_refl.
  now rewrite Hr.
Qed.

Lemma rearm_timeout_alone T t : repeat T = None -> rearm T t [T] = [].
Proof. intros Hr. unfold rearm. rewrite Hr. simpl. now rewrite Nat.eqb_refl. Qed.

Lemma rearm_timeout_pair T A t :
  repeat T = None -> timer_id T <> timer_id A -> rearm T t [T; A] = [A].
Proof.
  intros Hr Hid. unfold rearm. rewrite Hr. simpl.
  assert (Hid' : timer_id A <> timer_id T) by congruence.
  now rewrite Nat.eqb_refl, (proj2 (Nat.eqb_neq _ _) Hid').
Qed.

Lemma rearm_interval_alone A p t :
  repeat A = Some p ->
  rearm A t [A]
  = [{| timer_id := timer_id A; due := t + p;
        repeat := repeat A; callback := callback A |}].
Proof.
  intros Hr. unfold rearm. rewrite Hr. simpl. rewrite Nat.eqb_refl.
  now rewrite Hr.
Qed.

Section TimelineProperties.
Context {H : Host}.
Variable w : World.
Hypothesis Halerts : alerts_settle w.

(** Before the first forecast the alerts fire one period apart and
    leave the timeout of the forecast as it is. *)
Lemma alerts_before_first m : forall s T A p,
  ends s = None ->
  timers s = [T; A] -> callback A = AlertAgain -> repeat A = Some p ->
  0 < p -> timer_id T <> timer_id A ->
  now s <= due T -> now s <= due A ->
  due T - due A <= Z.of_nat m * p ->
  exists n A',
    timers (steps w n s) = [T; A'] /\ callback A' = AlertAgain /\
    repeat A' = Some p /\ timer_id A' = timer_id A /\
    due T <= due A' /\ now (steps w n s) <= due T /\
    forecast_fires (steps w n s) = forecast_fires s /\
    next_id (steps w n s) = next_id s /\
    ends (steps w n s) = None.
Proof.
  induction m as [|m IH]; intros s T A p Hends Ht Hc Hr Hp Hid HnT HnA Hm.
  - exists 0%nat, A. simpl. repeat split; auto; lia.
  - destruct (due A <? due T) eqn:E.
    + assert (He : earliest (timers s) = Some A)
        by (rewrite Ht; simpl; now rewrite E).
      apply Z.ltb_lt in E.
      destruct (step_alert w s A He Hc (ended_None _ _ Hends))
        as (Hnow & Hnid & Htim & Hfired & Hquiet).
      rewrite Z.max_r in Hnow, Htim, Hfired by lia.
      rewrite Ht, (rearm_interval_pair_snd _ _ _ _ Hr Hid) in Htim.
      rewrite Nat2Z.inj_succ, Z.mul_succ_l in Hm.
      assert (Hends1 : ends (step w s) = None)
        by (rewrite Hquiet; [exact Hends | intros Hx; now apply Halerts]).
      destruct (IH (step w s) T _ p Hends1 Htim Hc Hr Hp Hid)
        as (n & A' & H1 & H2 & H3 & H4 & H5 & H6 & H7 & H8 & H9);
        [lia | simpl; lia | simpl; lia |].
      exists (S n), A'. simpl.
      rewrite H7, H8, Hnid, (forecast_fires_snoc _ _ _ _ Hfired).
      simpl. rewrite app_nil_r. repeat split; auto.
    + apply Z.ltb_ge in E. exists 0%nat, A. simpl.
      repeat split; auto; lia.
Qed.

(** Between two forecasts the alerts fire one period apart and leave
    the interval of the forecast as it is. *)
Lemma alerts_before_next m : forall s A F p,
  ends s = None ->
  timers s = [A; F] -> callback A = AlertAgain -> repeat A = Some p ->
  0 < p -> timer_id A <> timer_id F ->
  now s <= due F -> now s <= due A ->
  due F - due A < Z.of_nat m * p ->
  exists n A',
    timers (steps w n s) = [A'; F] /\ callback A' = AlertAgain /\
    repeat A' = Some p /\ timer_id A' = timer_id A /\
    due F < due A' /\ now (steps w n s) <= due F /\
    forecast_fires (steps w n s) = forecast_fires s /\
    next_id (steps w n s) = next_id s /\
    ends (steps w n s) = None.
Proof.
  induction m as [|m IH]; intros s A F p Hends Ht Hc Hr Hp Hid HnF HnA Hm.
  - exists 0%nat, A. simpl. repeat split; auto; lia.
  - destruct (due F <? due A) eqn:E.
    + apply Z.ltb_lt in E. exists 0%nat, A. simpl.
      repeat split; auto; lia.
    + assert (He : earliest (timers s) = Some A)
        by (rewrite Ht; simpl; now rewrite E).
      apply Z.ltb_ge in E.
      destruct (step_alert w s A He Hc (ended_None _ _ Hends))
        as (Hnow & Hnid & Htim & Hfired & Hquiet).
      rewrite Z.max_r in Hnow, Htim, Hfired by lia.
      rewrite Ht, (rearm_interval_pair_fst _ _ _ _ Hr Hid) in Htim.
      rewrite Nat2Z.inj_succ, Z.mul_succ_l in Hm.
      assert (Hends1 : ends (step w s) = None)
        by (rewrite Hquiet; [exact Hends | intros Hx; now apply Halerts]).
      destruct (IH (step w s) _ F p Hends1 Htim Hc Hr Hp Hid)
        as (n & A' & H1 & H2 & H3 & H4 & H5 & H6 & H7 & H8 & H9);
        [lia | simpl; lia | simpl; lia |].
      exists (S n), A'. simpl.
      rewrite H7, H8, Hnid, (forecast_fires_snoc _ _ _ _ Hfired).
      simpl. rewrite app_nil_r. repeat split; auto.
Qed.

Hypothesis Hforecasts : forecasts_settle w.

(** Once armed, the interval of the forecast fires a day after the
    last forecast and is armed again. *)
Lemma armed_next before first k s :
  armed before first k s ->
  exists n, armed before first (S k) (steps w n s).
Proof.
  intros (Hff & Hends & Ft & Hc & Hr & Hd & Hn
          & [Ht | (A & p & Ht & HcA & HrA & Hp & Hid & HnA)]).
  - assert (He : earliest (timers s) = Some Ft) by now rewrite Ht.
    destruct (step_forecast_again w s Ft He Hc (ended_None _ _ Hends))
      as (Hnow & Hnid & Htim & Hfired & Hquiet).
    rewrite Z.max_r in Hnow, Htim, Hfired by lia.
    exists 1%nat. simpl. split; [|split].
    + rewrite (forecast_fires_snoc _ _ _ _ Hfired), Hff, every_day_S, Hd.
      now rewrite app_assoc.
    + rewrite Hquiet; [exact Hends | intros Hx; now apply Hforecasts].
    + eexists. split; [|split; [|split; [|split; [|left]]]].
      5:{ rewrite Htim, Ht. unfold rearm. rewrite Hr. simpl.
          rewrite Nat.eqb_refl. reflexivity. }
      * exact Hc.
      * exact Hr.
      * cbn [due]. rewrite Hd, Nat2Z.inj_succ. unfold oneDayInMs. lia.
      * simpl. rewrite Hnow. unfold oneDayInMs. lia.
  - destruct (alerts_before_next (Z.to_nat (due Ft - due A + 1)) s A Ft p
                Hends Ht HcA HrA Hp Hid Hn HnA)
      as (n & A' & Ht' & HcA' & HrA' & HidA' & Hlt & Hn' & Hff' & _ & Hends').
    { assert (Hz : Z.of_nat (Z.to_nat (due Ft - due A + 1))
                   = Z.max 0 (due Ft - due A + 1)) by lia.
      rewrite Hz. nia. }
    set (s' := steps w n s) in *.
    assert (He : earliest (timers s') = Some Ft).
    { rewrite Ht'. simpl. now rewrite (proj2 (Z.ltb_lt _ _) Hlt). }
    destruct (step_forecast_again w s' Ft He Hc (ended_None _ _ Hends'))
      as (Hnow & Hnid & Htim & Hfired & Hquiet).
    rewrite Z.max_r in Hnow, Htim, Hfired by lia.
    exists (n + 1)%nat. rewrite steps_add. fold s'. simpl. split; [|split].
    + rewrite (forecast_fires_snoc _ _ _ _ Hfired), Hff', Hff, every_day_S,
        Hd. now rewrite app_assoc.
    + rewrite Hquiet; [exact Hends' | intros Hx; now apply Hforecasts].
    + eexists. split; [|split; [|split; [|split; [|right]]]].
      5:{ exists A', p. split; [|split; [|split; [|split; [|split]]]].
          - rewrite Htim, Ht'. unfold rearm. rewrite Hr. simpl.
            assert (Hid' : timer_id A' <> timer_id Ft) by congruence.
            rewrite (proj2 (Nat.eqb_neq _ _) Hid'), Nat.eqb_refl.
            reflexivity.
          - exact HcA'.
          - exact HrA'.
          - exact Hp.
          - simpl. congruence.
          - rewrite Hnow. lia. }
      * exact Hc.
      * exact Hr.
      * cbn [due]. rewrite Hd, Nat2Z.inj_succ. unfold oneDayInMs. lia.
      * simpl. rewrite Hnow. unfold oneDayInMs. lia.
Qed.

Lemma armed_later before first k s j :
  armed before first k s ->
  exists n, armed before first (k + j) (steps w n s).
Proof.
  revert s k. induction j as [|j IH]; intros s k Ha.
  - exists 0%nat. now rewrite Nat.add_0_r.
  - destruct (armed_next _ _ _ _ Ha) as (n1 & Ha1).
    destruct (IH _ _ Ha1) as (n2 & Ha2).
    exists (n1 + n2)%nat. rewrite steps_add.
    now replace (k + S j)%nat with (S k + j)%nat by lia.
Qed.
End TimelineProperties.

Section MainProperties.
Context {H : Host}.
Variable w : World.

(** What [main] leaves in the loop: the timeout of the first forecast
    and, when the alert job it awaits completes, the interval of the
    alert, which counts from the instant that job has settled. *)
Lemma main_timers t u :
  smtp_ready w = Normal u ->
  let T0 := {| timer_id := 0; due := t + timer_delay (timeLeft t);
               repeat := None; callback := ForecastFirst |} in
  let A0 := {| timer_id := 1; due := t + Z.of_N (alert_time w t) + 120000;
               repeat := Some 120000; callback := AlertAgain |} in
  now (main w t) = t /\ fired (main w t) = [] /\ ends (main w t) = None /\
  ((timers (main w t) = [T0] /\ next_id (main w t) = 1%nat) \/
   (timers (main w t) = [T0; A0] /\ next_id (main w t) = 2%nat)).
Proof.
  intros Hready T0 A0. unfold main. rewrite Hready.
  unfold run_job. cbn [now trace].
  destruct (airQualityAlertJob _ _) as [[[]|err] tr]; simpl.
  - split; [reflexivity|]. split; [reflexivity|]. split; [reflexivity|].
    right. split; reflexivity.
  - split; [reflexivity|]. split; [reflexivity|]. split; [reflexivity|].
    left. split; reflexivity.
Qed.

(** The loop comes to the turn of the first forecast: the alerts due
    before it have fired, no forecast has started, and the timeout of
    the forecast is the next timer. *)
Lemma main_before_first t u :
  smtp_ready w = Normal u -> alerts_settle w ->
  let first := t + timer_delay (timeLeft t) in
  let T0 := {| timer_id := 0; due := first;
               repeat := None; callback := ForecastFirst |} in
  exists n,
    forecast_fires (steps w n (main w t)) = [] /\
    ends (steps w n (main w t)) = None /\
    now (steps w n (main w t)) <= first /\
    earliest (timers (steps w n (main w t))) = Some T0 /\
    ((timers (steps w n (main w t)) = [T0] /\
      next_id (steps w n (main w t)) = 1%nat) \/
     (exists A',
         timers (steps w n (main w t)) = [T0; A'] /\
         callback A' = AlertAgain /\ repeat A' = Some 120000 /\
         timer_id A' = 1%nat /\ first <= due A' /\
         next_id (steps w n (main w t)) = 2%nat)).
Proof.
  intros Hready Halerts first T0.
  destruct (main_timers t u Hready) as (Hnow & Hfired & Hends & Hshape).
  pose proof (timer_delay_pos (timeLeft t)) as Hpos.
  assert (Hff0 : forecast_fires (main w t) = [])
    by (unfold forecast_fires; now rewrite Hfired).
  destruct Hshape as [[Ht Hid] | [Ht Hid]].
  - exists 0%nat. simpl. split; [exact Hff0|]. split; [exact Hends|].
    split; [rewrite Hnow; unfold first; lia|].
    split; [now rewrite Ht|]. left. split; assumption.
  - set (A0 := {| timer_id := 1;
                  due := t + Z.of_N (alert_time w t) + 120000;
                  repeat := Some 120000; callback := AlertAgain |}) in *.
    destruct (alerts_before_first w Halerts (Z.to_nat (due T0 - due A0))
                (main w t) T0 A0 120000 Hends Ht eq_refl eq_refl)
      as (n & A' & Ht' & HcA' & HrA' & HidA' & Hle & Hn' & Hff' & Hnid'
          & Hends');
      [lia | simpl; discriminate | rewrite Hnow; simpl; unfold first; lia
       | rewrite Hnow; simpl; lia | lia |].
    exists n. split; [now rewrite Hff'|]. split; [exact Hends'|].
    split; [exact Hn'|]. split.
    + rewrite Ht'. simpl. destruct (due A' <? _) eqn:E; [|reflexivity].
      apply Z.ltb_lt in E. simpl in Hle. lia.
    + right. exists A'. split; [exact Ht'|]. split; [exact HcA'|].
      split; [exact HrA'|]. split; [exact HidA'|].
      split; [exact Hle | now rewrite Hnid'].
Qed.

(** The first forecast starts at the instant its timeout is due,
    whatever comes of its run. *)
Lemma main_first_fire t u :
  smtp_ready w = Normal u -> alerts_settle w ->
  exists k,
    forecast_fires (steps w k (main w t)) = [t + timer_delay (timeLeft t)].
Proof.
  intros Hready Halerts.
  destruct (main_before_first t u Hready Halerts)
    as (n & Hff & Hends & Hnow & He & _).
  set (s' := steps w n (main w t)) in *.
  destruct (step_forecast_first_any w s' _ He eq_refl
              (ended_None _ _ Hends)) as (_ & Hf & _).
  cbn [due] in Hf. rewrite Z.max_r in Hf by exact Hnow.
  exists (n + 1)%nat. rewrite steps_add. fold s'. simpl.
  rewrite (forecast_fires_snoc _ _ _ _ Hf), Hff. reflexivity.
Qed.

(** When the run of the first forecast completes normally, the interval
    of the forecast is armed for one day after the run has settled. *)
Lemma main_armed t u :
  smtp_ready w = Normal u -> alerts_settle w ->
  let first := t + timer_delay (timeLeft t) in
  (forall tr, fst (weatherForecastJob (env_at w first) tr) = Normal tt) ->
  exists n,
    armed [first] (first + Z.of_N (forecast_time w first) + oneDayInMs) 0
      (steps w n (main w t)).
Proof.
  intros Hready Halerts first Hjob.
  destruct (main_before_first t u Hready Halerts)
    as (n & Hff & Hends & Hnow & He & Hshape).
  fold first in Hnow, He, Hshape.
  set (s' := steps w n (main w t)) in *.
  destruct (step_forecast_first w s' _ He eq_refl (ended_None _ _ Hends))
    as (Hn1 & Hid1 & Ht1 & Hf1 & Hends1).
  { cbn [due]. rewrite Z.max_r by exact Hnow. exact Hjob. }
  cbn [due] in Hn1, Ht1, Hf1. rewrite Z.max_r in Hn1, Ht1, Hf1 by exact Hnow.
  exists (n + 1)%nat. rewrite steps_add. fold s'. simpl. split; [|split].
  - rewrite (forecast_fires_snoc _ _ _ _ Hf1), Hff. reflexivity.
  - now rewrite Hends1.
  - destruct Hshape as [[Ht Hid] | (A' & Ht & HcA' & HrA' & HidA' & Hle & Hid)].
    + eexists. split; [|split; [|split; [|split; [|left]]]].
      5:{ rewrite Ht1, Ht. reflexivity. }
      * reflexivity.
      * reflexivity.
      * simpl. lia.
      * simpl. rewrite Hn1. unfold oneDayInMs. lia.
    + eexists. split; [|split; [|split; [|split; [|right]]]].
      5:{ exists A', 120000. split; [|split; [|split; [|split; [|split]]]].
          - rewrite Ht1, Ht. unfold rearm. simpl.
            rewrite HidA'. simpl. reflexivity.
          - exact HcA'.
          - exact HrA'.
          - lia.
          - simpl. rewrite HidA', Hid. discriminate.
          - rewrite Hn1. exact Hle. }
      * reflexivity.
      * reflexivity.
      * simpl. lia.
      * simpl. rewrite Hn1. unfold oneDayInMs. lia.
Qed.

Lemma main_forecasts t u :
  smtp_ready w = Normal u -> alerts_settle w -> forecasts_settle w ->
  let first := t + timer_delay (timeLeft t) in
  (forall tr, fst (weatherForecastJob (env_at w first) tr) = Normal tt) ->
  forall n, exists k,
    forecast_fires (steps w k (main w t))
    = first :: every_day (first + Z.of_N (forecast_time w first)
                          + oneDayInMs) n.
Proof.
  intros Hready Halerts Hforecasts first Hjob n.
  destruct (main_armed t u Hready Halerts Hjob) as (k1 & Ha).
  destruct (armed_later w Halerts Hforecasts _ _ _ _ n Ha)
    as (k2 & (Hff & _)).
  exists (k1 + k2)%nat. rewrite steps_add. exact Hff.
Qed.

(** An aim between one millisecond and two days ahead is the instant
    the timeout is due. *)
Lemma first_due t d :
  startDate t = Some d -> 1 <= d - t <= 2 * msPerDay ->
  t + timer_delay (timeLeft t) = d.
Proof.
  intros Hs Hd. unfold timeLeft. rewrite Hs.
  rewrite timer_delay_in_range; [lia|].
  revert Hd. unfold msPerDay. lia.
Qed.
End MainProperties.


(** C5, as the code has it.  At startup, the transport being ready and
    no change of the clocks falling between the day before and two days
    after: when the local clock shows a time before 08:00:00, [main]
    aims the first forecast at 08:00:00 of the day; when it shows
    08:00:01 or later, at 08:00:00 of the next day; in both cases with
    the milliseconds of the clock at startup, which [setHours(8, 0, 0)]
    keeps.  As long as no alert job that raises inside its timer
    callback ends the process, the first forecast starts at that
    instant, whatever comes of its run.  Its run completing normally,
    and no later run ending the process, the interval is set when the
    run has completed: the second forecast starts 24 hours (8.64e7 ms)
    after that completion, and every later forecast 24 hours after the
    start of the one before; the interval is never set against the clock
    again.  When the clock shows 08:00:00 and some milliseconds, the
    instant aimed at is the instant of startup itself, and the first
    forecast starts one millisecond later, the same day. *)
Theorem forecast_timeline {H : Host} (w : World) (t tz : Z) :
  Z.abs t <= 8640000000000000 - 2 * msPerDay ->
  offset_between tz (t - msPerDay) (t + 2 * msPerDay) ->
  smtp_ready w = Normal tt ->
  let local := LocalTime t in
  (TimeWithinDay local < MakeTime 8 0 0 0 ->
   forecasts_from w t (eight_on t (Day local))) /\
  (MakeTime 8 0 1 0 <= TimeWithinDay local ->
   forecasts_from w t (eight_on t (Day local + 1))) /\
  (MakeTime 8 0 0 0 <= TimeWithinDay local < MakeTime 8 0 1 0 ->
   startDate t = Some t /\ timeLeft t = Some 0 /\
   (alerts_settle w ->
    exists k, forecast_fires (steps w k (main w t)) = [t + 1])) /\
  (forall day,
      day = Day local \/ day = Day local + 1 ->
      let first := eight_on t day in
      Day (LocalTime first) = day /\
      HourFromTime (LocalTime first) = 8 /\
      MinFromTime (LocalTime first) = 0 /\
      SecFromTime (LocalTime first) = 0 /\
      msFromTime (LocalTime first) = msFromTime local) /\
  oneDayInMs = 86400000.
Proof.
  intros Hrange Hz Hready local. subst local.
  pose proof (msFromTime_bounds (LocalTime t)) as Hms.
  pose proof (TimeWithinDay_bounds (LocalTime t)) as Htwd.
  assert (Hfrom : forall first,
             startDate t = Some first -> 1 <= first - t <= 2 * msPerDay ->
             forecasts_from w t first).
  { intros first Hs Hd. pose proof (first_due t first Hs Hd) as Hdue.
    split; [exact Hs|]. intros Halerts. split.
    - destruct (main_first_fire w t tt Hready Halerts) as (k & Hk).
      exists k. now rewrite Hdue in Hk.
    - intros Hjob Hfs n. rewrite <- Hdue in Hjob |- *.
      now apply (main_forecasts w t tt). }
  split; [|split; [|split; [|split; [|reflexivity]]]].
  - intros Hbefore. unfold eight_on. rewrite (UTC_MakeDate_today tz t Hz).
    apply Hfrom; [now apply (startDate_before tz)|].
    revert Hbefore Hms Htwd.
    unfold MakeTime, msPerDay, msPerHour, msPerMinute, msPerSecond. lia.
  - intros Hafter. unfold eight_on. rewrite (UTC_MakeDate_tomorrow tz t Hz).
    apply Hfrom; [now apply (startDate_after tz)|].
    revert Hafter Hms Htwd.
    unfold MakeTime, msPerDay, msPerHour, msPerMinute, msPerSecond. lia.
  - intros Hat.
    assert (Hs : startDate t = Some t).
    { unfold startDate.
      rewrite (setHours_8 tz _ _ t Hz) by (revert Hrange; unfold msPerDay; lia).
      assert (E : t - TimeWithinDay (LocalTime t)
                  + MakeTime 8 0 0 (msFromTime (LocalTime t)) = t).
      { revert Hat.
        unfold MakeTime, msFromTime, TimeWithinDay,
          msPerDay, msPerHour, msPerMinute, msPerSecond.
        Z.div_mod_to_equations. lia. }
      rewrite E. unfold passed. now rewrite Z.ltb_irrefl. }
    assert (Hl : timeLeft t = Some 0)
      by (unfold timeLeft; rewrite Hs; f_equal; lia).
    split; [exact Hs|]. split; [exact Hl|]. intros Halerts.
    destruct (main_first_fire w t tt Hready Halerts) as (k & Hk).
    exists k. rewrite Hl in Hk. exact Hk.
  - intros day Hday. apply (at_eight tz t day Hz Hday).
Qed.

Lemma forecast_timeline_witness :
  let w := sample_world (air_readings 10 5 20 100 8000 3) in
  (* started at 07:00:00.000: today at 08:00:00.000 *)
  forecasts_from (H := isoHost) w june1_0700 1590998400000 /\
  (* started at 09:30:00.250: tomorrow at 08:00:00.250 *)
  forecasts_from (H := isoHost) w june1_0930_250 1591084800250 /\
  (* started at 07:00:00, the first run taking three seconds: 08:00:00
     of the day, then 08:00:03 of the next days *)
  exists k,
    forecast_fires (steps (H := isoHost) w k (main (H := isoHost) w june1_0700))
    = [1590998400000; 1591084803000; 1591171203000].
Proof.
  intros w.
  assert (Hfrom : forecasts_from (H := isoHost) w june1_0700 1590998400000).
  { refine (proj1 (forecast_timeline (H := isoHost) w june1_0700 0 _ _ _) _);
      [vm_compute; discriminate | split; intros x _; reflexivity
       | reflexivity | reflexivity]. }
  split; [exact Hfrom|]. split.
  - refine (proj1 (proj2 (forecast_timeline (H := isoHost) w
                            june1_0930_250 0 _ _ _)) _);
      [vm_compute; discriminate | split; intros x _; reflexivity
       | reflexivity | vm_compute; discriminate].
  - destruct Hfrom as [_ Hgo].
    destruct (Hgo (proj1 sample_world_settles)) as [_ Hnext].
    destruct (Hnext (proj2 sample_world_settles 
                       eq_refl 1590998400000)
                    (proj2 sample_world_settles) 2%nat) as (k & Hk).
    exists k. exact Hk.
Defined.

Example first_forecasts_of_the_sample :
  let w := sample_world (air_readings 10 5 20 100 8000 3) in
  (* 29 alerts, two minutes apart, then the first forecast *)
  forecast_fires (steps (H := isoHost) w 29 (main (H := isoHost) w june1_0700))
  = [] /\
  forecast_fires (steps (H := isoHost) w 30 (main (H := isoHost) w june1_0700))
  = [1590998400000].
Proof. vm_compute. split; reflexivity. Qed.

(** C5 as stated fails in two places.  Started at 08:00:00.500, after
    today's 08:00, [main] aims at 08:00:00.500 of the same day, which is
    the instant of startup and has not passed: the delay is 0 and the
    first forecast starts one millisecond later, the same day and not the
    next.  And the second forecast does not start 24 hours after the
    first: started at 07:00:00, with a first run of three seconds (and
    no alert interval, the service being down at startup), the forecasts
    start at 08:00:00.000 and at 08:00:03.000 of the next day. *)
Lemma forecast_off_the_day :
  let w := sample_world (air_readings 10 5 20 100 8000 3) in
  let t := june1_0800_500 in
  MakeTime 8 0 0 0 < TimeWithinDay (LocalTime (H := isoHost) t) /\
  startDate (H := isoHost) t = Some t /\
  timeLeft (H := isoHost) t = Some 0 /\
  forecast_fires (steps (H := isoHost) w 1 (main (H := isoHost) w t))
  = [t + 1] /\
  Day (LocalTime (H := isoHost) (t + 1)) = Day (LocalTime (H := isoHost) t) /\
  (let w' := sample_world_down_at june1_0700
               (air_readings 10 5 20 100 8000 3) in
   forecast_fires
     (steps (H := isoHost) w' 2 (main (H := isoHost) w' june1_0700))
   = [1590998400000; 1590998400000 + 3000 + 86400000]) /\
  1590998400000 + 3000 + 86400000 <> 1590998400000 + 86400000.
Proof.
  intros w t.
  split; [reflexivity|]. split; [reflexivity|]. split; [reflexivity|].
  split; [vm_compute; reflexivity|]. split; [reflexivity|].
  split; [vm_compute; reflexivity | discriminate].
Qed.

(** What the timeline owes to jobs that do not raise.  The service
    being down at 07:02:02, when the first check of the interval runs,
    that check raises inside its callback.  Where the runtime exits on
    the rejection the process ends when the check has settled: no later
    check runs and the forecast of 08:00:00 never starts.  Where the
    runtime only warns, the checks go on and the forecast starts. *)
Example a_failed_check_ends_the_process :
  let w := sample_world_down_at (june1_0700 + 2000 + 120000) sample_air in
  let w' := with_rejection Warns w in
  forecast_fires (steps (H := isoHost) w 100 (main (H := isoHost) w june1_0700))
  = [] /\
  alert_fires (steps (H := isoHost) w 100 (main (H := isoHost) w june1_0700))
  = [june1_0700 + 2000 + 120000] /\
  ends (steps (H := isoHost) w 100 (main (H := isoHost) w june1_0700))
  = Some (june1_0700 + 2000 + 120000 + 2000) /\
  forecast_fires
    (steps (H := isoHost) w' 30 (main (H := isoHost) w' june1_0700))
  = [1590998400000].
Proof. vm_compute. repeat split; reflexivity. Qed.

(** A zone that changes its clocks has stretches without a change: in
    the zone of [backHost] the three days around 25 May 2020, 07:00:00,
    a week before the change. *)
Example a_steady_stretch :
  offset_between (H := backHost) 0
    (1590390000000 - msPerDay) (1590390000000 + 2 * msPerDay) /\
  timeLeft (H := backHost) 1590390000000 = Some 3600000.
Proof.
  split; [|vm_compute; reflexivity].
  split; intros x Hx; cbn [LocalTZA backHost];
    (destruct (x <? clock_change) eqn:E; [reflexivity|]);
    apply Z.ltb_ge in E; revert Hx E; unfold clock_change, msPerDay; lia.
Qed.

(** The aim follows the clocks.  In a zone whose clocks go back half an
    hour in the night, [main] started at 08:00:01 aims at 08:00:00 of
    the next day on the local clock, which is 24 hours, 29 minutes and
    59 seconds away. *)
Example startDate_over_a_clock_change :
  timeLeft (H := backHost) june1_0800_01 = Some 88199000 /\
  getHours (H := backHost) (june1_0800_01 + 88199000) = 8 /\
  getDate (H := backHost) (june1_0800_01 + 88199000) = 2.
Proof. vm_compute. repeat split; reflexivity. Qed.

(* ------------------------------------------------------------------ *)
(** * Further properties of the script *)

(** ** The fetchers *)

(** X1.  Whatever the API key, [getAirQualityData] asks the realtime
    endpoint for the coordinates, the six indicators and the key, in that
    order, and [getWeatherData] asks the hourly endpoint for the
    coordinates, SI units, the four weather fields and the key; each
    returns what the service answers, raises what it raises, and leaves
    the console and the outbox as they are. *)
Theorem fetchers_requests (env : Env) (s : Trace) :
  getAirQualityData env s
  = (fetch_json env (realtime_url (cc_key (config env))), s) /\
  getWeatherData env s
  = (fetch_json env (hourly_url (cc_key (config env))), s).
Proof. split; reflexivity. Qed.

(** ** Where the formatter of the weather raises *)

Lemma forEach_from_Normal_inv {A St} (f : A -> nat -> St -> completion St)
  l : forall i s r,
  forEach_from f l i s = Normal r ->
  Forall (fun e => exists j s0 r0, f e j s0 = Normal r0) l.
Proof.
  induction l as [|e t IH]; intros i s r; simpl; [constructor|].
  destruct (f e i s) as [s1|err] eqn:E; simpl; [|discriminate].
  intros Hr. constructor; [now exists i, s, s1 | now apply (IH _ _ _ Hr)].
Qed.

Lemma forEach_from_Throw_inv {A St} (f : A -> nat -> St -> completion St)
  l : forall i s err,
  forEach_from f l i s = Throw err ->
  exists e j s0, In e l /\ f e j s0 = Throw err.
Proof.
  induction l as [|e t IH]; intros i s err; simpl; [discriminate|].
  destruct (f e i s) as [s1|err1] eqn:E; simpl.
  - intros Hr. destruct (IH _ _ _ Hr) as (e' & j & s0 & Hin & Hf).
    exists e', j, s0. split; [now right | exact Hf].
  - intros [= <-]. exists e, i, s. split; [now left | exact E].
Qed.

Lemma js_get_Throw base name err :
  js_get base name = Throw err -> exists msg, err = TypeError msg.
Proof.
  unfold js_get. destruct (is_nullish base); [|discriminate].
  intros [= <-]. eexists. reflexivity.
Qed.

Section WeatherFormatterEdges.
Context {H : Host}.

Lemma formatWeatherData_each_Normal e i acc r :
  formatWeatherData_each e i acc = Normal r -> hourly_record e.
Proof.
  unfold formatWeatherData_each, js_get.
  repeat match goal with
  | |- context [is_nullish ?x] =>
      destruct (is_nullish x) eqn:?; cbn [cbind]; [discriminate|]
  end.
  intros _. unfold hourly_record, has_field. repeat split; assumption.
Qed.

Lemma formatWeatherData_each_Throw e i acc err :
  formatWeatherData_each e i acc = Throw err -> exists msg, err = TypeError msg.
Proof.
  unfold formatWeatherData_each.
  repeat match goal with
  | |- cbind (js_get ?b ?n) _ = _ -> _ =>
      destruct (js_get b n) eqn:?; cbn [cbind];
      [| intros [= <-]; eapply js_get_Throw; eassumption]
  end.
  discriminate.
Qed.

Lemma formatWeatherData_Normal_records data out :
  formatWeatherData data = Normal out -> Forall hourly_record data.
Proof.
  intros E. unfold formatWeatherData, forEach in E.
  apply forEach_from_Normal_inv in E.
  rewrite Forall_forall in *. intros e He.
  destruct (E e He) as (j & s0 & r0 & Hf).
  now apply (formatWeatherData_each_Normal _ _ _ _ Hf).
Qed.
End WeatherFormatterEdges.

(** X2.  [formatWeatherData] never skips a record and never leaves a
    hole.  Whenever it returns, every record of the list had the five
    fields [observation_time], [weather_code], [temp], [humidity] and
    [wind_speed], each other than [undefined] and [null], and there is
    one entry for each record.  A list with a record that lacks one of
    them makes it raise a [TypeError]; and it raises nothing but
    [TypeError]s. *)
Theorem formatWeatherData_partial {H : Host} (data : list JsVal) :
  (forall out, formatWeatherData data = Normal out ->
               Forall hourly_record data /\
               List.length out = List.length data) /\
  (~ Forall hourly_record data ->
   exists msg, formatWeatherData data = Throw (TypeError msg)) /\
  (forall err, formatWeatherData data = Throw err ->
               exists msg, err = TypeError msg).
Proof.
  assert (Hthrow : forall err, formatWeatherData data = Throw err ->
                               exists msg, err = TypeError msg).
  { intros err E. unfold formatWeatherData, forEach in E.
    apply forEach_from_Throw_inv in E as (e & j & s0 & _ & Hf).
    now apply (formatWeatherData_each_Throw _ _ _ _ Hf). }
  split; [|split; [|exact Hthrow]].
  - intros out E.
    pose proof (formatWeatherData_Normal_records _ _ E) as Hall.
    split; [exact Hall|].
    rewrite (formatWeatherData_mapi _ Hall) in E. injection E as <-.
    apply length_mapi_from.
  - intros Hnot. destruct (formatWeatherData data) as [out|err] eqn:E.
    + exfalso. apply Hnot. exact (formatWeatherData_Normal_records _ _ E).
    + destruct (Hthrow err eq_refl) as (msg & ->). now exists msg.
Qed.

Example formatWeatherData_missing_humidity :
  exists msg,
    formatWeatherData (H := isoHost)
      [hourly "2020-06-01T08:00:00.000Z" "clear" 15 68 2;
       JObj [("observation_time",
              JObj [("value", JStr "2020-06-01T10:00:00.000Z")]);
             ("weather_code", JObj [("value", JStr "cloudy")]);
             ("temp", reading (JNum (num_of_Z 18)) "C");
             ("wind_speed", reading (JNum (num_of_Z 3)) "m/s")]]
    = Throw (TypeError msg).
Proof. eexists. vm_compute. reflexivity. Qed.

Example formatWeatherData_invalid_time :
  exists o,
    formatWeatherData (H := isoHost) [hourly "yesterday" "clear" 15 68 2]
    = Normal [o] /\
    Weather.hour o = NaN /\ Weather.cid o = "wid0".
Proof. eexists. split; [vm_compute; reflexivity|]. split; reflexivity. Qed.

(** ** Where the filter of the forecast job returns *)

Lemma filter_c_Normal_inv {A} (p : A -> completion bool) l : forall d,
  filter_c p l = Normal d ->
  exists q, (forall e, In e l -> p e = Normal (q e)) /\ d = filter q l.
Proof.
  induction l as [|x r IH]; intros d; simpl.
  - intros [= <-]. exists (fun _ => false). split; [intros e []|reflexivity].
  - destruct (p x) as [b|err] eqn:Ex; simpl; [|discriminate].
    destruct (filter_c p r) as [r'|err] eqn:Er; simpl; [|discriminate].
    intros [= <-]. destruct (IH _ eq_refl) as (q & Hq & ->).
    exists (fun e => match p e with Normal c => c | Throw _ => false end).
    split.
    + intros e [<- | He]; [now rewrite Ex|]. rewrite (Hq e He). reflexivity.
    + assert (Hext : filter q r
                     = filter (fun e => match p e with
                                        | Normal c => c
                                        | Throw _ => false
                                        end) r)
        by (apply filter_ext_in; intros e He; now rewrite (Hq e He)).
      rewrite Ex, Hext. reflexivity.
Qed.

Section FilterEdges.
Context {H : Host}.
Variable env : Env.

Lemma desired_Normal e b :
  desired env e = Normal b ->
  has_field e "observation_time" /\ b = keeps env e.
Proof.
  intros E.
  assert (Hf : has_field e "observation_time").
  { unfold desired, js_get in E. unfold has_field.
    destruct (is_nullish e); [discriminate|]. cbn [cbind] in E.
    destruct (is_nullish (prop e "observation_time")); [discriminate|].
    reflexivity. }
  split; [exact Hf|]. rewrite (desired_keeps env e Hf) in E.
  now injection E.
Qed.

Lemma desired_Throw e err :
  desired env e = Throw err -> exists msg, err = TypeError msg.
Proof.
  unfold desired.
  destruct (js_get e "observation_time") as [o|err1] eqn:E1; cbn [cbind];
    [|intros [= <-]; eapply js_get_Throw; eassumption].
  destruct (js_get o "value") as [v|err2] eqn:E2; cbn [cbind];
    [|intros [= <-]; eapply js_get_Throw; eassumption].
  destruct (includes _ _); cbn [cbind]; discriminate.
Qed.
End FilterEdges.

Lemma filter_c_Throw_inv {A} (p : A -> completion bool) l : forall err,
  filter_c p l = Throw err -> exists e, In e l /\ p e = Throw err.
Proof.
  induction l as [|x r IH]; intros err; simpl; [discriminate|].
  destruct (p x) as [b|err1] eqn:Ex; simpl.
  - destruct (filter_c p r) as [r'|err2] eqn:Er; simpl; [discriminate|].
    intros [= <-]. destruct (IH _ eq_refl) as (e & He & Hp).
    exists e. split; [now right | exact Hp].
  - intros [= <-]. exists x. split; [now left | exact Ex].
Qed.

(** X3.  The filter of the forecast job.  Whenever it returns, the
    value fetched was an array all of whose records have an
    [observation_time], and the result is the records that pass the
    test, in the order of the array.  A value that is not an array (as
    the object of an error answer) and an array with a record without
    [observation_time] make it raise a [TypeError], and it raises
    nothing else.  A record whose observation time is a string that is
    not a date fails the test: it is dropped, not an error. *)
Theorem desiredWeatherData_returns {H : Host} (env : Env) (wd : JsVal) :
  (forall d,
      desiredWeatherData env wd = Normal d ->
      exists l,
        wd = JArr l /\
        Forall (fun e => has_field e "observation_time") l /\
        d = filter (keeps env) l) /\
  ((forall l, wd <> JArr l) ->
   exists msg, desiredWeatherData env wd = Throw (TypeError msg)) /\
  (forall l,
      wd = JArr l ->
      ~ Forall (fun e => has_field e "observation_time") l ->
      exists msg, desiredWeatherData env wd = Throw (TypeError msg)) /\
  (forall err, desiredWeatherData env wd = Throw err ->
               exists msg, err = TypeError msg) /\
  (forall e s,
      value_of e "observation_time" = JStr s -> Date_parse s = None ->
      desired env e = Normal false).
Proof.
  assert (Hnormal : forall d,
             desiredWeatherData env wd = Normal d ->
             exists l,
               wd = JArr l /\
               Forall (fun e => has_field e "observation_time") l /\
               d = filter (keeps env) l).
  { intros d. destruct wd as [| | | | |l|]; try discriminate. simpl.
    intros E. apply filter_c_Normal_inv in E as (q & Hq & ->).
    exists l. split; [reflexivity|]. split.
    - apply Forall_forall. intros e He.
      now destruct (desired_Normal env e _ (Hq e He)).
    - apply filter_ext_in. intros e He.
      now destruct (desired_Normal env e _ (Hq e He)). }
  assert (Hthrow : forall err, desiredWeatherData env wd = Throw err ->
                               exists msg, err = TypeError msg).
  { intros err. destruct wd as [| | | | |l|];
      try (intros [= <-]; eexists; reflexivity).
    simpl. intros E. apply filter_c_Throw_inv in E as (e & _ & He).
    now apply (desired_Throw env e). }
  split; [exact Hnormal|]. split; [|split; [|split; [exact Hthrow|]]].
  - intros Hnot. destruct wd as [| | | | |l|];
      try (eexists; reflexivity).
    now destruct (Hnot l).
  - intros l -> Hnot.
    destruct (desiredWeatherData env (JArr l)) as [d|err] eqn:E.
    + exfalso. apply Hnot.
      destruct (Hnormal d eq_refl) as (l' & [= <-] & Hall & _). exact Hall.
    + destruct (Hthrow err eq_refl) as (msg & ->). now exists msg.
  - intros e s He Hs.
    assert (Hf : has_field e "observation_time").
    { unfold has_field. unfold value_of in He.
      destruct (prop e "observation_time"); try discriminate He.
      reflexivity. }
    rewrite (desired_keeps env e Hf). unfold keeps. rewrite He.
    cbn [Date_of]. rewrite Hs. reflexivity.
Qed.

Example desiredWeatherData_error_answer :
  exists msg,
    desiredWeatherData (H := isoHost) (sample_env sample_air june1_0700)
      (JObj [("message", JStr "rate limit exceeded")])
    = Throw (TypeError msg).
Proof. eexists. reflexivity. Qed.

(** X4.  The filter and the formatter composed, as the forecast job
    composes them: when both return, the formatted list is as long as
    the filtered one, no longer than the fetched array, and every entry
    of it shows an hour among 8, 10, 12, 14, 16, 18, 20, 22. *)
Theorem forecast_entries_hours {H : Host} (env : Env) (wd : JsVal)
  (d : list JsVal) (fw : list Weather.entry) :
  desiredWeatherData env wd = Normal d ->
  formatWeatherData d = Normal fw ->
  List.length fw = List.length d /\
  (exists l, wd = JArr l /\ (List.length fw <= List.length l)%nat) /\
  forall o, In o fw ->
    exists h, In h [8; 10; 12; 14; 16; 18; 20; 22] /\
              Weather.hour o = num_of_Z h.
Proof.
  intros Hd Hfw.
  destruct wd as [| | | | |l|]; try discriminate. simpl in Hd.
  apply filter_c_Normal_inv in Hd as (q & Hq & ->).
  assert (Hrec : Forall hourly_record (filter q l)).
  { exact (formatWeatherData_Normal_records _ _ Hfw). }
  rewrite (formatWeatherData_mapi _ Hrec) in Hfw. injection Hfw as <-.
  rewrite length_mapi_from.
  split; [reflexivity|]. split.
  - exists l. split; [reflexivity | apply filter_length_le].
  - intros o Ho. apply In_nth_error in Ho as (i & Hi).
    rewrite nth_error_mapi_from in Hi.
    destruct (nth_error (filter q l) i) as [e|] eqn:Ee; [|discriminate].
    simpl in Hi. injection Hi as <-.
    apply nth_error_In in Ee. apply filter_In in Ee as [He Hqe].
    destruct (desired_Normal env e _ (Hq e He)) as [_ Hk].
    rewrite Hqe in Hk. symmetry in Hk.
    apply keeps_iff in Hk as (t & Ht & Hh & _).
    exists (getHours t). split; [exact Hh|].
    simpl. fold (value_of e "observation_time"). now rewrite Ht.
Qed.

Lemma forecast_entries_hours_witness :
  exists fw,
    formatWeatherData (H := isoHost) sample_desired = Normal fw /\
    List.length fw = 2%nat.
Proof.
  exists (mapi_from (weather_entry (H := isoHost)) sample_desired 0).
  split; [vm_compute; reflexivity|].
  destruct (forecast_entries_hours (H := isoHost)
              (sample_env sample_air june1_0700) (JArr sample_weather)
              sample_desired
              (mapi_from (weather_entry (H := isoHost)) sample_desired 0))
    as (Hlen & _); [vm_compute; reflexivity | vm_compute; reflexivity |].
  exact Hlen.
Defined.

(** ** How the jobs end *)

Section JobOutcomes.
Context {H : Host}.
Variable env : Env.

(** The stages of the forecast job, unfolded: each failing stage ends the
    job with its error, the console holding the first line only. *)
Lemma weatherForecastJob_stages s :
  weatherForecastJob env s
  = let s1 := said (Say "Acquiring the weather forecast") s in
    match fetch_json env (realtime_url (cc_key (config env))) with
    | Throw e => (Throw e, s1)
    | Normal aq =>
        match fetch_json env (hourly_url (cc_key (config env))) with
        | Throw e => (Throw e, s1)
        | Normal wd =>
            match desiredWeatherData env wd with
            | Throw e => (Throw e, s1)
            | Normal d =>
                match formatWeatherData d with
                | Throw e => (Throw e, s1)
                | Normal fw =>
                    match formatAirQualityData aq with
                    | Throw e => (Throw e, s1)
                    | Normal fa =>
                        let m := forecast_mail (config env) fw fa
                                   (toLocaleDateString (clock env)) in
                        let s2 := {| console := console s1;
                                     outbox := (outbox s ++ [m])%list |} in
                        match transport env m with
                        | Throw e => (Throw e, s2)
                        | Normal _ =>
                            (Normal tt,
                             said (Say "Weather forecast was sent via email")
                               s2)
                        end
                    end
                end
            end
        end
    end.
Proof.
  unfold weatherForecastJob, bind. cbn [console_log console_line].
  rewrite getAirQualityData_run.
  change (fst (getAirQualityData env no_trace))
    with (fetch_json env (realtime_url (cc_key (config env)))).
  destruct (fetch_json env (realtime_url _)) as [aq|e]; [|reflexivity].
  rewrite getWeatherData_run.
  change (fst (getWeatherData env no_trace))
    with (fetch_json env (hourly_url (cc_key (config env)))).
  destruct (fetch_json env (hourly_url _)) as [wd|e]; [|reflexivity].
  unfold lift.
  destruct (desiredWeatherData env wd) as [d|e]; [|reflexivity].
  destruct (formatWeatherData d) as [fw|e]; [|reflexivity].
  destruct (formatAirQualityData aq) as [fa|e]; [|reflexivity].
  unfold sendWeatherForecastEmail, sendMail.
  rewrite weather_attachments_map, air_attachments_map.
  cbv zeta.
  match goal with
  | |- context [transport env ?m] =>
      change m with (forecast_mail (config env) fw fa
                       (toLocaleDateString (clock env)))
  end.
  destruct (transport env _) as [[]|e]; reflexivity.
Qed.

Lemma airQualityAlertJob_stages s :
  airQualityAlertJob env s
  = let s1 := said (Say "Checking the air quality") s in
    match fetch_json env (realtime_url (cc_key (config env))) with
    | Throw e => (Throw e, s1)
    | Normal aq =>
        match formatAirQualityData aq with
        | Throw e => (Throw e, s1)
        | Normal fa =>
            match alertsFor thresholds fa with
            | [] =>
                (Normal tt,
                 said (Say "No air quality limit has been exceeded") s1)
            | selected =>
                let m := alert_mail (config env) selected in
                let s2 :=
                  {| console :=
                       console
                         (said (Say "An air quality limit has been exceeded")
                            s1);
                     outbox := (outbox s ++ [m])%list |} in
                match transport env m with
                | Throw e => (Throw e, s2)
                | Normal _ => (Normal tt, said (Say "Alert was sent") s2)
                end
            end
        end
    end.
Proof.
  unfold airQualityAlertJob, airQualityAlertJobWith, bind.
  cbn [console_log console_line].
  rewrite getAirQualityData_run.
  change (fst (getAirQualityData env no_trace))
    with (fetch_json env (realtime_url (cc_key (config env)))).
  destruct (fetch_json env (realtime_url _)) as [aq|e]; [|reflexivity].
  unfold lift.
  destruct (formatAirQualityData aq) as [fa|e]; [|reflexivity].
  destruct (alertsFor thresholds fa) as [|x r] eqn:Es; [reflexivity|].
  cbn [List.length Nat.ltb Nat.leb].
  unfold sendAirQualityEmailAlert, sendMail.
  rewrite air_attachments_map. cbv zeta.
  match goal with
  | |- context [transport env ?m] =>
      change m with (alert_mail (config env) (x :: r))
  end.
  destruct (transport env _) as [[]|e]; reflexivity.
Qed.
End JobOutcomes.


(** X5.  A run of the forecast job completes normally only when it has
    handed one mail to the transport and the transport has accepted it;
    it then prints its two lines.  When it raises, it has printed its
    first line only and has handed over no mail, or the one mail whose
    refusal it raises.  An error of either fetch is raised as it is,
    before any mail. *)
Theorem weatherForecastJob_outcome {H : Host} (env : Env) (s : Trace) :
  let r := fst (weatherForecastJob env s) in
  let s' := snd (weatherForecastJob env s) in
  (r = Normal tt ->
   console s'
   = (console s ++ [Say "Acquiring the weather forecast";
                    Say "Weather forecast was sent via email"])%list /\
   exists m, outbox s' = (outbox s ++ [m])%list /\
             transport env m = Normal tt) /\
  (forall e, r = Throw e ->
     console s' = (console s ++ [Say "Acquiring the weather forecast"])%list /\
     (outbox s' = outbox s \/
      exists m, outbox s' = (outbox s ++ [m])%list /\
                transport env m = Throw e)) /\
  (forall e,
      fetch_json env (realtime_url (cc_key (config env))) = Throw e ->
      r = Throw e /\ outbox s' = outbox s) /\
  (forall aq e,
      fetch_json env (realtime_url (cc_key (config env))) = Normal aq ->
      fetch_json env (hourly_url (cc_key (config env))) = Throw e ->
      r = Throw e /\ outbox s' = outbox s).
Proof.
  intros r s'. subst r s'. rewrite weatherForecastJob_stages. cbv zeta.
  split; [|split; [|split]].
  - repeat match goal with
    | |- context [match ?c with Normal _ => _ | Throw _ => _ end] =>
        destruct c as [?|?] eqn:?; try discriminate
    end.
    intros _. simpl. split; [now rewrite <- app_assoc|].
    eexists. split; [reflexivity|].
    match goal with Ht : transport env _ = Normal ?u |- _ =>
      destruct u; exact Ht end.
  - intros e.
    repeat match goal with
    | |- context [match ?c with Normal _ => _ | Throw _ => _ end] =>
        destruct c as [?|?] eqn:?; try discriminate
    end; simpl; intros [= <-]; (split; [reflexivity|]);
      try (left; reflexivity).
    right. eexists. split; [reflexivity | eassumption].
  - intros e ->. split; reflexivity.
  - intros aq e -> ->. split; reflexivity.
Qed.

(** X6.  A run of the alert job completes normally in two ways only:
    nothing was over its limit and no mail was handed over, or one alert
    mail was handed over and accepted.  When it raises, it has handed
    over no mail, or the one mail whose refusal it raises.  An error of
    the fetch is raised as it is, and an answer that lacks an indicator
    makes the job raise a [TypeError]; in both cases before any mail. *)
Theorem airQualityAlertJob_outcome {H : Host} (env : Env) (s : Trace) :
  let r := fst (airQualityAlertJob env s) in
  let s' := snd (airQualityAlertJob env s) in
  (r = Normal tt ->
   (outbox s' = outbox s /\
    console s'
    = (console s ++ [Say "Checking the air quality";
                     Say "No air quality limit has been exceeded"])%list) \/
   (exists m, outbox s' = (outbox s ++ [m])%list /\
              transport env m = Normal tt /\
              console s'
              = (console s ++
                 [Say "Checking the air quality";
                  Say "An air quality limit has been exceeded";
                  Say "Alert was sent"])%list)) /\
  (forall e, r = Throw e ->
     outbox s' = outbox s \/
     exists m, outbox s' = (outbox s ++ [m])%list /\
               transport env m = Throw e) /\
  (forall e,
      fetch_json env (realtime_url (cc_key (config env))) = Throw e ->
      r = Throw e /\ outbox s' = outbox s) /\
  (forall aq k,
      fetch_json env (realtime_url (cc_key (config env))) = Normal aq ->
      In k AIR_QUALITY_INDICATOR -> is_nullish (prop aq k) = true ->
      (exists msg, r = Throw (TypeError msg)) /\ outbox s' = outbox s).
Proof.
  intros r s'. subst r s'. rewrite airQualityAlertJob_stages. cbv zeta.
  split; [|split; [|split]].
  - destruct (fetch_json env _) as [aq|e]; [|discriminate].
    destruct (formatAirQualityData aq) as [fa|e]; [|discriminate].
    destruct (alertsFor thresholds fa) as [|x l].
    + intros _. left. simpl. split; [reflexivity | now rewrite <- app_assoc].
    + destruct (transport env _) as [[]|e] eqn:Et; [|discriminate].
      intros _. right. eexists. split; [reflexivity|]. split; [exact Et|].
      simpl. now rewrite <- !app_assoc.
  - intros e.
    destruct (fetch_json env _) as [aq|e1];
      [|intros _; left; reflexivity].
    destruct (formatAirQualityData aq) as [fa|e1];
      [|intros _; left; reflexivity].
    destruct (alertsFor thresholds fa) as [|x l]; [discriminate|].
    destruct (transport env _) as [[]|e1] eqn:Et; [discriminate|].
    intros [= <-]. right. eexists. split; [reflexivity | exact Et].
  - intros e ->. split; reflexivity.
  - intros aq k -> Hk Hn.
    destruct (formatAirQualityData_throws aq k Hk Hn) as (msg & ->).
    split; [now exists msg | reflexivity].
Qed.

Example airQualityAlertJob_error_answer :
  (* the answer of the service to a bad key: an object with a message *)
  let env := {| config := sample_config;
                fetch_json := fun _ =>
                  Normal (JObj [("message", JStr "Forbidden")]);
                transport := fun _ => Normal tt;
                clock := june1_0700 |} in
  exists msg,
    airQualityAlertJob (H := isoHost) env no_trace
    = (Throw (TypeError msg),
       {| console := [Say "Checking the air quality"]; outbox := [] |}).
Proof. eexists. vm_compute. reflexivity. Qed.

(** ** What the formatter of the air quality reads *)

(** X7.  [formatAirQualityData] reads nothing of the answer but the six
    indicators: two objects that agree on them, whatever else they hold
    and in whatever order, are formatted alike, errors included. *)
Theorem formatAirQualityData_reads_indicators (o1 o2 : object) :
  (forall k, In k AIR_QUALITY_INDICATOR -> get_own o1 k = get_own o2 k) ->
  formatAirQualityData (JObj o1) = formatAirQualityData (JObj o2).
Proof.
  intros Hk.
  unfold formatAirQualityData, forEach, AIR_QUALITY_INDICATOR.
  cbn [forEach_from].
  unfold formatAirQualityData_each, js_get. cbn [is_nullish prop].
  unfold AIR_QUALITY_INDICATOR in Hk.
  rewrite (Hk "pm10"), (Hk "pm25"), (Hk "o3"), (Hk "no2"), (Hk "co"),
    (Hk "so2") by (simpl; tauto).
  reflexivity.
Qed.

Lemma formatAirQualityData_reads_indicators_witness :
  formatAirQualityData
    (JObj [("lat", JNum LAT); ("so2", reading (JNum (num_of_Z 3)) "ppb");
           ("co", reading (JNum (num_of_Z 8000)) "ppb");
           ("no2", reading (JNum (num_of_Z 100)) "ppb");
           ("o3", reading (JNum (num_of_Z 20)) "ppb");
           ("pm25", reading (JNum (num_of_Z 5)) "ug/m3");
           ("pm10", reading (JNum (num_of_Z 10)) "ug/m3");
           ("observation_time", JObj [("value", JStr "2020-06-01")])])
  = formatAirQualityData (air_readings 10 5 20 100 8000 3).
Proof.
  apply formatAirQualityData_reads_indicators.
  intros k Hk. unfold AIR_QUALITY_INDICATOR in Hk. simpl in Hk.
  repeat (destruct Hk as [<- | Hk]; [reflexivity|]). contradiction.
Defined.

(** ** More on the query builder *)

Lemma emit_prefix r p : exists rest, emit r p = r ++ rest.
Proof.
  unfold emit. destruct (last_char r) as [c|]; [|now eexists].
  destruct c as [[] [] [] [] [] [] [] []]; now eexists.
Qed.

Lemma fold_emit_prefix ps : forall r,
  exists rest, fold_left emit ps r = r ++ rest.
Proof.
  induction ps as [|p ps IH]; intros r; simpl.
  - exists "". now rewrite append_nil_r.
  - destruct (emit_prefix r p) as (x & ->).
    destruct (IH (r ++ x)) as (y & ->).
    exists (x ++ y). now rewrite append_assoc.
Qed.

(** X8.  Whatever the options, the query starts with the base and [?];
    the first parameter emitted follows the [?] directly, without [&];
    and with nothing to emit the query is the base and [?].  The options
    count only through the parameters they emit: entries whose value is
    neither a scalar nor an array, and elements of an array that are not
    scalars, leave no mark. *)
Theorem queryBuilder_shape (request : string) (options : object) :
  (exists rest, queryBuilder request options = request ++ "?" ++ rest) /\
  (params options = [] -> queryBuilder request options = request ++ "?") /\
  (forall p ps, params options = p :: ps ->
     exists rest, queryBuilder request options = request ++ "?" ++ p ++ rest) /\
  (forall options', params options' = params options ->
     queryBuilder request options' = queryBuilder request options).
Proof.
  rewrite queryBuilder_emit. split; [|split; [|split]].
  - destruct (fold_emit_prefix (params options) (request ++ "?"))
      as (rest & ->).
    exists rest. now rewrite append_assoc.
  - intros ->. reflexivity.
  - intros p ps ->. simpl.
    assert (He : emit (request ++ "?") p = (request ++ "?") ++ p).
    { unfold emit. rewrite last_char_append by discriminate. reflexivity. }
    rewrite He.
    destruct (fold_emit_prefix ps ((request ++ "?") ++ p)) as (rest & ->).
    exists rest. now rewrite !append_assoc.
  - intros options' E. now rewrite queryBuilder_emit, E.
Qed.

(** ** Numbers never glue two parameters *)

Lemma last_char_string_of_uint d :
  last_char (NilEmpty.string_of_uint d) <> Some "?"%char.
Proof.
  induction d; simpl; try discriminate;
    destruct (NilEmpty.string_of_uint d); try discriminate; exact IHd.
Qed.

Lemma last_char_NilZero_uint d :
  NilZero.string_of_uint d <> "" /\
  last_char (NilZero.string_of_uint d) <> Some "?"%char.
Proof.
  destruct d; (split; [discriminate|]); try discriminate;
    apply last_char_string_of_uint.
Qed.

Lemma last_char_string_of_Z z :
  string_of_Z z <> "" /\ last_char (string_of_Z z) <> Some "?"%char.
Proof.
  unfold string_of_Z. destruct (Z.to_int z) as [d|d]; simpl.
  - apply last_char_NilZero_uint.
  - destruct (last_char_NilZero_uint d) as [Hne Hl].
    split; [discriminate|].
    destruct (NilZero.string_of_uint d); [contradiction | exact Hl].
Qed.

Lemma last_char_Number_toString n :
  last_char (Number_toString n) <> Some "?"%char.
Proof.
  destruct n as [|m k]; [discriminate|]. unfold Number_toString.
  destruct (strip_zeros m k) as [m' k']. destruct k' as [|k'].
  - apply last_char_string_of_Z.
  - cbv zeta.
    set (fp := string_of_Z (Z.abs m' mod 10 ^ Z.of_nat (S k'))).
    destruct (last_char_string_of_Z (Z.abs m' mod 10 ^ Z.of_nat (S k')))
      as [Hne Hl]. fold fp in Hne, Hl.
    rewrite !last_char_append; trivial.
    + destruct (repeat_string "0" (S k' - String.length fp)), fp;
        simpl; congruence.
    + discriminate.
    + destruct (string_of_Z (Z.abs m' / 10 ^ Z.of_nat (S k'))); discriminate.
Qed.

Lemma params_of_emitted key v :
  params_of key v = map (param key) (emitted_values v).
Proof. destruct v; reflexivity. Qed.

(** X9.  Only a string that ends with a question mark can glue two
    parameters: a number never does.  When no string among the options
    and the elements of their arrays ends with a question mark, the
    query is the base, [?], and the parameters joined by [&]: one
    [key=value] for a number or string, one [key=element] for each
    number or string of an array, in the order of the keys and of the
    elements. *)
Theorem queryBuilder_plain_values request options :
  (forall key s,
      In key (keys options) ->
      In (JStr s) (emitted_values (get_own options key)) ->
      last_char s <> Some "?"%char) ->
  queryBuilder request options = request ++ "?" ++ join "&" (params options).
Proof.
  intros Hs. apply queryBuilder_joined. intros p Hp.
  unfold params in Hp. apply in_flat_map in Hp as (key & Hkey & Hp).
  rewrite params_of_emitted in Hp. apply in_map_iff in Hp as (v & <- & Hv).
  assert (Hsc : is_scalar v = true).
  { destruct (get_own options key); simpl in Hv; try contradiction.
    - destruct Hv as [<- | []]. reflexivity.
    - destruct Hv as [<- | []]. reflexivity.
    - now apply filter_In in Hv. }
  unfold param. destruct v as [| | |n|s| |]; try discriminate.
  - rewrite last_char_append by discriminate.
    pose proof (last_char_Number_toString n) as Hn. simpl.
    destruct (Number_toString n); [discriminate | exact Hn].
  - pose proof (Hs key s Hkey Hv) as Hl.
    rewrite last_char_append by discriminate. simpl.
    destruct s; [discriminate | exact Hl].
Qed.

Lemma queryBuilder_plain_values_witness :
  queryBuilder "u" [("a", JNum (num_of_Z 1)); ("n", JNull);
                    ("b", JArr [JStr "x"; JBool true; JStr "y"])]
  = "u?a=1&b=x&b=y".
Proof.
  rewrite queryBuilder_plain_values; [reflexivity|].
  intros key s Hkey Hv. simpl in Hkey.
  destruct Hkey as [<- | [<- | [<- | []]]]; simpl in Hv.
  - destruct Hv as [Hv | []]. discriminate.
  - contradiction.
  - destruct Hv as [[= <-] | [[= <-] | []]]; discriminate.
Defined.

(** ** More on the scheduler *)

Lemma alert_fires_snoc s s' t c :
  fired s' = (fired s ++ [(t, c)])%list ->
  alert_fires s'
  = (alert_fires s ++ if is_forecast c then [] else [t])%list.
Proof.
  unfold alert_fires. intros ->. rewrite filter_app, map_app. simpl.
  destruct (is_forecast c); reflexivity.
Qed.

Lemma every_two_minutes_S t j :
  every_two_minutes t (S j)
  = (every_two_minutes t j ++ [t + (Z.of_nat j + 1) * 120000])%list.
Proof. unfold every_two_minutes. rewrite seq_S, map_app. reflexivity. Qed.

Section SchedulerEdges.
Context {H : Host}.
Variable w : World.

Lemma steps_idle k s : timers s = [] -> steps w k s = s.
Proof.
  intros Ht. induction k as [|k IH]; simpl; [reflexivity|].
  unfold step. rewrite Ht. simpl. exact IH.
Qed.
End SchedulerEdges.

(** X10.  When the transport is not ready at startup, [main] prints the
    error and arms no timer: whatever the number of turns of the loop,
    no job ever runs and no mail is ever handed over. *)
Theorem main_not_ready {H : Host} (w : World) (t : Z) (e : JsError) :
  smtp_ready w = Throw e ->
  forall k,
    steps w k (main w t) = main w t /\
    timers (main w t) = [] /\ fired (main w t) = [] /\
    trace (main w t) = {| console := [SayError e]; outbox := [] |}.
Proof.
  intros Hr k.
  assert (Hm : main w t
               = say (SayError e)
                   {| now := t; next_id := 0%nat; timers := []; fired := [];
                      trace := no_trace; ends := None |})
    by (unfold main; now rewrite Hr).
  split; [apply steps_idle; now rewrite Hm|].
  rewrite Hm. repeat split; reflexivity.
Qed.

Lemma main_not_ready_witness :
  let w := {| world_config := sample_config;
              answer := fun _ => sample_answer sample_air;
              smtp := fun _ _ => Normal tt;
              forecast_time := fun _ => 3000%N;
              alert_time := fun _ => 2000%N;
              smtp_ready := Throw (MailError "connection refused");
              on_rejection := Exits |} in
  fired (steps (H := isoHost) w 100 (main (H := isoHost) w june1_0700)) = [].
Proof.
  intros w.
  destruct (main_not_ready (H := isoHost) w june1_0700
              (MailError "connection refused") eq_refl 100%nat)
    as (-> & _ & Hf & _).
  exact Hf.
Defined.

Lemma timer_delay_short x :
  0 <= x < msPerDay -> timer_delay (Some x) = Z.max 1 x.
Proof.
  unfold msPerDay. intros Hx. unfold timer_delay.
  destruct (1 <=? x) eqn:E1; simpl.
  - apply Z.leb_le in E1.
    assert (E2 : (x <=? 2147483647) = true) by (apply Z.leb_le; lia).
    rewrite E2. lia.
  - apply Z.leb_gt in E1. lia.
Qed.

(** X11.  Started on a stretch without a change of the clocks (from the
    day before to two days after), [main] aims the first forecast at
    08:00:00 local time, of the day or of the next day, with the
    milliseconds of the clock: at an instant that is not before the
    startup and less than 24 hours after it.  The timeout is due at that
    instant, or one millisecond after the startup when the two
    coincide. *)
Theorem first_forecast_within_a_day {H : Host} (t tz : Z) :
  Z.abs t <= 8640000000000000 - 2 * msPerDay ->
  offset_between tz (t - msPerDay) (t + 2 * msPerDay) ->
  exists day,
    (day = Day (LocalTime t) \/ day = Day (LocalTime t) + 1) /\
    startDate t = Some (eight_on t day) /\
    t <= eight_on t day < t + msPerDay /\
    timeLeft t = Some (eight_on t day - t) /\
    t + timer_delay (timeLeft t) = Z.max (t + 1) (eight_on t day).
Proof.
  intros Hrange Hz.
  pose proof (msFromTime_bounds (LocalTime t)) as Hms.
  pose proof (TimeWithinDay_bounds (LocalTime t)) as Htwd.
  assert (Hstart :
            (startDate t = Some (eight_on t (Day (LocalTime t))) /\
             t <= eight_on t (Day (LocalTime t))) \/
            (startDate t = Some (eight_on t (Day (LocalTime t) + 1)) /\
             eight_on t (Day (LocalTime t)) < t)).
  { unfold startDate, eight_on.
    rewrite (UTC_MakeDate_today tz t Hz), (UTC_MakeDate_tomorrow tz t Hz).
    rewrite (setHours_8 tz _ _ t Hz) by (revert Hrange; unfold msPerDay; lia).
    unfold passed. destruct (_ <? t) eqn:E.
    - right. apply Z.ltb_lt in E. split; [|exact E].
      rewrite (setDate_tomorrow tz _ _ t Hz)
        by (revert Hrange; unfold msPerDay; lia).
      rewrite (setHours_8 tz _ _ (t + msPerDay) Hz)
        by (revert Hrange; unfold msPerDay; lia).
      destruct (LocalTime_next_day tz _ _ t Hz) as (-> & -> & _);
        [unfold msPerDay; lia | unfold msPerDay; lia |].
      reflexivity.
    - left. apply Z.ltb_ge in E. split; [reflexivity | exact E]. }
  assert (Hbounds :
            forall day, startDate t = Some (eight_on t day) ->
              t <= eight_on t day < t + msPerDay ->
              timeLeft t = Some (eight_on t day - t) /\
              t + timer_delay (timeLeft t) = Z.max (t + 1) (eight_on t day)).
  { intros day Hs Hb. unfold timeLeft. rewrite Hs. split; [reflexivity|].
    rewrite timer_delay_short by lia. lia. }
  destruct Hstart as [[Hs Hle] | [Hs Hlt]].
  - exists (Day (LocalTime t)). split; [now left|]. split; [exact Hs|].
    assert (Hb : t <= eight_on t (Day (LocalTime t)) < t + msPerDay).
    { split; [exact Hle|]. unfold eight_on.
      rewrite (UTC_MakeDate_today tz t Hz).
      revert Hms Htwd.
      unfold MakeTime, msPerDay, msPerHour, msPerMinute, msPerSecond. lia. }
    split; [exact Hb | now apply Hbounds].
  - exists (Day (LocalTime t) + 1). split; [now right|]. split; [exact Hs|].
    assert (Hb : t <= eight_on t (Day (LocalTime t) + 1) < t + msPerDay).
    { revert Hlt. unfold eight_on.
      rewrite (UTC_MakeDate_today tz t Hz), (UTC_MakeDate_tomorrow tz t Hz).
      revert Hms Htwd.
      unfold MakeTime, msPerDay, msPerHour, msPerMinute, msPerSecond. lia. }
    split; [exact Hb | now apply Hbounds].
Qed.

Lemma first_forecast_within_a_day_witness :
  exists day,
    startDate (H := isoHost) june1_0800_500
    = Some (eight_on (H := isoHost) june1_0800_500 day) /\
    june1_0800_500 + timer_delay (timeLeft (H := isoHost) june1_0800_500)
    = Z.max (june1_0800_500 + 1) (eight_on (H := isoHost) june1_0800_500 day).
Proof.
  destruct (first_forecast_within_a_day (H := isoHost) june1_0800_500 0)
    as (day & _ & Hs & _ & _ & Hd);
    [vm_compute; discriminate | split; intros x _; reflexivity |].
  exists day. split; [exact Hs | exact Hd].
Defined.

(** Without that proviso the aim can be more than a day away: in a zone
    whose clocks go back half an hour in the night, started at 08:00:01,
    the first forecast is 88199 seconds ahead. *)
Example first_forecast_over_a_clock_change :
  startDate (H := backHost) june1_0800_01
  = Some (eight_on (H := backHost) june1_0800_01
            (Day (LocalTime (H := backHost) june1_0800_01) + 1)) /\
  june1_0800_01 + msPerDay
  < eight_on (H := backHost) june1_0800_01
      (Day (LocalTime (H := backHost) june1_0800_01) + 1).
Proof. vm_compute. split; reflexivity. Qed.

Section TimelineEdges.
Context {H : Host}.
Variable w : World.

(** What [main] leaves in the loop, by the outcome of the alert job it
    awaits at startup. *)
Lemma main_after_alert t u :
  smtp_ready w = Normal u ->
  let T0 := {| timer_id := 0; due := t + timer_delay (timeLeft t);
               repeat := None; callback := ForecastFirst |} in
  let A0 := {| timer_id := 1; due := t + Z.of_N (alert_time w t) + 120000;
               repeat := Some 120000; callback := AlertAgain |} in
  now (main w t) = t /\ fired (main w t) = [] /\ ends (main w t) = None /\
  (((exists e,
        fst (airQualityAlertJob (env_at w t) (startup_trace t)) = Throw e /\
        trace (main w t)
        = said (SayError e)
            (snd (airQualityAlertJob (env_at w t) (startup_trace t)))) /\
    timers (main w t) = [T0] /\ next_id (main w t) = 1%nat) \/
   (fst (airQualityAlertJob (env_at w t) (startup_trace t)) = Normal tt /\
    timers (main w t) = [T0; A0] /\ next_id (main w t) = 2%nat)).
Proof.
  intros Hready T0 A0. unfold main. rewrite Hready.
  unfold run_job. cbn [now trace].
  match goal with
  | |- context [airQualityAlertJob ?e0 ?tr0] =>
      assert (Hq : airQualityAlertJob e0 tr0
                   = airQualityAlertJob (env_at w t) (startup_trace t))
        by reflexivity;
      destruct (airQualityAlertJob e0 tr0) as [[[]|err] tr1];
      simpl; (split; [reflexivity|]); (split; [reflexivity|]);
      (split; [reflexivity|]); rewrite <- Hq
  end.
  - right. repeat split; reflexivity.
  - left. split; [exists err; split; reflexivity|]. split; reflexivity.
Qed.

Lemma alert_never_step s : alert_never s -> alert_never (step w s).
Proof.
  intros (Hfires & [Ht | [(T & Ht & Hc & Hr) | (F & p & Ht & Hc & Hr)]]).
  - unfold step. rewrite Ht. simpl. split; [exact Hfires | now left].
  - assert (He : earliest (timers s) = Some T) by now rewrite Ht.
    destruct (ended s (Z.max (now s) (due T))) eqn:Hx.
    { rewrite (step_ended w s T He Hx). split; [exact Hfires|].
      right. left. exists T. repeat split; assumption. }
    destruct (step_forecast_first_any w s T He Hc Hx)
      as (_ & Hf & [(_ & Htim & _) | (_ & Htim & _)]);
      rewrite Ht, (rearm_timeout_alone _ _ Hr) in Htim;
      (split; [rewrite (alert_fires_snoc _ _ _ _ Hf), Hfires; reflexivity|]).
    + now left.
    + right. right. eexists. exists oneDayInMs.
      split; [exact Htim|]. split; reflexivity.
  - assert (He : earliest (timers s) = Some F) by now rewrite Ht.
    destruct (ended s (Z.max (now s) (due F))) eqn:Hx.
    { rewrite (step_ended w s F He Hx). split; [exact Hfires|].
      right. right. exists F, p. repeat split; assumption. }
    destruct (step_forecast_again w s F He Hc Hx) as (_ & _ & Htim & Hf & _).
    rewrite Ht, (rearm_interval_alone _ _ _ Hr) in Htim.
    split; [rewrite (alert_fires_snoc _ _ _ _ Hf), Hfires; reflexivity|].
    right. right. eexists. exists p. split; [exact Htim|]. split; assumption.
Qed.

Lemma alert_never_steps k : forall s, alert_never s -> alert_never (steps w k s).
Proof.
  induction k as [|k IH]; intros s Hs; simpl; [exact Hs|].
  apply IH. now apply alert_never_step.
Qed.
End TimelineEdges.

(** X12.  When the alert job that [main] awaits at startup raises, the
    [catch] of [main] prints the error after the lines of the job, and
    the interval of the alert is never set: the timeout of the first
    forecast stays armed and fires at its instant, but whatever the
    number of turns of the loop no alert check ever runs again. *)
Theorem alert_timeline_lost {H : Host} (w : World) (t : Z) :
  smtp_ready w = Normal tt ->
  (forall tr, exists e,
      fst (airQualityAlertJob (env_at w t) tr) = Throw e) ->
  let first := t + timer_delay (timeLeft t) in
  (exists e,
      fst (airQualityAlertJob (env_at w t) (startup_trace t)) = Throw e /\
      trace (main w t)
      = said (SayError e)
          (snd (airQualityAlertJob (env_at w t) (startup_trace t)))) /\
  timers (main w t)
  = [{| timer_id := 0; due := first;
        repeat := None; callback := ForecastFirst |}] /\
  forecast_fires (steps w 1 (main w t)) = [first] /\
  forall k, alert_fires (steps w k (main w t)) = [].
Proof.
  intros Hready Hfail first.
  destruct (main_after_alert w t tt Hready)
    as (Hnow & Hfired & Hends & [(Hlog & Ht & _) | (Hok & _)]).
  - split; [exact Hlog|]. split; [exact Ht|]. split.
    + assert (He : earliest (timers (main w t))
                   = Some {| timer_id := 0; due := first;
                             repeat := None; callback := ForecastFirst |})
        by now rewrite Ht.
      destruct (step_forecast_first_any w (main w t) _ He eq_refl
                  (ended_None _ _ Hends)) as (_ & Hf & _).
      cbn [due] in Hf.
      pose proof (timer_delay_pos (timeLeft t)) as Hpos.
      rewrite Z.max_r in Hf by (rewrite Hnow; unfold first; lia).
      simpl. rewrite (forecast_fires_snoc _ _ _ _ Hf).
      unfold forecast_fires. now rewrite Hfired.
    + intros k. apply (alert_never_steps w k). split.
      * unfold alert_fires. now rewrite Hfired.
      * right. left. eexists. split; [exact Ht|]. split; reflexivity.
  - destruct (Hfail (startup_trace t)) as (e & He). congruence.
Qed.

Lemma alert_timeline_lost_witness :
  let w := sample_world_down_at june1_0700 sample_air in
  console (trace (main (H := isoHost) w june1_0700))
  = [Say "Server is ready to take our messages";
     SayForecastStart (Some 1590998400000) (Some 3600000);
     Say "Checking the air quality";
     SayError (FetchError "service unavailable")] /\
  forecast_fires (steps (H := isoHost) w 1 (main (H := isoHost) w june1_0700))
  = [1590998400000] /\
  alert_fires (steps (H := isoHost) w 50 (main (H := isoHost) w june1_0700))
  = [].
Proof.
  intros w.
  destruct (alert_timeline_lost (H := isoHost) w june1_0700)
    as ((e & He & Htr) & _ & Hff & Hk);
    [reflexivity | intros tr; eexists; reflexivity |].
  vm_compute in He. injection He as <-.
  split; [rewrite Htr; vm_compute; reflexivity|].
  split; [exact Hff | apply Hk].
Defined.

Section LostForecast.
Context {H : Host}.
Variable w : World.
Variable first : Z.
Hypothesis Hfail :
  forall tr, exists e, fst (weatherForecastJob (env_at w first) tr) = Throw e.

(** The instant at which the process ends never moves later. *)
Lemma ends_step s x :
  ends s = Some x -> exists x', ends (step w s) = Some x' /\ x' <= x.
Proof.
  intros Hx. unfold step.
  destruct (earliest (timers s)) as [tm|]; [|exists x; split; [exact Hx|lia]].
  destruct (ended s _); [exists x; split; [exact Hx|lia]|].
  unfold run_callback, run_job. cbn [now trace].
  destruct (callback tm);
    match goal with
    | |- context [weatherForecastJob ?e0 ?tr0] =>
        destruct (weatherForecastJob e0 tr0) as [[[]|e] tr]
    | |- context [airQualityAlertJob ?e0 ?tr0] =>
        destruct (airQualityAlertJob e0 tr0) as [[[]|e] tr]
    end; cbn; try (exists x; split; [exact Hx|lia]);
    destruct (on_rejection w); cbn; rewrite ?Hx;
    eexists; (split; [reflexivity || exact Hx|]); lia.
Qed.

Lemma forecast_once_step s :
  forecast_once first s ->
  (on_rejection w = Exits ->
   ends_by first (first + Z.of_N (forecast_time w first)) s) ->
  forecast_once first (step w s) /\
  (on_rejection w = Exits ->
   ends_by first (first + Z.of_N (forecast_time w first)) (step w s)).
Proof.
  intros Honce Hby.
  (* a turn that changes nothing *)
  assert (Hsame : step w s = s ->
                  forecast_once first (step w s) /\
                  (on_rejection w = Exits ->
                   ends_by first (first + Z.of_N (forecast_time w first))
                     (step w s)))
    by (intros ->; split; assumption).
  (* the turn of the first forecast *)
  assert (Hturn : forall T rest,
             forecast_fires s = [] -> now s <= first ->
             callback T = ForecastFirst -> due T = first ->
             earliest (timers s) = Some T ->
             rearm T first (timers s) = rest ->
             (rest = [] \/
              exists A p, rest = [A] /\ callback A = AlertAgain /\
                          repeat A = Some p) ->
             forecast_once first (step w s) /\
             (on_rejection w = Exits ->
              ends_by first (first + Z.of_N (forecast_time w first))
                (step w s))).
  { intros T rest Hff Hnow Hc Hd He Hrest Hshape.
    destruct (ended s (Z.max (now s) (due T))) eqn:Hx;
      [apply Hsame; now apply (step_ended w s T He)|].
    destruct (step_forecast_first_any w s T He Hc Hx)
      as (_ & Hf & [(_ & Htim & _ & _ & Hexit) | (Hok & _)]).
    - rewrite Hd, Z.max_r in Hf, Htim, Hexit by exact Hnow.
      assert (Hff1 : forecast_fires (step w s) = [first])
        by (rewrite (forecast_fires_snoc _ _ _ _ Hf), Hff; reflexivity).
      split.
      + right. split; [exact Hff1|]. rewrite Htim, Hrest. exact Hshape.
      + intros Hm. destruct (Hby Hm) as [Halerts _]. split.
        * intros y. rewrite (alert_fires_snoc _ _ _ _ Hf). simpl.
          rewrite app_nil_r. apply Halerts.
        * intros _. now apply Hexit.
    - rewrite Hd, Z.max_r in Hok by exact Hnow.
      destruct (Hfail (trace s)) as (e & Hthrow). congruence. }
  (* the turn of an alert, at an instant not after [limit] *)
  assert (Hquiet : forall A t',
             callback A = AlertAgain ->
             fired (step w s) = (fired s ++ [(t', AlertAgain)])%list ->
             (on_rejection w = Exits ->
              (forecast_fires s = [] /\ t' <= first) \/
              (exists x, ends s = Some x /\ ended s t' = false /\
                         x <= first + Z.of_N (forecast_time w first))) ->
             on_rejection w = Exits ->
             ends_by first (first + Z.of_N (forecast_time w first))
               (step w s)).
  { intros A t' Hc Hf Hcase Hm. destruct (Hby Hm) as [Halerts Hend]. split.
    - intros y. rewrite (alert_fires_snoc _ _ _ _ Hf). simpl.
      intros Hy. apply in_app_or in Hy as [Hy | [<- | []]];
        [now apply Halerts|].
      destruct (Hcase Hm) as [[_ Hle] | (x & Hx & Hnot & Hle)]; [lia|].
      unfold ended in Hnot. rewrite Hx in Hnot.
      apply Z.ltb_ge in Hnot. lia.
    - rewrite (forecast_fires_snoc _ _ _ _ Hf). simpl. rewrite app_nil_r.
      intros Hff. destruct (Hend Hff) as (x & Hx & Hle).
      destruct (ends_step s x Hx) as (x' & Hx' & Hle').
      exists x'. split; [exact Hx' | lia]. }
  destruct Honce as [(Hff & Hnow & T & Hc & Hr & Hd & Hshape) | (Hff & Hshape)].
  - destruct Hshape as [Ht | (A & p & Ht & HcA & HrA & Hid)].
    + apply (Hturn T []); try assumption.
      * now rewrite Ht.
      * rewrite Ht. now apply rearm_timeout_alone.
      * now left.
    + destruct (due A <? due T) eqn:E.
      * assert (He : earliest (timers s) = Some A)
          by (rewrite Ht; simpl; now rewrite E).
        apply Z.ltb_lt in E.
        destruct (ended s (Z.max (now s) (due A))) eqn:Hx;
          [apply Hsame; now apply (step_ended w s A He)|].
        destruct (step_alert w s A He HcA Hx) as (Hn1 & _ & Htim & Hf & _).
        rewrite Ht, (rearm_interval_pair_snd _ _ _ _ HrA Hid) in Htim.
        split.
        -- left. split;
             [rewrite (forecast_fires_snoc _ _ _ _ Hf), Hff; reflexivity|].
           split; [rewrite Hn1; lia|].
           exists T. split; [exact Hc|]. split; [exact Hr|].
           split; [exact Hd|].
           right. eexists. exists p. split; [exact Htim|].
           split; [exact HcA|]. split; [exact HrA | exact Hid].
        -- apply (Hquiet A _ HcA Hf). intros _. left.
           split; [exact Hff | lia].
      * apply (Hturn T [A]); try assumption.
        -- rewrite Ht. simpl. now rewrite E.
        -- rewrite Ht. apply rearm_timeout_pair; [exact Hr | exact Hid].
        -- right. exists A, p. repeat split; assumption.
  - destruct Hshape as [Ht | (A & p & Ht & HcA & HrA)].
    + apply Hsame. unfold step. now rewrite Ht.
    + assert (He : earliest (timers s) = Some A) by now rewrite Ht.
      destruct (ended s (Z.max (now s) (due A))) eqn:Hx;
        [apply Hsame; now apply (step_ended w s A He)|].
      destruct (step_alert w s A He HcA Hx) as (_ & _ & Htim & Hf & _).
      rewrite Ht, (rearm_interval_alone _ _ _ HrA) in Htim.
      split.
      * right.
        split; [rewrite (forecast_fires_snoc _ _ _ _ Hf), Hff; reflexivity|].
        right. eexists. exists p. split; [exact Htim|]. split; assumption.
      * apply (Hquiet A _ HcA Hf). intros Hm. right.
        destruct (Hby Hm) as [_ Hend].
        destruct (Hend Hff) as (x & Hxs & Hle).
        exists x. repeat split; assumption.
Qed.

Lemma forecast_once_steps k : forall s,
  forecast_once first s ->
  (on_rejection w = Exits ->
   ends_by first (first + Z.of_N (forecast_time w first)) s) ->
  forecast_once first (steps w k s) /\
  (on_rejection w = Exits ->
   ends_by first (first + Z.of_N (forecast_time w first)) (steps w k s)).
Proof.
  induction k as [|k IH]; intros s Honce Hby; simpl; [now split|].
  destruct (forecast_once_step s Honce Hby) as [Honce1 Hby1].
  now apply IH.
Qed.
End LostForecast.

(** X13.  When the run of the first forecast raises, its callback ends
    before it sets the interval.  As long as no alert job ends the
    process before, the forecast starts at the instant its timeout is
    due; whatever the number of turns of the loop it never starts again;
    and where the runtime exits on the unhandled rejection, the whole
    process ends with it: no alert check starts after the instant at
    which the failed run has settled. *)
Theorem forecast_timeline_lost {H : Host} (w : World) (t : Z) :
  smtp_ready w = Normal tt ->
  let first := t + timer_delay (timeLeft t) in
  (forall tr, exists e,
      fst (weatherForecastJob (env_at w first) tr) = Throw e) ->
  (alerts_settle w ->
   exists k, forecast_fires (steps w k (main w t)) = [first]) /\
  (forall k,
      forecast_fires (steps w k (main w t)) = [] \/
      forecast_fires (steps w k (main w t)) = [first]) /\
  (on_rejection w = Exits ->
   forall k x,
     In x (alert_fires (steps w k (main w t))) ->
     x <= first + Z.of_N (forecast_time w first)).
Proof.
  intros Hready first Hfail.
  assert (Hinv : forall k,
             forecast_once first (steps w k (main w t)) /\
             (on_rejection w = Exits ->
              ends_by first (first + Z.of_N (forecast_time w first))
                (steps w k (main w t)))).
  { intros k.
    destruct (main_timers w t tt Hready) as (Hnow & Hfired & _ & Hshape).
    assert (Hff0 : forecast_fires (main w t) = [])
      by (unfold forecast_fires; now rewrite Hfired).
    apply (forecast_once_steps w first Hfail).
    - left. split; [exact Hff0|].
      split; [rewrite Hnow; pose proof (timer_delay_pos (timeLeft t));
              unfold first; lia|].
      eexists. split; [|split; [|split]];
        [| | | destruct Hshape as [[Ht _] | [Ht _]];
               [left; exact Ht
               | right; eexists; exists 120000; split; [exact Ht|];
                 split; [reflexivity|]; split; [reflexivity|];
                 simpl; discriminate]];
        reflexivity.
    - intros _. split.
      + unfold alert_fires. rewrite Hfired. intros y [].
      + rewrite Hff0. discriminate. }
  split; [|split].
  - intros Halerts. apply (main_first_fire w t tt Hready Halerts).
  - intros k. destruct (Hinv k) as [[(Hff & _) | (Hff & _)] _];
      [now left | now right].
  - intros Hm k x Hx. destruct (Hinv k) as [_ Hby].
    destruct (Hby Hm) as [Halerts _]. now apply Halerts.
Qed.

Lemma forecast_timeline_lost_witness :
  let w := sample_world_no_forecast_at 1590998400000 sample_air in
  (exists k,
      forecast_fires (steps (H := isoHost) w k (main (H := isoHost) w june1_0700))
      = [1590998400000]) /\
  forall k x,
    In x (alert_fires
            (steps (H := isoHost) w k (main (H := isoHost) w june1_0700))) ->
    x <= 1590998400000 + 3000.
Proof.
  intros w.
  destruct (forecast_timeline_lost (H := isoHost) w june1_0700)
    as (Hfirst & _ & Hend);
    [reflexivity
    | intros tr; exists (FetchError "service unavailable");
      vm_compute; reflexivity |].
  split.
  - destruct Hfirst as (k & Hk); [intros _ s tr; vm_compute; reflexivity|].
    exists k. exact Hk.
  - intros k x. apply (Hend eq_refl k x).
Defined.

(** Where the hourly forecast is down at 08:00:00 the first forecast
    fails and has settled at 08:00:03: on a runtime that exits, the
    check of 08:00:02 is the last one to start. *)
Example the_last_check_of_the_sample :
  let w := sample_world_no_forecast_at 1590998400000 sample_air in
  let s := steps (H := isoHost) w 200 (main (H := isoHost) w june1_0700) in
  List.length (alert_fires s) = 30%nat /\
  last (alert_fires s) 0 = 1590998402000 /\
  ends s = Some 1590998403000.
Proof. vm_compute. repeat split; reflexivity. Qed.

Section AlertTimeline.
Context {H : Host}.
Variable w : World.
Hypothesis Halerts : alerts_settle w.
Hypothesis Hforecasts : forecasts_settle w.

(** The interval of the alert fires when nothing is due before it. *)
Lemma alert_armed_fire t j s A :
  alert_fires s = every_two_minutes t j -> ends s = None ->
  earliest (timers s) = Some A ->
  callback A = AlertAgain -> repeat A = Some 120000 ->
  due A = t + (Z.of_nat j + 1) * 120000 ->
  now s <= due A ->
  let A' := {| timer_id := timer_id A; due := due A + 120000;
               repeat := repeat A; callback := callback A |} in
  alert_fires (step w s) = every_two_minutes t (S j) /\
  ends (step w s) = None /\
  due A' = t + (Z.of_nat (S j) + 1) * 120000 /\
  now (step w s) = due A /\
  next_id (step w s) = next_id s /\
  timers (step w s) = rearm A (due A) (timers s).
Proof.
  intros Hfires Hends He Hc Hr Hd Hn A'.
  destruct (step_alert w s A He Hc (ended_None _ _ Hends))
    as (Hn1 & Hid1 & Htim & Hf & Hquiet).
  rewrite Z.max_r in Hn1, Htim, Hf by exact Hn.
  split; [rewrite (alert_fires_snoc _ _ _ _ Hf), Hfires, every_two_minutes_S,
            Hd; reflexivity|].
  split; [rewrite Hquiet; [exact Hends | intros Hx; now apply Halerts]|].
  split; [simpl due; rewrite Hd, Nat2Z.inj_succ; lia|].
  repeat split; assumption.
Qed.

(** The interval of the forecast fires as long as it is due before the
    alert, and leaves the interval of the alert as it is. *)
Lemma forecasts_before_alert m : forall s A F p,
  ends s = None ->
  timers s = [A; F] -> callback F = ForecastAgain -> repeat F = Some p ->
  0 < p -> timer_id A <> timer_id F -> now s <= due A ->
  due A - due F <= Z.of_nat m * p ->
  exists n F',
    timers (steps w n s) = [A; F'] /\ callback F' = ForecastAgain /\
    repeat F' = Some p /\ timer_id F' = timer_id F /\
    due A <= due F' /\ now (steps w n s) <= due A /\
    alert_fires (steps w n s) = alert_fires s /\
    next_id (steps w n s) = next_id s /\
    ends (steps w n s) = None.
Proof.
  induction m as [|m IH]; intros s A F p Hends Ht Hc Hr Hp Hid HnA Hm.
  - exists 0%nat, F. simpl. repeat split; auto; lia.
  - destruct (due F <? due A) eqn:E.
    + assert (He : earliest (timers s) = Some F)
        by (rewrite Ht; simpl; now rewrite E).
      apply Z.ltb_lt in E.
      destruct (step_forecast_again w s F He Hc (ended_None _ _ Hends))
        as (Hnow & Hnid & Htim & Hfired & Hquiet).
      rewrite Ht, (rearm_interval_pair_snd _ _ _ _ Hr Hid) in Htim.
      rewrite Nat2Z.inj_succ, Z.mul_succ_l in Hm.
      assert (Hends1 : ends (step w s) = None)
        by (rewrite Hquiet; [exact Hends | intros Hx; now apply Hforecasts]).
      destruct (IH (step w s) A _ p Hends1 Htim Hc Hr Hp Hid)
        as (n & F' & H1 & H2 & H3 & H4 & H5 & H6 & H7 & H8 & H9);
        [rewrite Hnow; lia | simpl; lia |].
      exists (S n), F'. simpl.
      rewrite H7, H8, Hnid, (alert_fires_snoc _ _ _ _ Hfired).
      simpl. rewrite app_nil_r. repeat split; auto.
    + apply Z.ltb_ge in E. exists 0%nat, F. simpl.
      repeat split; auto; lia.
Qed.

Lemma alert_armed_next t j s :
  alert_armed t j s -> exists k, alert_armed t (S j) (steps w k s).
Proof.
  intros (Hfires & Hends & A & Hc & Hr & Hd & Hn & Hlt & Hshape).
  (* the alert fires at once from a state where it is the next timer *)
  assert (Hfire : forall s1,
             alert_fires s1 = every_two_minutes t j -> ends s1 = None ->
             now s1 <= due A ->
             (timer_id A < next_id s1)%nat ->
             (timers s1 = [A] \/
              exists F p, timers s1 = [A; F] /\ callback F = ForecastAgain /\
                          repeat F = Some p /\ 0 < p /\
                          timer_id A <> timer_id F /\ due A <= due F) ->
             alert_armed t (S j) (step w s1)).
  { intros s1 Hf1 He1 Hn1 Hlt1 Hsh.
    assert (He : earliest (timers s1) = Some A).
    { destruct Hsh as [-> | (F & p & -> & _ & _ & _ & _ & Hle)];
        [reflexivity|].
      simpl. destruct (due F <? due A) eqn:E; [|reflexivity].
      apply Z.ltb_lt in E. lia. }
    destruct (alert_armed_fire t j s1 A Hf1 He1 He Hc Hr Hd Hn1)
      as (Hf2 & He2 & Hd2 & Hn2 & Hid2 & Htim).
    split; [exact Hf2|]. split; [exact He2|].
    exists {| timer_id := timer_id A; due := due A + 120000;
              repeat := repeat A; callback := callback A |}.
    split; [exact Hc|]. split; [exact Hr|]. split; [exact Hd2|].
    split; [rewrite Hn2; simpl; lia|].
    split; [rewrite Hid2; exact Hlt1|].
    destruct Hsh as [Ht | (F & p & Ht & HcF & HrF & Hp & Hid & _)].
    - right. right. rewrite Htim, Ht. now apply rearm_interval_alone.
    - right. left. exists F, p.
      split; [rewrite Htim, Ht; now apply rearm_interval_pair_fst|].
      repeat split; assumption. }
  (* the forecasts due before the alert fire first *)
  assert (Hpair : forall s1 F p,
             alert_fires s1 = every_two_minutes t j -> ends s1 = None ->
             now s1 <= due A ->
             (timer_id A < next_id s1)%nat ->
             timers s1 = [A; F] -> callback F = ForecastAgain ->
             repeat F = Some p -> 0 < p ->
             timer_id A <> timer_id F ->
             exists k, alert_armed t (S j) (steps w k s1)).
  { intros s1 F p Hf1 He1 Hn1 Hlt1 Ht HcF HrF Hp Hid.
    destruct (forecasts_before_alert (Z.to_nat (due A - due F)) s1 A F p
                He1 Ht HcF HrF Hp Hid Hn1)
      as (n & F' & Ht' & HcF' & HrF' & HidF' & Hle & Hn' & Hf' & Hnid'
          & He').
    { assert (Hz : Z.of_nat (Z.to_nat (due A - due F))
                   = Z.max 0 (due A - due F)) by lia.
      rewrite Hz. nia. }
    exists (n + 1)%nat. rewrite steps_add. simpl. apply Hfire.
    - now rewrite Hf'.
    - exact He'.
    - exact Hn'.
    - now rewrite Hnid'.
    - right. exists F', p. split; [exact Ht'|]. split; [exact HcF'|].
      split; [exact HrF'|]. split; [exact Hp|].
      split; [congruence | exact Hle]. }
  destruct Hshape as [(T & Ht & HcT & HrT & Hid)
                     | [(F & p & Ht & HcF & HrF & Hp & Hid) | Ht]].
  - destruct (due A <? due T) eqn:E.
    + assert (He : earliest (timers s) = Some A)
        by (rewrite Ht; simpl; now rewrite E).
      destruct (alert_armed_fire t j s A Hfires Hends He Hc Hr Hd Hn)
        as (Hf2 & He2 & Hd2 & Hn2 & Hid2 & Htim).
      exists 1%nat. simpl. split; [exact Hf2|]. split; [exact He2|].
      exists {| timer_id := timer_id A; due := due A + 120000;
                repeat := repeat A; callback := callback A |}.
      split; [exact Hc|]. split; [exact Hr|]. split; [exact Hd2|].
      split; [rewrite Hn2; simpl; lia|].
      split; [rewrite Hid2; exact Hlt|].
      left. exists T.
      split; [rewrite Htim, Ht; now apply rearm_interval_pair_snd|].
      repeat split; assumption.
    + assert (He : earliest (timers s) = Some T)
        by (rewrite Ht; simpl; now rewrite E).
      apply Z.ltb_ge in E.
      destruct (step_forecast_first_any w s T He HcT (ended_None _ _ Hends))
        as (Hn2 & Hf2 & [((e & Hthrow) & Htim & Hid2 & Hwarn & _)
                        | (_ & Htim & Hid2 & Hends2)]);
        rewrite Ht, (rearm_timeout_pair _ _ _ HrT Hid) in Htim.
      * assert (Hends2 : ends (step w s) = None).
        { destruct (on_rejection w) eqn:Em.
          - rewrite Hwarn; [exact Hends | reflexivity].
          - rewrite (Hforecasts Em) in Hthrow. discriminate Hthrow. }
        exists 2%nat. simpl. apply Hfire.
        -- rewrite (alert_fires_snoc _ _ _ _ Hf2), Hfires. simpl.
           now rewrite app_nil_r.
        -- exact Hends2.
        -- rewrite Hn2. lia.
        -- now rewrite Hid2.
        -- now left.
      * simpl in Htim.
        assert (Hx1 : alert_fires (step w s) = every_two_minutes t j).
        { rewrite (alert_fires_snoc _ _ _ _ Hf2), Hfires. simpl.
          now rewrite app_nil_r. }
        assert (Hx2 : now (step w s) <= due A) by (rewrite Hn2; lia).
        assert (Hx3 : (timer_id A < next_id (step w s))%nat)
          by (rewrite Hid2; lia).
        assert (Hx4 : ends (step w s) = None) by now rewrite Hends2.
        destruct (Hpair (step w s) _ oneDayInMs Hx1 Hx4 Hx2 Hx3 Htim
                    eq_refl eq_refl) as (k & Hk).
        -- unfold oneDayInMs. lia.
        -- simpl. lia.
        -- exists (S k). exact Hk.
  - now apply (Hpair s F p).
  - exists 1%nat. simpl. apply Hfire; try assumption. now left.
Qed.

Lemma alert_armed_later t j s n :
  alert_armed t j s -> exists k, alert_armed t (j + n) (steps w k s).
Proof.
  revert s j. induction n as [|n IH]; intros s j Ha.
  - exists 0%nat. now rewrite Nat.add_0_r.
  - destruct (alert_armed_next _ _ _ Ha) as (k1 & Ha1).
    destruct (IH _ _ Ha1) as (k2 & Ha2).
    exists (k1 + k2)%nat. rewrite steps_add.
    now replace (j + S n)%nat with (S j + n)%nat by lia.
Qed.
End AlertTimeline.

(** X14.  When the alert job that [main] awaits at startup completes,
    the interval of the alert is set at the instant that job has
    settled, and the alert checks start every two minutes from that
    instant on, without end, as long as no job that raises inside a
    timer callback ends the process: the timers of the forecast never
    put them off. *)
Theorem alert_timeline {H : Host} (w : World) (t : Z) :
  smtp_ready w = Normal tt ->
  (forall tr, fst (airQualityAlertJob (env_at w t) tr) = Normal tt) ->
  alerts_settle w -> forecasts_settle w ->
  forall n, exists k,
    alert_fires (steps w k (main w t))
    = every_two_minutes (t + Z.of_N (alert_time w t)) n.
Proof.
  intros Hready Hok Halerts Hforecasts n.
  destruct (main_after_alert w t tt Hready)
    as (Hnow & Hfired & Hends & [((e & He & _) & _) | (_ & Ht & Hid)]).
  - rewrite Hok in He. discriminate He.
  - assert (H0 : alert_armed (t + Z.of_N (alert_time w t)) 0 (main w t)).
    { split; [unfold alert_fires; now rewrite Hfired|].
      split; [exact Hends|].
      eexists. split; [|split; [|split; [|split; [|split; [|left]]]]].
      6:{ eexists. split; [exact Ht|]. split; [reflexivity|].
          split; [reflexivity | simpl; discriminate]. }
      - reflexivity.
      - reflexivity.
      - simpl. lia.
      - rewrite Hnow. simpl. lia.
      - rewrite Hid. simpl. lia. }
    destruct (alert_armed_later w Halerts Hforecasts _ 0 _ n H0)
      as (k & (Hf & _)).
    exists k. exact Hf.
Qed.

Lemma alert_timeline_witness :
  let w := sample_world sample_air in
  exists k,
    alert_fires (steps (H := isoHost) w k (main (H := isoHost) w june1_0700))
    = [june1_0700 + 2000 + 120000; june1_0700 + 2000 + 240000;
       june1_0700 + 2000 + 360000].
Proof.
  intros w.
  destruct (alert_timeline (H := isoHost) w june1_0700) with (n := 3%nat)
    as (k & Hk);
    [reflexivity | intros tr; reflexivity
     | exact (proj1 sample_world_settles)
     | exact (proj2 sample_world_settles) |].
  exists k. exact Hk.
Defined.

(** The interval counts from the end of the startup check, not from the
    startup: a check of two seconds moves every later check by two
    seconds. *)
Example alerts_of_the_sample :
  let w := sample_world sample_air in
  alert_fires (steps (H := isoHost) w 2 (main (H := isoHost) w june1_0700))
  = [june1_0700 + 2000 + 120000; june1_0700 + 2000 + 240000].
Proof. vm_compute. reflexivity. Qed.

(** ** The day after *)

(** X15.  The date [main] computes for tomorrow,
    [new Date().setDate(new Date().getDate() + 1)], is the instant of
    the same reading of the local clock on the next local day, also when
    the day is the last of its month or year: the day of the month runs
    over into the next month.  In a zone with a fixed offset it is the
    same local time of day on the next local day, exactly 24 hours
    later. *)
Theorem tomorrow_is_a_day_later {H : Host} (t : Z) :
  Z.abs t <= 8640000000000000 - msPerDay ->
  setDate t (getDate t + 1) = TimeClip (UTC (LocalTime t + msPerDay)) /\
  (fixed_offset ->
   exists d,
     setDate t (getDate t + 1) = Some d /\
     d = t + msPerDay /\
     Day (LocalTime d) = Day (LocalTime t) + 1 /\
     TimeWithinDay (LocalTime d) = TimeWithinDay (LocalTime t)).
Proof.
  intros Ht. split.
  - unfold setDate, getDate. rewrite MakeDay_DateFromTime. f_equal. f_equal.
    unfold MakeDate, Day, TimeWithinDay, msPerDay.
    Z.div_mod_to_equations. lia.
  - intros Hfixed. exists (t + msPerDay).
    destruct (fixed_offset_between Hfixed) as (tz & Hz).
    destruct (LocalTime_next_day tz t (t + msPerDay) t (Hz _ _))
      as (Hw & _ & Hd); [lia | lia |].
    split; [apply (setDate_tomorrow tz t (t + msPerDay) t (Hz _ _));
            [lia | lia | exact Ht]|].
    split; [reflexivity|]. split; [exact Hd | exact Hw].
Qed.

Lemma tomorrow_is_a_day_later_witness :
  (* 31 December 2020, 09:30:00.250, to 1 January 2021 *)
  getDate (H := isoHost) 1609407000250 = 31 /\
  exists d,
    setDate (H := isoHost) 1609407000250
      (getDate (H := isoHost) 1609407000250 + 1) = Some d /\
    getDate (H := isoHost) d = 1 /\
    YearFromTime d = 2021.
Proof.
  split; [vm_compute; reflexivity|].
  destruct (tomorrow_is_a_day_later (H := isoHost) 1609407000250)
    as (_ & Hfixed); [vm_compute; discriminate|].
  destruct Hfixed as (d & Hs & -> & _);
    [exists 0; intros x isUTC; reflexivity|].
  eexists. split; [exact Hs|]. split; vm_compute; reflexivity.
Defined.




(** Over a change of the clocks the same reading comes later or
    sooner: where the clocks go back half an hour in the night, tomorrow
    is 24 hours and a half away. *)
Example tomorrow_over_a_clock_change :
  setDate (H := backHost) june1_0800_01
    (getDate (H := backHost) june1_0800_01 + 1)
  = Some (june1_0800_01 + msPerDay + 1800000).
Proof. vm_compute. reflexivity. Qed.

(** ** The table of limits and the recipients *)

(** X16.  The table of limits of the alert job has a number for every
    indicator of the indicator set: every entry that
    [formatAirQualityData] returns is compared with a limit, none with
    [undefined], and an entry whose value is a number is selected
    exactly when the number is over the limit of its indicator. *)
Theorem thresholds_cover_indicators {H : Host} (aq : JsVal)
  (fa : list Air.entry) :
  formatAirQualityData aq = Normal fa ->
  forall e, In e fa ->
    exists limit,
      get_own thresholds (Air.indicator e) = JNum (num_of_Z limit) /\
      0 < limit /\
      forall x, Air.current_value e = JNum x ->
        (In e (alertsFor thresholds fa) <-> num_gtb x (num_of_Z limit) = true).
Proof.
  intros Hfa e He.
  assert (Hk : In (Air.indicator e) AIR_QUALITY_INDICATOR).
  { rewrite (formatAirQualityData_Normal _ _ Hfa) in He.
    apply In_nth_error in He as (i & Hi).
    rewrite nth_error_mapi_from in Hi.
    destruct (nth_error AIR_QUALITY_INDICATOR i) as [k|] eqn:Ek;
      [|discriminate].
    simpl in Hi. injection Hi as <-. simpl.
    now apply nth_error_In in Ek. }
  assert (Hl : exists limit,
             get_own thresholds (Air.indicator e) = JNum (num_of_Z limit) /\
             0 < limit).
  { unfold AIR_QUALITY_INDICATOR in Hk. simpl in Hk.
    repeat (destruct Hk as [<- | Hk];
            [eexists; split; [reflexivity | lia]|]).
    contradiction. }
  destruct Hl as (limit & Hl & Hpos). exists limit.
  split; [exact Hl|]. split; [exact Hpos|].
  intros x Hx. unfold alertsFor. rewrite filter_In. unfold exceeds.
  rewrite Hx, Hl, js_gt_numbers. tauto.
Qed.

Lemma thresholds_cover_indicators_witness :
  exists limit,
    get_own thresholds "co" = JNum (num_of_Z limit) /\ 0 < limit.
Proof.
  destruct (thresholds_cover_indicators (H := isoHost) sample_air
              (mapi_from (air_entry sample_air) AIR_QUALITY_INDICATOR 0)
              eq_refl
              {| Air.indicator := "co";
                 Air.current_value := JNum (num_of_Z 8000);
                 Air.air_image := "./legends/co-legend.png";
                 Air.cid := "aid4" |})
    as (limit & Hl & Hpos & _); [simpl; tauto|].
  exists limit. split; [exact Hl | exact Hpos].
Defined.

(** X17.  A run of either job adds to the outbox nothing but mails to
    the configured recipient, under the subject and the sender name of
    that job, with one attachment for each entry of the page; what was
    in the outbox stays, in its place. *)
Theorem jobs_mail_the_recipient {H : Host} (env : Env) (s : Trace) :
  (exists sent,
      outbox (snd (weatherForecastJob env s)) = (outbox s ++ sent)%list /\
      forall m, In m sent ->
        mail_to m = recipient (config env) /\
        mail_from m = "Weather Forecast " ++ user (config env) /\
        subject m = "Weather forecast for today and current air quality" /\
        exists fw fa day,
          html m = WeatherForecastTemplate fw fa day /\
          List.length (attachments m)
          = (List.length fw + List.length fa)%nat) /\
  (exists sent,
      outbox (snd (airQualityAlertJob env s)) = (outbox s ++ sent)%list /\
      forall m, In m sent ->
        mail_to m = recipient (config env) /\
        mail_from m = "Air Quality Alert " ++ user (config env) /\
        subject m = "An air quality limit has been exceeded" /\
        exists selected,
          html m = AirQualityAlertTemplate selected /\
          selected <> [] /\
          List.length (attachments m) = List.length selected).
Proof.
  split.
  - rewrite weatherForecastJob_stages. cbv zeta.
    repeat match goal with
    | |- context [match ?c with Normal _ => _ | Throw _ => _ end] =>
        destruct c as [?|?]
    end;
      try (exists []; split; [simpl; now rewrite app_nil_r | intros m []]).
    + eexists. split; [reflexivity|]. intros m [<- | []].
      repeat split. do 3 eexists. split; [reflexivity|].
      simpl. now rewrite length_app, !length_map.
    + eexists. split; [reflexivity|]. intros m [<- | []].
      repeat split. do 3 eexists. split; [reflexivity|].
      simpl. now rewrite length_app, !length_map.
  - rewrite airQualityAlertJob_stages. cbv zeta.
    destruct (fetch_json env _) as [aq|e];
      [|exists []; split; [simpl; now rewrite app_nil_r | intros m []]].
    destruct (formatAirQualityData aq) as [fa|e];
      [|exists []; split; [simpl; now rewrite app_nil_r | intros m []]].
    destruct (alertsFor thresholds fa) as [|x l];
      [exists []; split; [simpl; now rewrite app_nil_r | intros m []]|].
    destruct (transport env _) as [u|e];
      (eexists; split; [reflexivity|]; intros m [<- | []];
       repeat split; eexists; split; [reflexivity|];
       split; [discriminate | simpl; now rewrite length_map]).
Qed.
